(** * readme_gen: the profile-banner generator, embedded and verified

    A shallow embedding of [readme_gen.py]: the Python values the script
    formats, the lxml element tree it rewrites, the calendar arithmetic
    behind the age string and the GraphQL fetchers with their error
    path, followed by the properties of the renderer and of the
    fetchers. *)

From Stdlib Require Import ZArith Lia ZifyNat Ascii String DecimalString.
From stdpp Require Import base option list strings gmap.

Set Warnings "-register-all".
Local Open Scope string_scope.

(** ** Python values *)

Module Py.

(** The values that flow through the script: what [json()] decodes to
    (None, booleans, integers, strings, lists, dicts) and the tuples the
    main block builds.  Numbers are integers, as the counts of the API
    are; a JSON number with a fraction or an exponent (a Python float)
    is left out, so nothing below speaks of one.  Strings are UTF-8
    byte strings; a dict keeps its insertion order. *)
Inductive pyval : Type :=
| VNone
| VBool (b : bool)
| VInt (n : Z)
| VStr (s : string)
| VList (items : list pyval)
| VTuple (items : list pyval)
| VDict (entries : list (string * pyval)).

(** The exceptions the script can meet. *)
Inductive exception : Type :=
| RuntimeError (msg : string)
| KeyError (key : string)
| TypeError
| ValueError
| IndexError
| AttributeError
| JSONDecodeError
| SyntaxError
| OSError.

(** A call either returns or raises. *)
Inductive outcome (A : Type) : Type :=
| Ok (a : A)
| Raise (e : exception).
Arguments Ok {A} a.
Arguments Raise {A} e.

#[export] Instance outcome_ret : MRet outcome := λ A a, Ok a.
#[export] Instance outcome_bind : MBind outcome := λ A B k m,
  match m with
  | Ok a => k a
  | Raise e => Raise e
  end.
#[export] Instance outcome_fmap : FMap outcome := λ A B f m,
  match m with
  | Ok a => Ok (f a)
  | Raise e => Raise e
  end.

(** [str(n)] for an int: decimal digits, a leading minus sign. *)
Definition str_int (n : Z) : string := NilZero.string_of_int (Z.to_int n).

(** Bytes [10xxxxxx] continue a UTF-8 character. *)
Definition is_continuation (c : ascii) : bool :=
  let n := N_of_ascii c in ((128 <=? n) && (n <? 192))%N.

(** [len(s)]: the number of characters, that is of bytes that start one. *)
Fixpoint len (s : string) : Z :=
  match s with
  | EmptyString => 0
  | String c r => ((if is_continuation c then 0 else 1) + len r)%Z
  end.

(** The characters of a string, as iteration yields them. *)
Fixpoint chars (s : string) : list string :=
  match s with
  | EmptyString => []
  | String c r =>
      match r with
      | String d _ =>
          if is_continuation d then
            match chars r with
            | g :: gs => String c g :: gs
            | [] => [String c EmptyString]
            end
          else String c EmptyString :: chars r
      | EmptyString => [String c EmptyString]
      end
  end.

(** [sep.join(parts)] *)
Fixpoint join (sep : string) (parts : list string) : string :=
  match parts with
  | [] => ""
  | [p] => p
  | p :: ps => p +:+ sep +:+ join sep ps
  end.

(** Digits of a number, least significant first, with a comma before
    every fourth one; [k] counts the digits of the current group. *)
Fixpoint commas_rev (ds : list ascii) (k : nat) : list ascii :=
  match ds with
  | [] => []
  | d :: r =>
      match k with
      | 3 => "," % char :: d :: commas_rev r 1
      | _ => d :: commas_rev r (S k)
      end
  end.

Definition group_thousands (digits : string) : string :=
  string_of_list_ascii
    (reverse (commas_rev (reverse (list_ascii_of_string digits)) 0)).

(** [f"{n:,}"]: the sign, then the decimal digits grouped in threes. *)
Definition format_comma (n : Z) : string :=
  ((if n <? 0 then "-" else "")%Z
   +:+ group_thousands (str_int (Z.abs n))).

Section Builtins.
(** [repr] on a [str] (quote choice and escapes) is the interpreter's. *)
Variable repr_str : string → string.

(** [repr(v)] *)
Fixpoint repr (v : pyval) : string :=
  match v with
  | VNone => "None"
  | VBool true => "True"
  | VBool false => "False"
  | VInt n => str_int n
  | VStr s => repr_str s
  | VList items => "[" +:+ join ", " (map repr items) +:+ "]"
  | VTuple [x] => "(" +:+ repr x +:+ ",)"
  | VTuple items => "(" +:+ join ", " (map repr items) +:+ ")"
  | VDict entries =>
      "{" +:+ join ", "
                (map (λ kv, repr_str (fst kv) +:+ ": " +:+ repr (snd kv))
                     entries)
      +:+ "}"
  end.

(** [str(v)]: a string is itself, everything else its [repr]. *)
Definition str (v : pyval) : string :=
  match v with
  | VStr s => s
  | _ => repr v
  end.
End Builtins.

(** [isinstance(v, int)]; [bool] is a subclass of [int]. *)
Definition isinstance_int (v : pyval) : bool :=
  match v with
  | VInt _ | VBool _ => true
  | _ => false
  end.

(** The integer an int-like value stands for. *)
Definition int_value (v : pyval) : Z :=
  match v with
  | VInt n => n
  | VBool b => Z.b2z b
  | _ => 0
  end.

(** [d[key]] on a decoded value *)
Definition subscript (v : pyval) (key : string) : outcome pyval :=
  match v with
  | VDict entries =>
      match list_find (λ kv, fst kv = key) entries with
      | Some (_, (_, x)) => Ok x
      | None => Raise (KeyError key)
      end
  | _ => Raise TypeError
  end.

(** [seq[i]] with an int index *)
Definition index (v : pyval) (i : Z) : outcome pyval :=
  let pick (items : list pyval) :=
    let n := Z.of_nat (length items) in
    let j := (if i <? 0 then i + n else i)%Z in
    if ((0 <=? j) && (j <? n))%Z then
      match items !! Z.to_nat j with
      | Some x => Ok x
      | None => Raise IndexError
      end
    else Raise IndexError in
  match v with
  | VList items | VTuple items => pick items
  | VStr s => pick (map VStr (chars s))
  | VDict _ => Raise (KeyError (str_int i))
  | _ => Raise TypeError
  end.

(** What a [for] loop draws from a value. *)
Definition iterate (v : pyval) : outcome (list pyval) :=
  match v with
  | VList items | VTuple items => Ok items
  | VDict entries => Ok (map (λ kv, VStr (fst kv)) entries)
  | VStr s => Ok (map VStr (chars s))
  | _ => Raise TypeError
  end.

(** [acc + x] for an int [acc]: ints and bools add; None, strings,
    lists, tuples and dicts are a type error. *)
Definition add_int (acc : Z) (v : pyval) : outcome Z :=
  if isinstance_int v then Ok (acc + int_value v)%Z else Raise TypeError.

(** [s * n] for a string and an int or bool: empty when [n <= 0]. *)
Fixpoint str_mul_nat (s : string) (n : nat) : string :=
  match n with
  | O => ""
  | S k => s +:+ str_mul_nat s k
  end.

Definition str_mul (s : string) (n : Z) : string := str_mul_nat s (Z.to_nat n).

End Py.

(** ** The element tree of lxml *)

Module Etree.
Import Py.

(** An element: tag, attributes, text, tail and children in document
    order. *)
Inductive element : Type :=
| Element (tag : string) (attrib : gmap string string)
          (text : option string) (tail : option string)
          (children : list element).

Definition tag (e : element) : string :=
  match e with Element t _ _ _ _ => t end.
Definition attrib (e : element) : gmap string string :=
  match e with Element _ a _ _ _ => a end.
Definition text (e : element) : option string :=
  match e with Element _ _ x _ _ => x end.
Definition tail (e : element) : option string :=
  match e with Element _ _ _ tl _ => tl end.
Definition children (e : element) : list element :=
  match e with Element _ _ _ _ cs => cs end.

(** [el.get(key)]: [None] when the attribute is absent. *)
Definition get (e : element) (key : string) : option string :=
  attrib e !! key.

(** [el.set(key, value)], for a value read from the tree itself: the
    strings a tree holds are XML-compatible, so lxml takes it. *)
Definition set (key value : string) (e : element) : element :=
  match e with
  | Element t a x tl cs => Element t (<[key:=value]> a) x tl cs
  end.

(** libxml2's [xmlIsChar_ch]: the bytes below 128 that XML takes, which
    are tab, line feed, carriage return and everything from the space
    on. *)
Definition xml_char (c : ascii) : bool :=
  let n := N_of_ascii c in
  (((9 <=? n) && (n <=? 10)) || (n =? 13) || (32 <=? n))%N.

(** The three bytes at the head of [c :: r] spell U+FFFE, U+FFFF or a
    surrogate. *)
Definition forbidden_triple (c : ascii) (r : string) : bool :=
  match r with
  | String b1 (String b2 _) =>
      let next3 :=
        (N_of_ascii c * 65536 + N_of_ascii b1 * 256 + N_of_ascii b2)%N in
      ((next3 =? 0xefbfbe) || (next3 =? 0xefbfbf)
       || ((0xeda080 <=? next3) && (next3 <=? 0xedbfbf)))%N
  | _ => false
  end.

(** lxml's test of a string on its way into a tree, byte by byte on the
    UTF-8 form: a byte below 128 has to be an XML character, and no
    character may be U+FFFE, U+FFFF or a surrogate. *)
Fixpoint xml_compatible (s : string) : bool :=
  match s with
  | EmptyString => true
  | String c r =>
      (if (128 <=? N_of_ascii c)%N then negb (forbidden_triple c r)
       else xml_char c)
      && xml_compatible r
  end.

(** An element with another text. *)
Definition with_text (s : string) (e : element) : element :=
  match e with
  | Element t a _ tl cs => Element t a (Some s) tl cs
  end.

(** [el.text = s]: lxml raises [ValueError] for a text that is not
    XML-compatible.  Nothing in the script catches the error, so the
    tree it leaves behind is never looked at again. *)
Definition set_text (s : string) (e : element) : outcome element :=
  if xml_compatible s then Ok (with_text s e) else Raise ValueError.

(** A reference to an element of a tree: the child indices from the
    root down to it. *)
Definition path : Type := list nat.

(** The element a reference points to. *)
Fixpoint get_at (e : element) (p : path) : option element :=
  match p with
  | [] => Some e
  | i :: q =>
      match children e !! i with
      | Some c => get_at c q
      | None => None
      end
  end.

(** Mutating the referenced element in place. *)
Fixpoint update_at (f : element → element) (e : element) (p : path)
         {struct p} : element :=
  match p with
  | [] => f e
  | i :: q =>
      match e with
      | Element t a x tl cs =>
          Element t a x tl (alter (λ c, update_at f c q) i cs)
      end
  end.

(** Mutating the referenced element in place by a call that may
    raise. *)
Definition put_at (f : element → outcome element) (e : element) (p : path)
  : outcome element :=
  match get_at e p with
  | Some el => el' ← f el; Ok (update_at (λ _, el') e p)
  | None => Ok e
  end.

(** [el.getparent()]: the root has none. *)
Definition getparent (root : element) (p : path) : option element :=
  match p with
  | [] => None
  | _ => get_at root (removelast p)
  end.

Definition bump (p : path) : path :=
  match p with
  | [] => []
  | i :: q => S i :: q
  end.

Section FirstMatch.
Variable wanted : element → bool.
Variable below : element → option path.

(** The first match, in document order, among the given siblings and
    their descendants. *)
Fixpoint first_in (cs : list element) : option path :=
  match cs with
  | [] => None
  | c :: r =>
      if wanted c then Some [0%nat]
      else match below c with
           | Some p => Some (0%nat :: p)
           | None => bump <$> first_in r
           end
  end.
End FirstMatch.

(** The first proper descendant of [e], in document order, that
    satisfies [wanted]. *)
Fixpoint first_descendant (wanted : element → bool) (e : element)
  : option path :=
  match e with
  | Element _ _ _ _ cs => first_in wanted (first_descendant wanted) cs
  end.

(** The predicate [[@id='v']]. *)
Definition has_id (v : string) (e : element) : bool :=
  bool_decide (get e "id" = Some v).

(** [root.find(".//*[@id='v']")] for a value [v] that the quoted literal
    holds whole: the first descendant of the root, in document order,
    whose [id] attribute equals [v]; [None] when there is none. *)
Definition find (root : element) (v : string) : option path :=
  first_descendant (has_id v) root.

(** A text as a parser gives it back: an element written with an empty
    text has none when the file is read again. *)
Definition nonempty (s : option string) : option string :=
  match s with
  | Some "" => None
  | _ => s
  end.

(** The tree a file holds once [tree.write] has serialised a tree into
    it, that is the tree the file parses to: empty texts and tails are
    gone. *)
Fixpoint reparsed (e : element) : element :=
  match e with
  | Element t a x tl cs =>
      Element t a (nonempty x) (nonempty tl) (reparsed <$> cs)
  end.

End Etree.

(** ** The SVG helper *)

Module Render.
Import Py Etree.

(** The sparse table of [justify_format]. *)
Definition dot_map : gmap Z string :=
  <[0%Z := ""]> (<[1%Z := " "]> (<[2%Z := ". "]> ∅)).

(** An identifier without the quote character that ends the literal of
    [f".//*[@id='{element_id}']"]. *)
Definition quote_free (s : string) : bool :=
  forallb (λ c, negb (Ascii.eqb c "'")) (list_ascii_of_string s).

Section Renderer.
Variable repr_str : string → string.
(** What [root.find] makes of the path that an identifier with a quote
    character spells: the literal ends at the quote and the rest of the
    identifier is read as path syntax, which lxml rejects or follows. *)
Variable find_spliced : element → string → outcome (option path).

(** [root.find(f".//*[@id='{element_id}']")] *)
Definition find_by_id (root : element) (element_id : string)
  : outcome (option path) :=
  if quote_free element_id then Ok (find root element_id)
  else find_spliced root element_id.

(** [find_and_replace(root, element_id, new_text)]; the tree is mutated
    in place, so the call returns the tree it leaves behind. *)
Definition find_and_replace (root : element) (element_id : string)
           (new_text : pyval) : outcome element :=
  el ← find_by_id root element_id;
  match el with
  | None => Ok root
  | Some el =>
      root ← put_at (set_text (str repr_str new_text)) root el;
      match getparent root el with
      | None => Raise AttributeError
      | Some parent =>
          match get parent "x" with
          | Some (String _ _ as parent_x) =>
              Ok (update_at (set "x" parent_x) root el)
          | _ => Ok root (* [None] and the empty string are falsy *)
          end
      end
  end.

(** [justify_format(root, eid, new_text, length=0)] *)
Definition justify_format (root : element) (eid : string)
           (new_text : pyval) (length : Z) : outcome element :=
  let new_text :=
    if isinstance_int new_text
    then VStr (format_comma (int_value new_text))
    else new_text in
  root ← find_and_replace root eid new_text;
  let just_len := Z.max 0 (length - len (str repr_str new_text)) in
  let dot_string :=
    default (" " +:+ str_mul "." just_len +:+ " ")
            (dot_map !! just_len) in
  find_and_replace root (eid +:+ "_dots") (VStr dot_string).

(** The seven values [svg_overwrite] unpacks. *)
Record vals : Type := Vals {
  age : pyval; comm : pyval; star : pyval; repo : pyval;
  contrib : pyval; follow : pyval; loc : pyval }.

(** The nine substitutions of [svg_overwrite], on the parsed tree. *)
Definition overwrite_tree (root : element) (v : vals) : outcome element :=
  root ← justify_format root "age_data" (age v) 0;
  root ← justify_format root "commit_data" (comm v) 22;
  root ← justify_format root "star_data" (star v) 14;
  root ← justify_format root "repo_data" (repo v) 6;
  root ← justify_format root "contrib_data" (contrib v) 0;
  root ← justify_format root "follower_data" (follow v) 10;
  loc2 ← index (loc v) 2;
  root ← justify_format root "loc_data" loc2 9;
  loc0 ← index (loc v) 0;
  root ← justify_format root "loc_add" loc0 0;
  loc1 ← index (loc v) 1;
  justify_format root "loc_del" loc1 7.

(** [svg_overwrite(fname, *vals)]: the file system maps a name to the
    tree its content parses to; a missing or malformed file has none.
    The tree is written back only after the last substitution, and the
    file then holds what the written tree parses to. *)
Definition svg_overwrite (fs : gmap string element) (fname : string)
           (v : vals) : outcome (gmap string element) :=
  match fs !! fname with
  | None => Raise OSError
  | Some root =>
      root ← overwrite_tree root v;
      Ok (<[fname:=reparsed root]> fs)
  end.
End Renderer.

End Render.

(** ** Calendar arithmetic and the age string *)

Module Dates.
Import Py.
Local Open Scope Z_scope.

(** A naive [datetime.datetime]. *)
Record datetime : Type := Datetime {
  year : Z; month : Z; day : Z;
  hour : Z; minute : Z; second : Z; microsecond : Z }.

(** [calendar.isleap] *)
Definition isleap (y : Z) : bool :=
  (y mod 4 =? 0) && (negb (y mod 100 =? 0) || (y mod 400 =? 0)).

(** [calendar.monthrange(y, m)[1]]: the number of days of a month. *)
Definition monthrange (y m : Z) : Z :=
  if m =? 2 then (if isleap y then 29 else 28)
  else if (m =? 4) || (m =? 6) || (m =? 9) || (m =? 11) then 30
  else 31.

(** What the constructor of [datetime] accepts. *)
Definition valid (d : datetime) : Prop :=
  1 <= year d <= 9999 ∧ 1 <= month d <= 12 ∧
  1 <= day d <= monthrange (year d) (month d) ∧
  0 <= hour d < 24 ∧ 0 <= minute d < 60 ∧ 0 <= second d < 60 ∧
  0 <= microsecond d < 1000000.

(** Comparison of naive datetimes: field by field, the year first. *)
Fixpoint lex_ltb (a b : list Z) : bool :=
  match a, b with
  | x :: a', y :: b' => (x <? y) || ((x =? y) && lex_ltb a' b')
  | _, _ => false
  end.

Definition fields (d : datetime) : list Z :=
  [year d; month d; day d; hour d; minute d; second d; microsecond d].

Definition ltb (a b : datetime) : bool := lex_ltb (fields a) (fields b).
Definition gtb (a b : datetime) : bool := ltb b a.

(** [date.toordinal]: days since 0001-01-01, that day being 1. *)
Definition days_before_year (y : Z) : Z :=
  (y - 1) * 365 + (y - 1) / 4 - (y - 1) / 100 + (y - 1) / 400.

Fixpoint days_before_month_nat (y : Z) (m : nat) : Z :=
  match m with
  | O => 0
  | S k => days_before_month_nat y k + monthrange y (Z.of_nat (S k))
  end.

Definition days_before_month (y m : Z) : Z :=
  days_before_month_nat y (Z.to_nat (m - 1)).

Definition toordinal (d : datetime) : Z :=
  days_before_year (year d) + days_before_month (year d) (month d) + day d.

(** A normalised [timedelta]: [0 <= seconds < 86400] and
    [0 <= microseconds < 1000000]; only the days carry the sign. *)
Record timedelta : Type := Timedelta {
  td_days : Z; td_seconds : Z; td_microseconds : Z }.

(** The microseconds from [b] to [a]. *)
Definition elapsed (a b : datetime) : Z :=
  let secs (d : datetime) :=
    toordinal d * 86400 + hour d * 3600 + minute d * 60 + second d in
  (secs a - secs b) * 1000000 + (microsecond a - microsecond b).

(** [a - b] on datetimes. *)
Definition sub (a b : datetime) : timedelta :=
  let us := elapsed a b in
  let s := us / 1000000 in
  Timedelta (s / 86400) (s mod 86400) (us mod 1000000).

(** The relative part of a [relativedelta]; its absolute fields are all
    unset when it is built from two datetimes. *)
Record relativedelta : Type := Relativedelta {
  years : Z; months : Z; days : Z;
  hours : Z; minutes : Z; seconds : Z; microseconds : Z }.

(** [int(copysign(1, x))] *)
Definition sign (x : Z) : Z := if x <? 0 then -1 else 1.

(** [_set_months]: the years and months of a month count. *)
Definition set_months (rd : relativedelta) (m : Z) : relativedelta :=
  if Z.abs m >? 11 then
    let s := sign m in
    Relativedelta ((m * s / 12) * s) ((m * s mod 12) * s) (days rd)
                  (hours rd) (minutes rd) (seconds rd) (microseconds rd)
  else
    Relativedelta 0 m (days rd) (hours rd) (minutes rd) (seconds rd)
                  (microseconds rd).

(** [rd + dt], as the constructor uses it: the day and time fields of
    [rd] are still zero there, so only years and months move the
    date; the day is clamped to the length of the month reached. *)
Definition radd (rd : relativedelta) (dt : datetime) : datetime :=
  let y := year dt + years rd in
  let m := month dt in
  let '(y, m) :=
    if months rd =? 0 then (y, m)
    else
      let m := m + months rd in
      if m >? 12 then (y + 1, m - 12)
      else if m <? 1 then (y - 1, m + 12)
      else (y, m) in
  let d := Z.min (monthrange y m) (day dt) in
  Datetime y m d (hour dt) (minute dt) (second dt) (microsecond dt).

(** The adjusting [while] loop of the constructor: [Some] of the month
    count it stops at, [None] when the fuel runs out first. *)
Fixpoint adjust (fuel : nat) (compare : datetime → datetime → bool)
         (increment : Z) (dt1 dt2 : datetime) (rd : relativedelta)
         (months : Z) : option Z :=
  if compare dt1 (radd rd dt2) then
    match fuel with
    | O => None
    | S fuel' =>
        let months := months + increment in
        adjust fuel' compare increment dt1 dt2 (set_months rd months) months
    end
  else Some months.

(** [_fix]: carries between the units, sign aware. *)
Definition fix_units (rd : relativedelta) : relativedelta :=
  let carry (limit base : Z) (lo hi : Z) : Z * Z :=
    if Z.abs lo >? limit then
      let s := sign lo in
      ((lo * s mod base) * s, hi + (lo * s / base) * s)
    else (lo, hi) in
  let '(us, secs) := carry 999999 1000000 (microseconds rd) (seconds rd) in
  let '(secs, mins) := carry 59 60 secs (minutes rd) in
  let '(mins, hrs) := carry 59 60 mins (hours rd) in
  let '(hrs, dys) := carry 23 24 hrs (days rd) in
  let '(mths, yrs) := carry 11 12 (months rd) (years rd) in
  Relativedelta yrs mths dys hrs mins secs us.

(** [relativedelta(dt1, dt2)] *)
Definition between (fuel : nat) (dt1 dt2 : datetime)
  : option relativedelta :=
  let zero := Relativedelta 0 0 0 0 0 0 0 in
  let months := (year dt1 - year dt2) * 12 + (month dt1 - month dt2) in
  let rd := set_months zero months in
  let '(compare, increment) :=
    if ltb dt1 dt2 then (gtb, 1) else (ltb, -1) in
  months ← adjust fuel compare increment dt1 dt2 rd months;
  let rd := set_months zero months in
  let delta := sub dt1 (radd rd dt2) in
  Some (fix_units
          (Relativedelta (years rd) (Dates.months rd) 0 0 0
             (td_seconds delta + td_days delta * 86400)
             (td_microseconds delta))).

(** [BIRTHDAY] *)
Definition BIRTHDAY : datetime := Datetime 2004 4 4 0 0 0 0.

(** [uptime_string(bday)]; [utcnow] is what the clock reads. *)
Definition uptime_string (fuel : nat) (utcnow : datetime) (bday : datetime)
  : option string :=
  diff ← between fuel utcnow bday;
  Some (str_int (years diff) +:+ " year"
        +:+ str_mul "s" (Z.b2z (negb (years diff =? 1)))
        +:+ ", " +:+ str_int (months diff) +:+ " month"
        +:+ str_mul "s" (Z.b2z (negb (months diff =? 1)))
        +:+ ", " +:+ str_int (days diff) +:+ " day"
        +:+ str_mul "s" (Z.b2z (negb (days diff =? 1)))).

End Dates.

(** ** The GraphQL helpers and the main block *)

Module Fetch.
Import Py Etree Render Dates.

(** What [requests.post] sends. *)
Record request : Type := Request {
  url : string; json : pyval; headers : gmap string string }.

(** What it gets back; [decoded] is what [json()] returns, [None] when
    the body does not decode. *)
Record response : Type := Response {
  status_code : Z; text : string; decoded : option pyval }.

(** The state the script changes: the module-level counters, the
    requests posted so far and the template files on disk. *)
Record world : Type := World {
  QUERY_COUNT : gmap string Z;
  posted : list request;
  files : gmap string element }.

(** A call that reads and changes the world, and returns or raises; what
    it changed before raising stays changed. *)
Definition M (A : Type) : Type := world → outcome A * world.

#[export] Instance M_ret : MRet M := λ A a w, (Ok a, w).
#[export] Instance M_bind : MBind M := λ A B k m w,
  match m w with
  | (Ok a, w') => k a w'
  | (Raise e, w') => (Raise e, w')
  end.

Definition lift {A} (o : outcome A) : M A := λ w, (o, w).

(** [SVG_FILES] *)
Definition SVG_FILES : list string := ["dark_mode.svg"; "light_mode.svg"].

(** The keys of [QUERY_COUNT]. *)
Definition counters : list string :=
  ["user_getter"; "follower_getter"; "graph_repos_stars";
   "recursive_loc"; "graph_commits"; "loc_query"].

Definition initial_QUERY_COUNT : gmap string Z :=
  list_to_map ((λ k, (k, 0%Z)) <$> counters).

Definition user_query : string :=
  "query($login:String!){ user(login:$login){ id createdAt }}".

Definition follower_query : string :=
  "query($login:String!){ user(login:$login){ followers{ totalCount }}}".

Definition repos_query : string :=
  "query($owner_affiliation:[RepositoryAffiliation],$login:String!,$cursor:String){
      user(login:$login){ repositories(first:100,after:$cursor,ownerAffiliations:$owner_affiliation){ totalCount edges{node{stargazers{totalCount}}} pageInfo{endCursor hasNextPage}}}}".

Section Script.
(** The remote API: its answer to a request may depend on everything
    posted before. *)
Variable post : list request → request → response.
(** The environment: the required secret and the optional user name. *)
Variable ACCESS_TOKEN : string.
Variable env_USER_NAME : option string.
(** The interpreter's [repr] on strings. *)
Variable repr_str : string → string.
(** lxml's answer to a path spelled by an identifier with a quote. *)
Variable find_spliced : element → string → outcome (option path).
(** The interpreter's [int] on strings. *)
Variable int_of_str : string → option Z.

Definition USER_NAME : string := default "Alans44" env_USER_NAME.

Definition HEADERS : gmap string string :=
  {[ "authorization" := "token " +:+ ACCESS_TOKEN ]}.

(** [query_count(k)] *)
Definition query_count (k : string) : M unit := λ w,
  match QUERY_COUNT w !! k with
  | Some n =>
      (Ok (), World (<[k:=(n + 1)%Z]> (QUERY_COUNT w)) (posted w) (files w))
  | None => (Raise (KeyError k), w)
  end.

(** The request [simple_request] builds. *)
Definition graphql_request (q : string) (v : pyval) : request :=
  Request "https://api.github.com/graphql"
          (VDict [("query", VStr q); ("variables", v)]) HEADERS.

(** [simple_request(fname, q, v)] *)
Definition simple_request (fname q : string) (v : pyval) : M response :=
  λ w,
    let req := graphql_request q v in
    let r := post (posted w) req in
    let w := World (QUERY_COUNT w) (posted w ++ [req]) (files w) in
    if (status_code r =? 200)%Z then (Ok r, w)
    else (Raise (RuntimeError
                   (fname +:+ " failed → " +:+ str_int (status_code r)
                    +:+ ": " +:+ text r)), w).

(** [r.json()] *)
Definition json_of (r : response) : outcome pyval :=
  match decoded r with
  | Some v => Ok v
  | None => Raise JSONDecodeError
  end.

(** [int(v)] *)
Definition int_of (v : pyval) : outcome Z :=
  match v with
  | VInt n => Ok n
  | VBool b => Ok (Z.b2z b)
  | VStr s =>
      match int_of_str s with
      | Some n => Ok n
      | None => Raise ValueError
      end
  | _ => Raise TypeError
  end.

(** [user_getter(username)]; the pair it returns. *)
Definition user_getter (username : string) : M (pyval * pyval) :=
  query_count "user_getter";;
  r ← simple_request "user_getter" user_query
        (VDict [("login", VStr username)]);
  lift (body ← json_of r;
        data ← subscript body "data";
        data ← subscript data "user";
        uid ← subscript data "id";
        created ← subscript data "createdAt";
        Ok (VDict [("id", uid)], created)).

(** [follower_getter(username)] *)
Definition follower_getter (username : string) : M Z :=
  query_count "follower_getter";;
  r ← simple_request "follower_getter" follower_query
        (VDict [("login", VStr username)]);
  lift (body ← json_of r;
        data ← subscript body "data";
        user ← subscript data "user";
        followers ← subscript user "followers";
        total ← subscript followers "totalCount";
        int_of total).

(** [e['node']['stargazers']['totalCount']] *)
Definition star_count (e : pyval) : outcome pyval :=
  node ← subscript e "node";
  gazers ← subscript node "stargazers";
  subscript gazers "totalCount".

(** [sum(e['node']['stargazers']['totalCount'] for e in edges)]: each
    count is looked up just before it is added. *)
Fixpoint sum_stars (acc : Z) (edges : list pyval) : outcome Z :=
  match edges with
  | [] => Ok acc
  | e :: rest =>
      total ← star_count e;
      acc ← add_int acc total;
      sum_stars acc rest
  end.

(** [graph_repos_stars(kind, aff, cursor=None)] *)
Definition graph_repos_stars (kind : string) (aff : list string)
           (cursor : pyval) : M pyval :=
  query_count "graph_repos_stars";;
  let vars := VDict [("owner_affiliation", VList (VStr <$> aff));
                     ("login", VStr USER_NAME);
                     ("cursor", cursor)] in
  resp ← simple_request "graph_repos_stars" repos_query vars;
  lift (body ← json_of resp;
        data ← subscript body "data";
        user ← subscript data "user";
        r ← subscript user "repositories";
        if String.eqb kind "repos" then subscript r "totalCount"
        else edges ← subscript r "edges";
             edges ← iterate edges;
             VInt <$> sum_stars 0 edges).

(** [svg_overwrite] on the files of the world. *)
Definition overwrite_file (v : vals) (fname : string) : M unit := λ w,
  match svg_overwrite repr_str find_spliced (files w) fname v with
  | Ok fs => (Ok (), World (QUERY_COUNT w) (posted w) fs)
  | Raise e => (Raise e, w)
  end.

(** [for svg in files: svg_overwrite(svg, ...)] *)
Fixpoint overwrite_all (v : vals) (names : list string) : M unit :=
  match names with
  | [] => mret ()
  | svg :: rest => overwrite_file v svg;; overwrite_all v rest
  end.

(** The statistics the main block gathers once the age string is
    known, in the order it fetches them. *)
Definition gather (age : string) : M vals :=
  star ← graph_repos_stars "stars" ["OWNER"] VNone;
  let star_data := star in
  repo ← graph_repos_stars "repos" ["OWNER"] VNone;
  let repo_data := repo in
  count ← graph_repos_stars "repos"
            ["OWNER"; "COLLABORATOR"; "ORGANIZATION_MEMBER"] VNone;
  let contrib_data := VTuple [count; VInt 0] in
  follower ← follower_getter USER_NAME;
  let follower_data := VInt follower in
  let commit_data := VInt 0 in
  let loc_total := VList [VStr "0"; VStr "0"; VStr "0"] in
  mret (Vals (VStr age) commit_data star_data repo_data contrib_data
             follower_data loc_total).

(** The main block; the timings it prints are left out.  [None]
    stands for an age computation that outlives the fuel. *)
Definition main (fuel : nat) (utcnow : datetime) (w : world)
  : option (outcome unit * world) :=
  match user_getter USER_NAME w with
  | (Raise e, w) => Some (Raise e, w)
  | (Ok user_data, w) =>
      age ← uptime_string fuel utcnow BIRTHDAY;
      Some ((v ← gather age; overwrite_all v SVG_FILES) w)
  end.
End Script.

End Fetch.

(** ** Vocabulary of the statements *)

Module Spec.
Import Py Etree Render.

(** The text of the element a reference points to. *)
Definition text_at (root : element) (p : path) : option string :=
  get_at root p ≫= text.

(** An attribute of the element a reference points to. *)
Definition attr_at (root : element) (p : path) (key : string)
  : option string :=
  get_at root p ≫= λ el, get el key.

(** What an element holds apart from its children. *)
Definition own (e : element)
  : string * gmap string string * option string * option string :=
  (tag e, attrib e, text e, tail e).

(** The dot leader as the specification words it: a total function of
    the padding figure. *)
Definition dot_leader (n : Z) : string :=
  if (n =? 0)%Z then ""
  else if (n =? 1)%Z then " "
  else if (n =? 2)%Z then ". "
  else " " +:+ str_mul "." n +:+ " ".

(** The text [justify_format] writes for a value. *)
Definition written (repr_str : string → string) (v : pyval) : string :=
  match v with
  | VInt n => format_comma n
  | VBool b => format_comma (Z.b2z b)
  | _ => str repr_str v
  end.

(** [sub] occurs in [s]. *)
Definition contains (s sub : string) : Prop :=
  ∃ before after, s = before +:+ sub +:+ after.

(** A decimal digit. *)
Definition is_digit (c : ascii) : bool :=
  let n := N_of_ascii c in ((48 <=? n) && (n <=? 57))%N.

(** A printable ASCII character. *)
Definition is_printable (c : ascii) : bool :=
  let n := N_of_ascii c in ((32 <=? n) && (n <? 128))%N.

(** [len] on a list of bytes. *)
Fixpoint len_list (l : list ascii) : Z :=
  match l with
  | [] => 0
  | c :: r => ((if is_continuation c then 0 else 1) + len_list r)%Z
  end.

(** A string without its commas. *)
Fixpoint strip_commas (s : string) : string :=
  match s with
  | EmptyString => ""
  | String c r =>
      if Ascii.eqb c "," then strip_commas r else String c (strip_commas r)
  end.

(** The two steps of [find_and_replace] on the element found, given the
    parent's [x]. *)
Definition retouch (new_text : string) (parent_x : option string)
           (el : element) : element :=
  match parent_x with
  | Some (String _ _ as x) => set "x" x (with_text new_text el)
  | _ => with_text new_text el
  end.

(** The substitutions of [svg_overwrite] as data: identifier, value and
    padding width, in the order they are made. *)
Definition step : Type := string * pyval * Z.

Definition substitutions (v : vals) (loc0 loc1 loc2 : pyval) : list step :=
  [("age_data", age v, 0%Z); ("commit_data", comm v, 22%Z);
   ("star_data", star v, 14%Z); ("repo_data", repo v, 6%Z);
   ("contrib_data", contrib v, 0%Z); ("follower_data", follow v, 10%Z);
   ("loc_data", loc2, 9%Z); ("loc_add", loc0, 0%Z); ("loc_del", loc1, 7%Z)].

(** A run of [justify_format] calls. *)
Fixpoint run_steps (repr_str : string → string)
         (find_spliced : element → string → outcome (option path))
         (root : element) (steps : list step) : outcome element :=
  match steps with
  | [] => Ok root
  | (eid, v, length) :: rest =>
      root ← justify_format repr_str find_spliced root eid v length;
      run_steps repr_str find_spliced root rest
  end.

(** A value whose written text lxml takes. *)
Definition writable (repr_str : string → string) (v : pyval) : Prop :=
  xml_compatible (written repr_str v) = true.

(** Steps whose values lxml all takes. *)
Definition all_writable (repr_str : string → string) (steps : list step)
  : Prop :=
  Forall (λ s : step, writable repr_str s.1.2) steps.

(** Steps that name their elements by identifiers without a quote. *)
Definition plain_ids (steps : list step) : Prop :=
  Forall (λ s : step, quote_free s.1.1 = true) steps.

(** The identifiers a run looks up. *)
Definition targets (steps : list step) : list string :=
  steps ≫= λ s, [s.1.1; s.1.1 +:+ "_dots"].

(** A datetime moved on by [k] months, the day clamped to the length of
    the month reached. *)
Definition months_on (k : Z) (d : Dates.datetime) : Dates.datetime :=
  Dates.radd (Dates.Relativedelta (k / 12) (k mod 12) 0 0 0 0 0) d.

(** A unit of the age string: the count, the word, and an [s] unless the
    count is exactly 1. *)
Definition unit_text (n : Z) (word : string) : string :=
  str_int n +:+ " " +:+ word +:+ (if (n =? 1)%Z then "" else "s").

(** The world after one more request and one more count. *)
Definition after_call (w : Fetch.world) (k : string) (n : Z)
           (req : Fetch.request) : Fetch.world :=
  Fetch.World (<[k:=(n + 1)%Z]> (Fetch.QUERY_COUNT w))
              (Fetch.posted w ++ [req]) (Fetch.files w).

(** The sum of a list of integers. *)
Definition total (counts : list Z) : Z := foldr Z.add 0%Z counts.

(** The message [simple_request] raises for an unsuccessful response. *)
Definition failure_message (fname : string) (r : Fetch.response) : string :=
  fname +:+ " failed → " +:+ str_int (Fetch.status_code r) +:+ ": "
  +:+ Fetch.text r.

(** A message that holds the name of the failing call, the status code
    of the response and its body. *)
Definition tells (msg fname : string) (r : Fetch.response) : Prop :=
  contains msg fname ∧
  contains msg (str_int (Fetch.status_code r)) ∧
  contains msg (Fetch.text r).

(** The variables [graph_repos_stars] sends. *)
Definition repos_variables (login : string) (aff : list string)
           (cursor : pyval) : pyval :=
  VDict [("owner_affiliation", VList (VStr <$> aff));
         ("login", VStr login); ("cursor", cursor)].

(** The variables of the two user queries. *)
Definition login_variables (login : string) : pyval :=
  VDict [("login", VStr login)].

(** An edge of a repositories page with the given star count. *)
Definition edge (count : Z) : pyval :=
  VDict [("node", VDict [("stargazers", VDict [("totalCount", VInt count)])])].

(** A decoded repositories page. *)
Definition repos_page (total_count : pyval) (counts : list Z)
           (end_cursor : pyval) (has_next : bool) : pyval :=
  VDict [("data", VDict [("user", VDict [("repositories",
    VDict [("totalCount", total_count);
           ("edges", VList (edge <$> counts));
           ("pageInfo", VDict [("endCursor", end_cursor);
                               ("hasNextPage", VBool has_next)])])])])].

(** The parent's [x] copied whenever it is declared, whatever its
    value; read for the identifiers and the values with which the call
    returns at all. *)
Definition parent_x_always_copied (repr_str : string → string)
           (find_spliced : element → string → outcome (option path))
  : Prop :=
  ∀ (root : element) (eid : string) (v : pyval) (p : path)
    (parent : element) (px : string),
    quote_free eid = true →
    xml_compatible (str repr_str v) = true →
    find root eid = Some p →
    getparent root p = Some parent →
    get parent "x" = Some px →
    ∃ root',
      find_and_replace repr_str find_spliced root eid v = Ok root' ∧
      text_at root' p = Some (str repr_str v) ∧
      attr_at root' p "x" = Some px.

End Spec.

(** ** Sample data *)

Module Samples.
Import Py Etree Render Dates Fetch Spec.

(** A [repr] for strings without quotes or escapes to take care of. *)
Definition quote (s : string) : string := "'" +:+ s +:+ "'".

(** An [int] that reads nothing. *)
Definition no_int (s : string) : option Z := None.

(** A path reader that rejects whatever an identifier with a quote
    spells. *)
Definition strict (root : element) (eid : string) : outcome (option path) :=
  Raise SyntaxError.

Definition tspan (i : string) : element :=
  Element "tspan" {[ "id" := i ]} None None [].

(** A template with every field of the banner, each line a [text]
    element that pins its horizontal offset. *)
Definition template : element :=
  Element "svg" ∅ None None
    [Element "text" {[ "x" := "390" ]} None None
       [tspan "age_data_dots"; tspan "age_data"];
     Element "text" {[ "x" := "390" ]} None None
       [tspan "repo_data_dots"; tspan "repo_data";
        tspan "contrib_data_dots"; tspan "contrib_data";
        tspan "star_data_dots"; tspan "star_data"];
     Element "text" {[ "x" := "390" ]} None None
       [tspan "commit_data_dots"; tspan "commit_data";
        tspan "follower_data_dots"; tspan "follower_data"];
     Element "text" {[ "x" := "390" ]} None None
       [tspan "loc_data_dots"; tspan "loc_data"; tspan "loc_add";
        tspan "loc_add_dots"; tspan "loc_del"; tspan "loc_del_dots"]].

(** A line whose [x] is declared but empty, around a field that has an
    offset of its own. *)
Definition unpinned : element :=
  Element "svg" ∅ None None
    [Element "text" {[ "x" := "" ]} None None
       [Element "tspan" {[ "id" := "age_data"; "x" := "5" ]} None None []]].

Definition values : vals :=
  Vals (VStr "22 years, 6 months, 30 days") (VInt 0) (VInt 1234) (VInt 17)
       (VTuple [VInt 23; VInt 0]) (VInt 5)
       (VList [VStr "0"; VStr "0"; VStr "0"]).

Definition noon : datetime := Datetime 2026 11 3 12 0 0 0.

Definition user_page : pyval :=
  VDict [("data", VDict [("user",
    VDict [("id", VStr "U_1"); ("createdAt", VStr "2020-01-01T00:00:00Z")])])].

Definition follower_page : pyval :=
  VDict [("data", VDict [("user",
    VDict [("followers", VDict [("totalCount", VInt 5)])])])].

(** An API that answers the five requests of a run in turn; its
    repositories pages all say that more pages follow. *)
Definition api (before : list request) (req : request) : response :=
  match length before with
  | 0%nat => Response 200 "" (Some user_page)
  | 1%nat | 2%nat =>
      Response 200 "" (Some (repos_page (VInt 17) [1000; 200; 34]%Z
                                        (VStr "Y3Vyc29y") true))
  | 3%nat =>
      Response 200 "" (Some (repos_page (VInt 23) [] (VStr "Y3Vyc29y") true))
  | _ => Response 200 "" (Some follower_page)
  end.

(** An API that is down. *)
Definition down (before : list request) (req : request) : response :=
  Response 502 "Bad Gateway" None.

Definition disk : gmap string element :=
  {[ "dark_mode.svg" := template; "light_mode.svg" := template ]}.

Definition start : world := World initial_QUERY_COUNT [] disk.

(** The world once the user query has been answered. *)
Definition asked : world :=
  World (<["user_getter":=1%Z]> initial_QUERY_COUNT)
        [graphql_request "secret" user_query (login_variables "Alans44")]
        disk.

End Samples.

(** ** Vocabulary of the further properties *)

Module Props.
Import Py Etree Render Dates Fetch Spec.

(** A tree without its texts and [x] attributes: what the SVG helper
    is not meant to touch. *)
Fixpoint skeleton (e : element) : element :=
  match e with
  | Element t a _ tl cs => Element t (delete "x" a) None tl (skeleton <$> cs)
  end.

(** Document order on references: an element comes before its
    descendants, and these before its later siblings. *)
Fixpoint before (p q : path) : bool :=
  match p, q with
  | [], _ => true
  | _ :: _, [] => false
  | i :: p', j :: q' => (i <? j)%nat || ((i =? j)%nat && before p' q')
  end.

(** [sum(QUERY_COUNT.values())], the total the main block prints. *)
Definition total_calls (counts : gmap string Z) : Z :=
  map_fold (λ _ n acc, (n + acc)%Z) 0%Z counts.

(** The identifiers of the nine data fields [svg_overwrite] fills; each
    has a companion with the suffix [_dots]. *)
Definition data_ids : list string :=
  ["age_data"; "commit_data"; "star_data"; "repo_data"; "contrib_data";
   "follower_data"; "loc_data"; "loc_add"; "loc_del"].

(** A change of the world that keeps what was posted, in order, and
    counts one call for every request it adds. *)
Definition accounted (w w' : world) : Prop :=
  ∃ reqs,
    posted w' = (posted w ++ reqs)%list ∧
    total_calls (QUERY_COUNT w')
    = (total_calls (QUERY_COUNT w) + Z.of_nat (length reqs))%Z.

(** What GitHub decodes to for a login it does not know. *)
Definition unknown_user_page : pyval :=
  VDict [("data", VDict [("user", VNone)])].

(** An API that knows no one. *)
Definition stranger (earlier : list request) (req : request) : response :=
  Response 200 "" (Some unknown_user_page).

(** A disk that lacks the light template. *)
Definition dark_only : gmap string element :=
  {[ "dark_mode.svg" := Samples.template ]}.

End Props.

(** ** Facts about the element tree *)

Module EtreeFacts.
Import Py Etree Spec.

(** Induction on an element with the property known of its children. *)
Lemma element_rect_children (P : element → Prop) :
  (∀ t a x tl cs, Forall P cs → P (Element t a x tl cs)) → ∀ e, P e.
Proof.
  intros step. fix IH 1. intros [t a x tl cs]. apply step.
  induction cs as [|c cs IHcs]; constructor; [apply IH | exact IHcs].
Qed.

Lemma get_at_app (e : element) (p q : path) :
  get_at e (p ++ q)%list = get_at e p ≫= λ c, get_at c q.
Proof.
  revert e. induction p as [|i p IH]; intros e; simpl; [done|].
  destruct (children e !! i) as [c|]; [apply IH | done].
Qed.

Lemma children_update_here (f : element → element) (e : element) i q :
  children (update_at f e (i :: q))
  = alter (λ c, update_at f c q) i (children e).
Proof. by destruct e. Qed.

Lemma own_update_below (f : element → element) (e : element) i q :
  own (update_at f e (i :: q)) = own e.
Proof. by destruct e. Qed.

(** After an update the referenced element is the updated one. *)
Lemma get_at_update_same (f : element → element) (e : element) (p : path) :
  get_at (update_at f e p) p = f <$> get_at e p.
Proof.
  revert e. induction p as [|i p IH]; intros e; [reflexivity|].
  cbn [get_at]. rewrite children_update_here, list_lookup_alter_eq.
  destruct (children e !! i) as [c|]; simpl; [apply IH | reflexivity].
Qed.

(** An update that keeps the children leaves every other element with
    the content it had. *)
Lemma own_at_update_other (f : element → element) (e : element)
      (p q : path) :
  (∀ el, children (f el) = children el) → q ≠ p →
  own <$> get_at (update_at f e p) q = own <$> get_at e q.
Proof.
  intros Hf. revert e q. induction p as [|i p IH]; intros e q Hne.
  - destruct q as [|j q]; [done|]. simpl. by rewrite Hf.
  - destruct q as [|j q].
    + destruct e; done.
    + cbn [get_at]. rewrite children_update_here.
      destruct (decide (i = j)) as [->|Hij].
      * rewrite list_lookup_alter_eq.
        destruct (children e !! j) as [c|]; simpl; [|done].
        apply IH. congruence.
      * by rewrite list_lookup_alter_ne.
Qed.

Lemma update_at_compose (f g : element → element) (e : element) (p : path) :
  update_at f (update_at g e p) p = update_at (f ∘ g) e p.
Proof.
  revert e. induction p as [|i p IH]; intros e; [done|].
  destruct e as [t a x tl cs]. simpl. f_equal.
  rewrite list_alter_alter_eq. apply list_alter_ext; [|done].
  intros c _. apply IH.
Qed.

Lemma first_descendant_unfold (wanted : element → bool) (e : element) :
  first_descendant wanted e
  = first_in wanted (first_descendant wanted) (children e).
Proof. by destruct e. Qed.

(** What [first_in] returns is a match with nothing matching before it. *)
Lemma first_in_Some (wanted : element → bool) (below : element → option path)
      (cs : list element) (p : path) :
  first_in wanted below cs = Some p →
  ∃ i c q, p = i :: q ∧ cs !! i = Some c ∧
    ((q = [] ∧ wanted c = true) ∨ (wanted c = false ∧ below c = Some q)) ∧
    ∀ j c', (j < i)%nat → cs !! j = Some c' →
            wanted c' = false ∧ below c' = None.
Proof.
  revert p. induction cs as [|c r IH]; intros p; simpl; [done|].
  destruct (wanted c) eqn:Hw.
  { intros [= <-]. exists 0%nat, c, []. do 2 (split; [done|]).
    split; [by left | intros; lia]. }
  destruct (below c) as [q|] eqn:Hb.
  { intros [= <-]. exists 0%nat, c, q. do 2 (split; [done|]).
    split; [by right | intros; lia]. }
  destruct (first_in wanted below r) as [p'|]; [|done].
  intros [= <-]. destruct (IH p' eq_refl) as (i & c' & q & -> & Hi & Hq & Hlt).
  exists (S i), c', q. do 3 (split; [done|]).
  intros [|j] c'' Hj Hc''; simpl in Hc''.
  - by injection Hc'' as <-.
  - apply (Hlt j); [lia | done].
Qed.

Lemma first_in_None (wanted : element → bool) (below : element → option path)
      (cs : list element) :
  first_in wanted below cs = None ↔
  Forall (λ c, wanted c = false ∧ below c = None) cs.
Proof.
  induction cs as [|c r IH]; simpl.
  - split; [constructor | done].
  - rewrite Forall_cons. destruct (wanted c) eqn:Hw.
    { split; [done | by intros [[? _] _]]. }
    destruct (below c) as [q|] eqn:Hb.
    { split; [done | by intros [[_ ?] _]]. }
    destruct (first_in wanted below r) as [p'|]; simpl.
    + split; [done|]. intros [_ Hr]. by apply IH in Hr.
    + split; [|done]. intros _. split; [done | by apply IH].
Qed.

(** The reference [first_descendant] returns points to a proper
    descendant that satisfies the predicate. *)
Lemma first_descendant_Some (wanted : element → bool) (e : element)
      (p : path) :
  first_descendant wanted e = Some p →
  p ≠ [] ∧ ∃ el, get_at e p = Some el ∧ wanted el = true.
Proof.
  revert p. induction e as [t a x tl cs IH] using element_rect_children.
  intros p Hp. rewrite first_descendant_unfold in Hp. simpl in Hp.
  apply first_in_Some in Hp as (i & c & q & -> & Hi & Hq & _).
  split; [done|]. simpl. rewrite Hi.
  destruct Hq as [[-> Hw]|[_ Hb]]; [by exists c|].
  rewrite Forall_lookup in IH. by destruct (IH i c Hi q Hb).
Qed.

(** It returns nothing exactly when no proper descendant satisfies the
    predicate. *)
Lemma first_descendant_None (wanted : element → bool) (e : element) :
  first_descendant wanted e = None ↔
  ∀ p el, p ≠ [] → get_at e p = Some el → wanted el = false.
Proof.
  split.
  - induction e as [t a x tl cs IH] using element_rect_children.
    rewrite first_descendant_unfold. simpl. rewrite first_in_None.
    rewrite !Forall_lookup in *. intros Hnone [|i q] el Hne Hel; [done|].
    simpl in Hel. destruct (cs !! i) as [c|] eqn:Hi; [|done].
    destruct (Hnone i c Hi) as [Hw Hb].
    destruct q as [|j q]; [by injection Hel as <-|].
    by apply (IH i c Hi Hb (j :: q)).
  - intros Hall. destruct (first_descendant wanted e) as [p|] eqn:Hp; [|done].
    apply first_descendant_Some in Hp as (Hne & el & Hel & Hw).
    by rewrite (Hall p el Hne Hel) in Hw.
Qed.

Lemma first_in_alter (wanted : element → bool) (below : element → option path)
      (g : element → element) (cs : list element) (i : nat) :
  (∀ c, cs !! i = Some c → wanted (g c) = wanted c ∧ below (g c) = below c) →
  first_in wanted below (alter g i cs) = first_in wanted below cs.
Proof.
  revert i. induction cs as [|c r IH]; intros i Hg; [done|].
  destruct i as [|i].
  - simpl. by destruct (Hg c eq_refl) as [-> ->].
  - change (alter g (S i) (c :: r)) with (c :: alter g i r).
    simpl. by rewrite (IH i Hg).
Qed.

(** An update that keeps the children, and the verdict of a predicate
    that looks at an element's own content only, does not move the
    first match. *)
Lemma first_descendant_update (wanted : element → bool)
      (f : element → element) (e : element) (p : path) :
  (∀ a b, own a = own b → wanted a = wanted b) →
  (∀ el, wanted (f el) = wanted el) →
  (∀ el, children (f el) = children el) →
  first_descendant wanted (update_at f e p) = first_descendant wanted e.
Proof.
  intros Hown Hw Hc. revert e. induction p as [|i p IH]; intros e.
  - simpl. by rewrite !(first_descendant_unfold _ (f e)),
      !(first_descendant_unfold _ e), Hc.
  - rewrite !(first_descendant_unfold _ (update_at _ _ _)),
      !(first_descendant_unfold _ e), children_update_here.
    apply first_in_alter. intros c _. split; [|apply IH].
    destruct p as [|j p]; [apply Hw|]. apply Hown, own_update_below.
Qed.

(** A referenced element other than the root has a parent. *)
Lemma getparent_Some (root el : element) (p : path) :
  p ≠ [] → get_at root p = Some el →
  ∃ parent, getparent root p = Some parent.
Proof.
  intros Hne Hel. unfold getparent. destruct p as [|i p]; [done|].
  rewrite (app_removelast_last 0%nat (l := i :: p)), get_at_app in Hel
    by done.
  destruct (get_at root (removelast (i :: p))) as [parent|]; [|done].
  by exists parent.
Qed.

Lemma removelast_ne (p : path) : p ≠ [] → removelast p ≠ p.
Proof.
  intros Hne Heq. apply (f_equal length) in Heq.
  rewrite (app_removelast_last 0%nat (l := p)) in Heq at 2 by done.
  rewrite length_app in Heq. simpl in Heq. lia.
Qed.

(** Updating an element does not change what its parent holds. *)
Lemma getparent_update (f : element → element) (root : element) (p : path) :
  (∀ el, children (f el) = children el) →
  own <$> getparent (update_at f root p) p = own <$> getparent root p.
Proof.
  intros Hc. unfold getparent. destruct p as [|i p]; [done|].
  apply own_at_update_other; [done|]. by apply removelast_ne.
Qed.

End EtreeFacts.

(** ** Facts about the formatting of values *)

Module PyFacts.
Import Py Spec.

Lemma string_of_list_of_string (s : string) :
  string_of_list_ascii (list_ascii_of_string s) = s.
Proof. apply string_of_list_ascii_of_string. Qed.

Lemma len_string_of_list (l : list ascii) :
  len (string_of_list_ascii l) = len_list l.
Proof. induction l as [|c l IH]; simpl; [done | by rewrite IH]. Qed.

Lemma len_list_of_string (s : string) :
  len_list (list_ascii_of_string s) = len s.
Proof. induction s as [|c s IH]; simpl; [done | by rewrite IH]. Qed.

Lemma len_list_app (a b : list ascii) :
  len_list (a ++ b)%list = (len_list a + len_list b)%Z.
Proof. induction a as [|c a IH]; simpl; [done | rewrite IH; lia]. Qed.

Lemma len_list_reverse (l : list ascii) : len_list (reverse l) = len_list l.
Proof.
  induction l as [|c l IH]; [done|].
  rewrite reverse_cons, len_list_app, IH. simpl. lia.
Qed.

Lemma len_list_nonneg (l : list ascii) : (0 <= len_list l)%Z.
Proof.
  induction l as [|c l IH]; simpl; [done | destruct (is_continuation c); lia].
Qed.

Lemma len_nonneg (s : string) : (0 <= len s)%Z.
Proof. rewrite <- len_list_of_string. apply len_list_nonneg. Qed.

(** Grouping only adds characters. *)
Lemma len_commas_rev (l : list ascii) (k : nat) :
  (len_list l <= len_list (commas_rev l k))%Z.
Proof.
  revert k. induction l as [|c l IH]; intros k; simpl; [done|].
  destruct k as [|[|[|[|k]]]]; simpl;
    match goal with |- context [commas_rev l ?j] => pose proof (IH j) end;
    destruct (is_continuation c); lia.
Qed.

Lemma strip_commas_list (l : list ascii) :
  strip_commas (string_of_list_ascii l)
  = string_of_list_ascii (filter (λ c, c ≠ ","%char) l).
Proof.
  induction l as [|c l IH]; [done|]. simpl.
  destruct (Ascii.eqb_spec c ",") as [->|Hc]; rewrite IH.
  - by rewrite filter_cons_False by (intros H; by apply H).
  - by rewrite filter_cons_True by done.
Qed.

(** Without its commas a grouped run of digits is the run itself. *)
Lemma filter_commas_rev (l : list ascii) (k : nat) :
  Forall (λ c, c ≠ ","%char) l →
  filter (λ c, c ≠ ","%char) (commas_rev l k) = l.
Proof.
  intros Hl. revert k. induction Hl as [|c l Hc _ IH]; intros k; [done|].
  simpl. destruct k as [|[|[|[|k]]]];
    rewrite ?(filter_cons_False _ ","%char) by (intros H; by apply H);
    rewrite filter_cons_True by done; by rewrite IH.
Qed.

Lemma strip_commas_group (s : string) :
  Forall (λ c, c ≠ ","%char) (list_ascii_of_string s) →
  strip_commas (group_thousands s) = s.
Proof.
  intros Hs. unfold group_thousands.
  rewrite strip_commas_list, filter_reverse.
  rewrite filter_commas_rev by by apply Forall_reverse.
  by rewrite reverse_involutive, string_of_list_of_string.
Qed.

Lemma digits_of_uint (d : Decimal.uint) :
  Forall (λ c, is_digit c = true)
         (list_ascii_of_string (NilEmpty.string_of_uint d)).
Proof. induction d; simpl; by constructor. Qed.

Lemma digits_of_nonneg (n : Z) :
  (0 <= n)%Z →
  Forall (λ c, is_digit c = true) (list_ascii_of_string (str_int n)).
Proof.
  intros Hn. unfold str_int.
  destruct n as [|p|p]; [by repeat constructor | | lia].
  pose proof (digits_of_uint (Pos.to_uint p)) as Hd.
  change (Z.to_int (Z.pos p)) with (Decimal.Pos (Pos.to_uint p)).
  unfold NilZero.string_of_int, NilZero.string_of_uint.
  destruct (Pos.to_uint p); [by repeat constructor | exact Hd ..].
Qed.

Lemma digit_not_comma (c : ascii) : is_digit c = true → c ≠ ","%char.
Proof. by intros Hc ->. Qed.

(** The decimal form of a negative number is a minus sign before the
    decimal form of its absolute value. *)
Lemma str_int_sign (n : Z) :
  str_int n = (if n <? 0 then "-" else "")%Z +:+ str_int (Z.abs n).
Proof. by destruct n. Qed.

(** Without its commas the grouped form is the plain decimal form. *)
Lemma strip_commas_format (n : Z) :
  strip_commas (format_comma n) = str_int n.
Proof.
  rewrite (str_int_sign n). unfold format_comma.
  assert (strip_commas (group_thousands (str_int (Z.abs n)))
          = str_int (Z.abs n)) as Hg.
  { apply strip_commas_group.
    eapply Forall_impl; [apply digits_of_nonneg; lia|].
    intros c. apply digit_not_comma. }
  destruct (n <? 0)%Z.
  - change (strip_commas (String "-" (group_thousands (str_int (Z.abs n))))
            = String "-" (str_int (Z.abs n))).
    simpl. by rewrite Hg.
  - exact Hg.
Qed.

(** The grouped form is at least as long as the plain one. *)
Lemma len_format_comma (n : Z) : (len (str_int n) <= len (format_comma n))%Z.
Proof.
  rewrite (str_int_sign n). unfold format_comma.
  assert (len (str_int (Z.abs n))
          <= len (group_thousands (str_int (Z.abs n))))%Z as Hg.
  { unfold group_thousands.
    rewrite len_string_of_list, len_list_reverse.
    etransitivity; [|apply len_commas_rev].
    by rewrite len_list_reverse, len_list_of_string. }
  destruct (n <? 0)%Z; [|exact Hg].
  change (len (String "-" (str_int (Z.abs n)))
          <= len (String "-" (group_thousands (str_int (Z.abs n)))))%Z.
  simpl. lia.
Qed.

(** No grouped form starts with a parenthesis. *)
Lemma format_comma_no_paren (n : Z) (r : string) :
  String "(" r ≠ format_comma n.
Proof.
  intros Heq. apply (f_equal strip_commas) in Heq.
  rewrite strip_commas_format in Heq. simpl in Heq.
  destruct n as [|p|p]; [done| |done].
  pose proof (digits_of_nonneg (Z.pos p) ltac:(lia)) as Hd.
  rewrite <- Heq in Hd. simpl in Hd. by apply Forall_cons in Hd as [? _].
Qed.

(** In a grouped run, counted from the least significant end, the
    commas sit at every fourth place. *)
Lemma commas_rev_places (l : list ascii) (k i : nat) :
  (k <= 3)%nat → Forall (λ c, c ≠ ","%char) l →
  (i < length (commas_rev l k))%nat →
  commas_rev l k !! i = Some ","%char ↔ ((i + k) mod 4 = 3)%nat.
Proof.
  intros Hk Hl. revert k i Hk.
  induction Hl as [|c l Hc _ IH]; intros k i Hk Hi; [simpl in Hi; lia|].
  destruct k as [|[|[|[|k]]]]; [| | | |lia]; cbn [commas_rev] in *.
  1-3: destruct i as [|i]; cbn [lookup list_lookup length] in *;
    [split; [by intros [= ->] | lia]
    |change ((c :: ?r) !! S i) with (r !! i); rewrite IH by lia; lia].
  destruct i as [|[|i]]; cbn [length] in *.
  - split; [lia | done].
  - change (c ≠ ","%char) in Hc. split; [by intros [= ->] | lia].
  - change (commas_rev l 1 !! i = Some ","%char ↔ (S (S i) + 3) mod 4 = 3)%nat.
    rewrite IH by lia. lia.
Qed.

(** It has one comma for every three digits but the leading ones. *)
Lemma length_commas_rev (l : list ascii) (k : nat) :
  (k <= 3)%nat →
  length (commas_rev l k) = (length l + (length l + k - 1) / 3)%nat.
Proof.
  revert k. induction l as [|c l IH]; intros k Hk;
    [cbn [commas_rev length]; lia|].
  destruct k as [|[|[|[|k]]]]; [| | | |lia]; cbn [commas_rev length];
    rewrite IH by lia; lia.
Qed.

Lemma list_of_string_of_list (l : list ascii) :
  list_ascii_of_string (string_of_list_ascii l) = l.
Proof. apply list_ascii_of_string_of_list_ascii. Qed.

(** The thousands-separated form of a non-negative number, read from
    its last character: a comma at every fourth place and nowhere else,
    and as many commas as there are full groups of three digits after
    the leading one. *)
Lemma group_thousands_places (n : Z) :
  (0 <= n)%Z →
  let digits := list_ascii_of_string (str_int n) in
  let grouped := list_ascii_of_string (group_thousands (str_int n)) in
  length grouped = (length digits + (length digits - 1) / 3)%nat ∧
  ∀ i, (i < length grouped)%nat →
       reverse grouped !! i = Some ","%char ↔ (i mod 4 = 3)%nat.
Proof.
  intros Hn digits grouped.
  assert (Forall (λ c, c ≠ ","%char) (reverse digits)) as Hd.
  { apply Forall_reverse. eapply Forall_impl; [by apply digits_of_nonneg|].
    intros c. apply digit_not_comma. }
  assert (grouped = reverse (commas_rev (reverse digits) 0)) as ->.
  { unfold grouped, group_thousands. by rewrite list_of_string_of_list. }
  rewrite length_reverse, length_commas_rev, length_reverse by lia.
  split; [f_equal; f_equal; lia|].
  intros i Hi. rewrite reverse_involutive.
  rewrite commas_rev_places; [by rewrite Nat.add_0_r | lia | done |].
  rewrite length_commas_rev, length_reverse by lia. lia.
Qed.

End PyFacts.
(** ** Facts about what lxml accepts *)

Module XmlFacts.
Import Py Etree Render Spec EtreeFacts PyFacts.

Lemma list_of_string_app (a b : string) :
  list_ascii_of_string (a +:+ b)
  = (list_ascii_of_string a ++ list_ascii_of_string b)%list.
Proof.
  induction a as [|c a IH]; [done|].
  change (list_ascii_of_string (String c (a +:+ b))
          = (c :: list_ascii_of_string a ++ list_ascii_of_string b)%list).
  simpl. by rewrite IH.
Qed.

(** Identifiers without a quote. *)
Lemma quote_free_app (a b : string) :
  quote_free (a +:+ b) = quote_free a && quote_free b.
Proof. unfold quote_free. by rewrite list_of_string_app, forallb_app. Qed.

Lemma quote_free_dots (eid : string) :
  quote_free eid = true → quote_free (eid +:+ "_dots") = true.
Proof. intros Hq. by rewrite quote_free_app, Hq. Qed.

(** Printable ASCII text is XML-compatible. *)
Lemma xml_compatible_printable (s : string) :
  Forall (λ c, is_printable c = true) (list_ascii_of_string s) →
  xml_compatible s = true.
Proof.
  induction s as [|c s IH]; [done|]. simpl. intros Hs.
  apply Forall_cons in Hs as [Hc Hs]. rewrite (IH Hs), andb_true_r.
  unfold is_printable in Hc. apply andb_true_iff in Hc as [Hlo Hhi].
  apply N.ltb_lt in Hhi.
  destruct (N.leb_spec 128 (N_of_ascii c)); [lia|].
  unfold xml_char. by rewrite Hlo, orb_true_r.
Qed.

Lemma printable_digit (c : ascii) : is_digit c = true → is_printable c = true.
Proof.
  unfold is_digit, is_printable. intros Hd.
  apply andb_true_iff in Hd as [Hlo Hhi].
  apply N.leb_le in Hlo, Hhi. apply andb_true_iff.
  split; [apply N.leb_le | apply N.ltb_lt]; lia.
Qed.

Lemma printable_commas_rev (l : list ascii) (k : nat) :
  Forall (λ c, is_printable c = true) l →
  Forall (λ c, is_printable c = true) (commas_rev l k).
Proof.
  intros Hl. revert k. induction Hl as [|c l Hc _ IH]; intros k; [done|].
  simpl. destruct k as [|[|[|[|k]]]]; repeat constructor; try done; apply IH.
Qed.

Lemma printable_digits (n : Z) :
  (0 <= n)%Z →
  Forall (λ c, is_printable c = true) (list_ascii_of_string (str_int n)).
Proof.
  intros Hn. eapply Forall_impl; [by apply digits_of_nonneg|].
  intros c. apply printable_digit.
Qed.

Lemma printable_format_comma (n : Z) :
  Forall (λ c, is_printable c = true) (list_ascii_of_string (format_comma n)).
Proof.
  unfold format_comma. rewrite list_of_string_app. apply Forall_app. split.
  - destruct (n <? 0)%Z; by repeat constructor.
  - unfold group_thousands. rewrite list_of_string_of_list.
    apply Forall_reverse, printable_commas_rev, Forall_reverse.
    apply printable_digits. lia.
Qed.

(** lxml takes every thousands-separated number. *)
Lemma xml_compatible_format_comma (n : Z) :
  xml_compatible (format_comma n) = true.
Proof. apply xml_compatible_printable, printable_format_comma. Qed.

Lemma printable_str_mul_dot (n : Z) :
  Forall (λ c, is_printable c = true) (list_ascii_of_string (str_mul "." n)).
Proof.
  unfold str_mul. induction (Z.to_nat n) as [|k IH]; [done|].
  cbn [str_mul_nat]. rewrite list_of_string_app. apply Forall_app.
  split; [by repeat constructor | done].
Qed.

(** lxml takes every dot leader. *)
Lemma xml_compatible_dot_leader (n : Z) : xml_compatible (dot_leader n) = true.
Proof.
  apply xml_compatible_printable. unfold dot_leader.
  destruct (n =? 0)%Z; [done|]. destruct (n =? 1)%Z; [by repeat constructor|].
  destruct (n =? 2)%Z; [by repeat constructor|].
  rewrite !list_of_string_app. apply Forall_app.
  split; [by repeat constructor|]. apply Forall_app.
  split; [apply printable_str_mul_dot | by repeat constructor].
Qed.

(** A number has at least one digit, grouped or not. *)
Lemma str_int_nonempty (n : Z) : str_int n ≠ "".
Proof.
  unfold str_int. destruct n as [|p|p]; [done| |done].
  change (Z.to_int (Z.pos p)) with (Decimal.Pos (Pos.to_uint p)).
  unfold NilZero.string_of_int, NilZero.string_of_uint.
  by destruct (Pos.to_uint p).
Qed.

Lemma format_comma_nonempty (n : Z) : format_comma n ≠ "".
Proof.
  intros Hempty. apply (str_int_nonempty n).
  by rewrite <- strip_commas_format, Hempty.
Qed.

(** An update only looks at the element it reaches. *)
Lemma update_at_here (f g : element → element) (e : element) (p : path)
      (el : element) :
  get_at e p = Some el → f el = g el → update_at f e p = update_at g e p.
Proof.
  revert e. induction p as [|i p IH]; intros e Hel Hfg.
  { simpl in Hel. by injection Hel as ->. }
  destruct e as [t a x tl cs]. simpl in *.
  destruct (cs !! i) as [c|] eqn:Hc; [|done]. f_equal.
  apply list_eq. intros j.
  destruct (decide (j = i)) as [->|Hne].
  - rewrite !list_lookup_alter, Hc. simpl. case_decide; [|done].
    f_equal. by apply IH.
  - by rewrite !list_lookup_alter_ne.
Qed.

(** Setting the text of an element of the tree: either the text is
    XML-compatible and the element gets it, or the call raises. *)
Lemma put_at_set_text (s : string) (e : element) (p : path) (el : element) :
  get_at e p = Some el →
  put_at (set_text s) e p
  = if xml_compatible s then Ok (update_at (with_text s) e p)
    else Raise ValueError.
Proof.
  intros Hel. unfold put_at, set_text. rewrite Hel.
  destruct (xml_compatible s); [|done]. simpl. f_equal.
  by apply (update_at_here _ _ e p el).
Qed.

(** What a file read again holds. *)
Lemma nonempty_text (s : string) :
  nonempty (Some s) = if String.eqb s "" then None else Some s.
Proof. by destruct s. Qed.

Lemma nonempty_Some (s : string) : s ≠ "" → nonempty (Some s) = Some s.
Proof. by destruct s. Qed.

Lemma children_reparsed (e : element) :
  children (reparsed e) = reparsed <$> children e.
Proof. by destruct e. Qed.

Lemma get_at_reparsed (e : element) (p : path) :
  get_at (reparsed e) p = reparsed <$> get_at e p.
Proof.
  revert e. induction p as [|i p IH]; intros e; [done|].
  simpl. rewrite children_reparsed, list_lookup_fmap.
  destruct (children e !! i) as [c|]; [apply IH | done].
Qed.

Lemma text_reparsed (e : element) : text (reparsed e) = nonempty (text e).
Proof. by destruct e. Qed.

Lemma text_at_reparsed (e : element) (p : path) :
  text_at (reparsed e) p = nonempty (text_at e p).
Proof.
  unfold text_at. rewrite get_at_reparsed.
  destruct (get_at e p) as [el|]; [apply text_reparsed | done].
Qed.

Lemma attr_at_reparsed (e : element) (p : path) (key : string) :
  attr_at (reparsed e) p key = attr_at e p key.
Proof.
  unfold attr_at. rewrite get_at_reparsed.
  by destruct (get_at e p) as [[]|].
Qed.

Lemma has_id_reparsed (v : string) (e : element) :
  has_id v (reparsed e) = has_id v e.
Proof. by destruct e. Qed.

(** Reading a file again finds every identifier where it was. *)
Lemma find_reparsed (e : element) (v : string) :
  find (reparsed e) v = find e v.
Proof.
  unfold find. induction e as [t a x tl cs IH] using element_rect_children.
  rewrite !first_descendant_unfold, children_reparsed. cbn [children].
  induction IH as [|c cs Hc _ IHcs]; [done|].
  rewrite fmap_cons. cbn [first_in].
  rewrite has_id_reparsed, Hc.
  destruct (has_id v c); [done|].
  destruct (first_descendant (has_id v) c); [done|]. by rewrite IHcs.
Qed.

End XmlFacts.

(** ** Facts about the SVG helper *)

Module RenderFacts.
Import Py Etree Render Spec EtreeFacts PyFacts XmlFacts.

Lemma append_empty_r (s : string) : s +:+ "" = s.
Proof.
  induction s as [|c s IH]; [done|].
  change (String c (s +:+ "") = String c s). by f_equal.
Qed.

Lemma dots_id_differs (eid : string) : eid ≠ eid +:+ "_dots".
Proof.
  intros Heq. rewrite <- (append_empty_r eid) in Heq at 1.
  by apply (inj (String.append eid)) in Heq.
Qed.

Lemma has_id_own (v : string) (a b : element) :
  own a = own b → has_id v a = has_id v b.
Proof. unfold own, has_id, get. by intros [= _ -> _ _]. Qed.

Lemma children_retouch (s : string) (px : option string) (el : element) :
  children (retouch s px el) = children el.
Proof. by destruct el, px as [[|]|]. Qed.

Lemma has_id_retouch (v s : string) (px : option string) (el : element) :
  has_id v (retouch s px el) = has_id v el.
Proof.
  destruct el as [t a x tl cs], px as [[|c r]|]; try done.
  unfold has_id, get. simpl. by rewrite lookup_insert_ne.
Qed.

Lemma text_retouch (s : string) (px : option string) (el : element) :
  text (retouch s px el) = Some s.
Proof. by destruct el, px as [[|]|]. Qed.

(** Two identifiers that find the same element are the same. *)
Lemma find_same_element (root : element) (a b : string) (p : path) :
  find root a = Some p → find root b = Some p → a = b.
Proof.
  intros Ha Hb.
  apply first_descendant_Some in Ha as (_ & ea & Hea & Hwa).
  apply first_descendant_Some in Hb as (_ & eb & Heb & Hwb).
  unfold has_id in *. apply bool_decide_eq_true in Hwa, Hwb. congruence.
Qed.

(** The dot leader the table lookup with its fallback yields. *)
Lemma dot_map_get (n : Z) :
  default (" " +:+ str_mul "." n +:+ " ") (dot_map !! n) = dot_leader n.
Proof.
  unfold dot_map, dot_leader.
  destruct (Z.eqb_spec n 0) as [->|H0]; [done|].
  rewrite lookup_insert_ne by done.
  destruct (Z.eqb_spec n 1) as [->|H1]; [done|].
  rewrite lookup_insert_ne by done.
  destruct (Z.eqb_spec n 2) as [->|H2]; [done|].
  by rewrite lookup_insert_ne, lookup_empty by done.
Qed.

Section Renderer.
Variable repr_str : string → string.
Variable find_spliced : element → string → outcome (option path).
Local Abbreviation str := (Py.str repr_str).
Local Abbreviation find_and_replace :=
  (Render.find_and_replace repr_str find_spliced).
Local Abbreviation justify_format :=
  (Render.justify_format repr_str find_spliced).
Local Abbreviation run_steps := (Spec.run_steps repr_str find_spliced).

(** For an identifier without a quote, [find_and_replace] returns the
    old tree when nothing carries the identifier; when an element does,
    it raises on a text lxml refuses and otherwise leaves the tree with
    that element retouched. *)
Lemma find_and_replace_eq (root : element) (eid : string) (v : pyval) :
  quote_free eid = true →
  find_and_replace root eid v
  = match find root eid with
    | None => Ok root
    | Some p =>
        if xml_compatible (str v) then
          Ok (update_at
                (retouch (str v) (getparent root p ≫= λ par, get par "x"))
                root p)
        else Raise ValueError
    end.
Proof.
  intros Hq. unfold Render.find_and_replace, find_by_id. rewrite Hq.
  cbn [mbind outcome_bind].
  destruct (find root eid) as [p|] eqn:Hp; [|done].
  apply first_descendant_Some in Hp as (Hne & el & Hel & _).
  rewrite (put_at_set_text _ _ _ _ Hel).
  destruct (xml_compatible (str v)); [|done]. cbn [mbind outcome_bind].
  destruct (getparent_Some root el p Hne Hel) as [par Hpar].
  assert (own <$> getparent (update_at (with_text (str v)) root p) p
          = own <$> getparent root p) as Hown.
  { apply getparent_update. by intros []. }
  rewrite Hpar in Hown.
  destruct (getparent (update_at _ root p) p) as [par'|]; [|done].
  assert (get par' "x" = get par "x") as ->.
  { unfold get. by injection Hown as _ -> _ _. }
  rewrite Hpar. simpl. destruct (get par "x") as [[|c r]|]; try done.
  by rewrite update_at_compose.
Qed.

(** The tree a call that returned leaves. *)
Lemma find_and_replace_Ok (root root' : element) (eid : string) (v : pyval) :
  quote_free eid = true →
  find_and_replace root eid v = Ok root' →
  root' = match find root eid with
          | None => root
          | Some p =>
              update_at
                (retouch (str v) (getparent root p ≫= λ par, get par "x"))
                root p
          end.
Proof.
  intros Hq. rewrite find_and_replace_eq by done.
  destruct (find root eid) as [p|]; [|by intros [= <-]].
  destruct (xml_compatible (str v)); [by intros [= <-] | done].
Qed.

(** It returns when no element carries the identifier or lxml takes the
    text. *)
Lemma find_and_replace_returns (root : element) (eid : string) (v : pyval) :
  quote_free eid = true →
  find root eid = None ∨ xml_compatible (str v) = true →
  ∃ root', find_and_replace root eid v = Ok root'.
Proof.
  intros Hq Hok. rewrite find_and_replace_eq by done.
  destruct (find root eid) as [p|]; [|by eexists].
  destruct Hok as [Hnone | ->]; [done | by eexists].
Qed.

(** It moves no identifier: every lookup finds what it found before. *)
Lemma find_and_replace_find (root root' : element) (eid : string)
      (v : pyval) (e : string) :
  quote_free eid = true →
  find_and_replace root eid v = Ok root' → find root' e = find root e.
Proof.
  intros Hq Hrun. rewrite (find_and_replace_Ok _ _ _ _ Hq Hrun).
  destruct (find root eid) as [p|]; [|done].
  apply first_descendant_update.
  - apply has_id_own.
  - apply has_id_retouch.
  - apply children_retouch.
Qed.

(** The element found gets the stringified value as its text. *)
Lemma find_and_replace_text (root root' : element) (eid : string)
      (v : pyval) (p : path) :
  quote_free eid = true →
  find_and_replace root eid v = Ok root' → find root eid = Some p →
  text_at root' p = Some (str v).
Proof.
  intros Hq Hrun Hp. rewrite (find_and_replace_Ok _ _ _ _ Hq Hrun), Hp.
  apply first_descendant_Some in Hp as (_ & el & Hel & _).
  unfold text_at. rewrite get_at_update_same, Hel. simpl.
  apply text_retouch.
Qed.

(** Every other element keeps what it held. *)
Lemma find_and_replace_other (root root' : element) (eid : string)
      (v : pyval) (q : path) :
  quote_free eid = true →
  find_and_replace root eid v = Ok root' → find root eid ≠ Some q →
  own <$> get_at root' q = own <$> get_at root q.
Proof.
  intros Hq Hrun Hother. rewrite (find_and_replace_Ok _ _ _ _ Hq Hrun).
  destruct (find root eid) as [p|]; [|done].
  apply own_at_update_other; [apply children_retouch | congruence].
Qed.

Lemma text_at_own (root root' : element) (q : path) :
  own <$> get_at root' q = own <$> get_at root q →
  text_at root' q = text_at root q.
Proof.
  unfold text_at, own.
  destruct (get_at root' q), (get_at root q); simpl; congruence.
Qed.

Lemma attr_at_own (root root' : element) (q : path) (key : string) :
  own <$> get_at root' q = own <$> get_at root q →
  attr_at root' q key = attr_at root q key.
Proof.
  unfold attr_at, own, get.
  destruct (get_at root' q), (get_at root q); simpl; congruence.
Qed.

(** The text [justify_format] hands to [find_and_replace]. *)
Lemma str_formatted (v : pyval) :
  str (if isinstance_int v then VStr (format_comma (int_value v)) else v)
  = written repr_str v.
Proof. by destruct v. Qed.

(** [justify_format] as two calls of [find_and_replace]. *)
Lemma justify_format_eq (root : element) (eid : string) (v : pyval)
      (length : Z) :
  justify_format root eid v length
  = (r ← find_and_replace root eid (VStr (written repr_str v));
     find_and_replace r (eid +:+ "_dots")
       (VStr (dot_leader (Z.max 0 (length - len (written repr_str v)))))).
Proof.
  unfold Render.justify_format. rewrite dot_map_get, str_formatted.
  unfold Render.find_and_replace. by rewrite str_formatted.
Qed.

(** A call of [justify_format] that returns has moved no identifier,
    written the formatted value and the dot leader, and left the rest
    alone. *)
Lemma justify_format_effect (root root' : element) (eid : string)
      (v : pyval) (length : Z) :
  quote_free eid = true →
  justify_format root eid v length = Ok root' →
  (∀ e, find root' e = find root e) ∧
  (∀ p, find root eid = Some p →
        text_at root' p = Some (written repr_str v)) ∧
  (∀ q, find root (eid +:+ "_dots") = Some q →
        text_at root' q
        = Some (dot_leader (Z.max 0 (length - len (written repr_str v))))) ∧
  (∀ q, find root eid ≠ Some q → find root (eid +:+ "_dots") ≠ Some q →
        own <$> get_at root' q = own <$> get_at root q).
Proof.
  intros Hq. pose proof (quote_free_dots eid Hq) as Hqd.
  rewrite justify_format_eq.
  set (shown := VStr (written repr_str v)).
  set (dots := dot_leader _).
  destruct (find_and_replace root eid shown) as [r1|] eqn:H1; [|done].
  cbn [mbind outcome_bind]. intros H2.
  assert (∀ e, find r1 e = find root e) as Hf1
    by (intros e; exact (find_and_replace_find root r1 eid shown e Hq H1)).
  assert (∀ e, find root' e = find r1 e) as Hf2
    by (intros e;
        exact (find_and_replace_find r1 root' _ (VStr dots) e Hqd H2)).
  split; [intros e; by rewrite Hf2, Hf1|]. split; [|split].
  - intros p Hp.
    transitivity (text_at r1 p);
      [|exact (find_and_replace_text root r1 eid shown p Hq H1 Hp)].
    apply text_at_own.
    apply (find_and_replace_other r1 root' _ (VStr dots) p Hqd H2).
    rewrite Hf1. intros Hother.
    by destruct (dots_id_differs eid
                   (find_same_element root _ _ p Hp Hother)).
  - intros q Hfound.
    apply (find_and_replace_text r1 root' _ (VStr dots) q Hqd H2).
    by rewrite Hf1.
  - intros q Hother Hotherd.
    transitivity (own <$> get_at r1 q).
    + apply (find_and_replace_other r1 root' _ (VStr dots) q Hqd H2).
      by rewrite Hf1.
    + exact (find_and_replace_other root r1 eid shown q Hq H1 Hother).
Qed.

(** It returns when no element carries the identifier or lxml takes the
    text written for the value; it takes every dot leader. *)
Lemma justify_format_returns (root : element) (eid : string) (v : pyval)
      (length : Z) :
  quote_free eid = true →
  find root eid = None ∨ writable repr_str v →
  ∃ root', justify_format root eid v length = Ok root'.
Proof.
  intros Hq Hok. rewrite justify_format_eq.
  destruct (find_and_replace_returns root eid (VStr (written repr_str v)) Hq Hok)
    as [r1 ->].
  cbn [mbind outcome_bind]. apply find_and_replace_returns.
  - by apply quote_free_dots.
  - right. apply xml_compatible_dot_leader.
Qed.

(** It raises [ValueError] when an element carries the identifier and
    lxml refuses the text. *)
Lemma justify_format_refused (root : element) (eid : string) (v : pyval)
      (length : Z) (p : path) :
  quote_free eid = true → find root eid = Some p →
  xml_compatible (written repr_str v) = false →
  justify_format root eid v length = Raise ValueError.
Proof.
  intros Hq Hp Hbad. rewrite justify_format_eq, find_and_replace_eq by done.
  rewrite Hp. cbn [Py.str]. by rewrite Hbad.
Qed.

(** On a value lxml takes, [justify_format] returns, moves no
    identifier, writes the formatted value and the dot leader, and
    leaves the rest alone. *)
Lemma justify_format_spec (root : element) (eid : string) (v : pyval)
      (length : Z) :
  quote_free eid = true →
  find root eid = None ∨ writable repr_str v →
  ∃ root',
    justify_format root eid v length = Ok root' ∧
    (∀ e, find root' e = find root e) ∧
    (∀ p, find root eid = Some p →
          text_at root' p = Some (written repr_str v)) ∧
    (∀ q, find root (eid +:+ "_dots") = Some q →
          text_at root' q
          = Some (dot_leader
                    (Z.max 0 (length - len (written repr_str v))))) ∧
    (∀ q, find root eid ≠ Some q → find root (eid +:+ "_dots") ≠ Some q →
          own <$> get_at root' q = own <$> get_at root q).
Proof.
  intros Hq Hok.
  destruct (justify_format_returns root eid v length Hq Hok) as [root' Hrun].
  exists root'. split; [exact Hrun|].
  by apply (justify_format_effect root root' eid v length).
Qed.

(** A run of substitutions that returns has moved no identifier and
    left alone every element that none of its identifiers finds. *)
Lemma run_steps_frame (steps : list step) (root root' : element) :
  plain_ids steps →
  run_steps root steps = Ok root' →
  (∀ e, find root' e = find root e) ∧
  (∀ q, (∀ t, t ∈ targets steps → find root t ≠ Some q) →
        own <$> get_at root' q = own <$> get_at root q).
Proof.
  intros Hplain. revert root.
  induction Hplain as [|[[eid v] length] rest Hq _ IH]; intros root Hrun.
  { injection Hrun as <-. by split. }
  cbn [Spec.run_steps] in Hrun. simpl in Hq.
  destruct (justify_format root eid v length) as [r1|] eqn:Hr1; [|done].
  cbn [mbind outcome_bind] in Hrun.
  destruct (justify_format_effect root r1 eid v length Hq Hr1)
    as (Hfind1 & _ & _ & Hother1).
  destruct (IH r1 Hrun) as (Hfind2 & Hother2).
  split; [intros e; by rewrite Hfind2, Hfind1|].
  intros q Hnone. transitivity (own <$> get_at r1 q).
  - apply Hother2. intros t Ht. rewrite Hfind1. apply Hnone.
    unfold targets. simpl. rewrite !elem_of_cons. auto.
  - apply Hother1; apply Hnone; unfold targets; simpl; rewrite !elem_of_cons;
      auto.
Qed.

(** A run whose values lxml all takes returns. *)
Lemma run_steps_returns (steps : list step) (root : element) :
  plain_ids steps → all_writable repr_str steps →
  ∃ root', run_steps root steps = Ok root'.
Proof.
  intros Hplain. revert root.
  induction Hplain as [|[[eid v] length] rest Hq _ IH]; intros root Hok.
  { by exists root. }
  apply Forall_cons in Hok as [Hv Hok]. simpl in Hq, Hv.
  destruct (justify_format_returns root eid v length Hq (or_intror Hv))
    as [r1 Hr1].
  cbn [Spec.run_steps]. rewrite Hr1. cbn [mbind outcome_bind]. by apply IH.
Qed.

(** When the identifiers of a run are all different, each substitution
    shows in the tree the run leaves. *)
Lemma run_steps_effect (steps : list step) (root root' : element)
      (eid : string) (v : pyval) (length : Z) :
  NoDup (targets steps) → plain_ids steps →
  run_steps root steps = Ok root' →
  (eid, v, length) ∈ steps →
  (∀ p, find root eid = Some p →
        text_at root' p = Some (written repr_str v)) ∧
  (∀ q, find root (eid +:+ "_dots") = Some q →
        text_at root' q
        = Some (dot_leader (Z.max 0 (length - len (written repr_str v))))).
Proof.
  intros Hnodup Hplain. revert root Hnodup.
  induction Hplain as [|[[eid0 v0] len0] rest Hq Hplain IH];
    intros root Hnodup Hrun Hin; [by apply elem_of_nil in Hin|].
  cbn [Spec.run_steps] in Hrun. simpl in Hq.
  destruct (justify_format root eid0 v0 len0) as [r1|] eqn:Hr1; [|done].
  cbn [mbind outcome_bind] in Hrun.
  destruct (justify_format_effect root r1 eid0 v0 len0 Hq Hr1)
    as (Hfind1 & Htext1 & Hdots1 & _).
  unfold targets in Hnodup. simpl in Hnodup.
  apply NoDup_cons in Hnodup as [Hfresh1 Hnodup].
  apply NoDup_cons in Hnodup as [Hfresh2 Hnodup].
  apply elem_of_cons in Hin as [[= -> -> ->]|Hin].
  - destruct (run_steps_frame rest r1 root' Hplain Hrun) as (_ & Hother).
    split.
    + intros p Hp. rewrite <- (Htext1 p Hp). apply text_at_own, Hother.
      intros t Ht. rewrite Hfind1. intros Ht'.
      rewrite (find_same_element root _ _ p Ht' Hp) in Ht.
      apply Hfresh1. rewrite elem_of_cons. auto.
    + intros q Hfound. rewrite <- (Hdots1 q Hfound).
      apply text_at_own, Hother.
      intros t Ht. rewrite Hfind1. intros Ht'.
      by rewrite (find_same_element root _ _ q Ht' Hfound) in Ht.
  - destruct (IH r1 Hnodup Hrun Hin) as [Htext Hdots].
    split; intros p Hp; [apply Htext | apply Hdots]; by rewrite Hfind1.
Qed.

Lemma substitutions_targets (v : vals) (loc0 loc1 loc2 : pyval) :
  NoDup (targets (substitutions v loc0 loc1 loc2)).
Proof. unfold targets. simpl. compute_done. Qed.

Lemma substitutions_plain (v : vals) (loc0 loc1 loc2 : pyval) :
  plain_ids (substitutions v loc0 loc1 loc2).
Proof. unfold plain_ids, substitutions. by repeat constructor. Qed.

(** [svg_overwrite] makes its nine substitutions one after the other,
    fetching each lines-of-code entry just before it writes it. *)
Lemma overwrite_tree_run (root : element) (v : vals) (loc0 loc1 loc2 : pyval) :
  index (loc v) 0 = Ok loc0 → index (loc v) 1 = Ok loc1 →
  index (loc v) 2 = Ok loc2 →
  overwrite_tree repr_str find_spliced root v
  = run_steps root (substitutions v loc0 loc1 loc2).
Proof.
  intros H0 H1 H2. unfold overwrite_tree, substitutions.
  cbn [Spec.run_steps]. rewrite H0, H1, H2.
  repeat match goal with
         | |- context [Render.justify_format repr_str find_spliced ?r ?e ?x ?l] =>
             destruct (Render.justify_format repr_str find_spliced r e x l);
             cbn [mbind outcome_bind]; [|reflexivity]
         end.
  reflexivity.
Qed.

(** A run of [overwrite_tree] that returns found the three
    lines-of-code entries and made the nine substitutions. *)
Lemma overwrite_tree_Ok (root root' : element) (v : vals) :
  overwrite_tree repr_str find_spliced root v = Ok root' →
  ∃ loc0 loc1 loc2,
    index (loc v) 0 = Ok loc0 ∧ index (loc v) 1 = Ok loc1 ∧
    index (loc v) 2 = Ok loc2 ∧
    run_steps root (substitutions v loc0 loc1 loc2) = Ok root'.
Proof.
  intros Hrun.
  destruct (index (loc v) 0) as [loc0|e0] eqn:H0,
    (index (loc v) 1) as [loc1|e1] eqn:H1,
    (index (loc v) 2) as [loc2|e2] eqn:H2;
    try (exists loc0, loc1, loc2; repeat (split; [done|]);
         by rewrite <- (overwrite_tree_run root v loc0 loc1 loc2));
    exfalso; revert Hrun; unfold overwrite_tree; rewrite ?H0, ?H1, ?H2;
    repeat match goal with
           | |- context [Render.justify_format repr_str find_spliced ?r ?e ?x ?l] =>
               destruct (Render.justify_format repr_str find_spliced r e x l);
               cbn [mbind outcome_bind]; [|discriminate]
           end; discriminate.
Qed.
End Renderer.

End RenderFacts.

(** ** Facts about the calendar arithmetic *)

Module DatesFacts.
Import Py Dates Spec.
Local Open Scope Z_scope.

Lemma set_months_again (rd : relativedelta) (a b : Z) :
  set_months (set_months rd a) b = set_months rd b.
Proof. unfold set_months. by destruct (Z.abs a >? 11), (Z.abs b >? 11). Qed.

(** Adding [k] months moves the month count by [k] and lands on a
    month of the calendar. *)
Lemma radd_month_count (rd : relativedelta) (dt : datetime) (k : Z) :
  1 <= month dt <= 12 →
  year (radd (set_months rd k) dt) * 12 + month (radd (set_months rd k) dt)
  = year dt * 12 + month dt + k
  ∧ 1 <= month (radd (set_months rd k) dt) <= 12.
Proof.
  intros Hm. unfold radd, set_months, sign.
  destruct (Z.gtb_spec (Z.abs k) 11) as [Hk|Hk]; simpl.
  - destruct (Z.ltb_spec k 0) as [Hs|Hs]; simpl.
    + destruct (Z.eqb_spec (k * -1 mod 12 * -1) 0) as [H0|H0]; simpl.
      * split; [|lia]. revert H0. Z.div_mod_to_equations. lia.
      * destruct (Z.gtb_spec (month dt + k * -1 mod 12 * -1) 12); simpl;
          [revert H0; Z.div_mod_to_equations; lia|].
        destruct (Z.ltb_spec (month dt + k * -1 mod 12 * -1) 1); simpl;
          revert H0; Z.div_mod_to_equations; lia.
    + destruct (Z.eqb_spec (k * 1 mod 12 * 1) 0) as [H0|H0]; simpl.
      * split; [|lia]. revert H0. Z.div_mod_to_equations. lia.
      * destruct (Z.gtb_spec (month dt + k * 1 mod 12 * 1) 12); simpl;
          [revert H0; Z.div_mod_to_equations; lia|].
        destruct (Z.ltb_spec (month dt + k * 1 mod 12 * 1) 1); simpl;
          revert H0; Z.div_mod_to_equations; lia.
  - destruct (Z.eqb_spec k 0) as [->|H0]; simpl; [lia|].
    destruct (Z.gtb_spec (month dt + k) 12); simpl; [lia|].
    destruct (Z.ltb_spec (month dt + k) 1); simpl; lia.
Qed.

(** Moving a datetime by months keeps its time of day and lands on a
    day of the month reached. *)
Lemma radd_time (rd : relativedelta) (dt : datetime) :
  hour (radd rd dt) = hour dt ∧ minute (radd rd dt) = minute dt ∧
  second (radd rd dt) = second dt ∧
  microsecond (radd rd dt) = microsecond dt ∧
  day (radd rd dt)
  <= monthrange (year (radd rd dt)) (month (radd rd dt)).
Proof.
  unfold radd. destruct (months rd =? 0); [simpl; repeat split; lia|].
  destruct (month dt + months rd >? 12); [simpl; repeat split; lia|].
  destruct (month dt + months rd <? 1); simpl; repeat split; lia.
Qed.

(** A datetime that compares lower is not in a later month. *)
Lemma ltb_month_count (a b : datetime) :
  1 <= month a <= 12 → 1 <= month b <= 12 → ltb a b = true →
  year a * 12 + month a <= year b * 12 + month b.
Proof.
  intros Ha Hb. unfold ltb, fields. simpl.
  rewrite !orb_true_iff, !andb_true_iff, !Z.ltb_lt, !Z.eqb_eq. lia.
Qed.

Lemma ltb_irrefl (a : datetime) : ltb a a = false.
Proof.
  unfold ltb, fields. simpl.
  by rewrite !Z.ltb_irrefl, !Z.eqb_refl, !andb_false_r.
Qed.

(** The adjusting loop stops after one step at most, whichever way it
    steps. *)
Lemma adjust_stops (fuel : nat) (dt1 dt2 : datetime) (rd : relativedelta)
      (back : bool) :
  (1 <= fuel)%nat → 1 <= month dt1 <= 12 → 1 <= month dt2 <= 12 →
  let m0 := (year dt1 - year dt2) * 12 + (month dt1 - month dt2) in
  ∃ k, adjust fuel (if back then ltb else gtb) (if back then -1 else 1)
              dt1 dt2 (set_months rd m0) m0 = Some k.
Proof.
  intros Hfuel H1 H2 m0. destruct fuel as [|fuel]; [lia|].
  cbn [adjust].
  destruct ((if back then ltb else gtb) dt1 (radd (set_months rd m0) dt2));
    [|by eexists].
  rewrite set_months_again.
  set (m1 := m0 + (if back then -1 else 1)).
  destruct (radd_month_count rd dt2 m1 H2) as [Hcount Hrange].
  assert ((if back then ltb else gtb) dt1 (radd (set_months rd m1) dt2)
          = false) as Hstop.
  { apply not_true_is_false. intros Hcmp. destruct back.
    - apply ltb_month_count in Hcmp; [|done..]. subst m0 m1. lia.
    - apply ltb_month_count in Hcmp; [|done..]. subst m0 m1. lia. }
  destruct fuel as [|fuel]; cbn [adjust]; rewrite Hstop; by eexists.
Qed.

(** [relativedelta(dt1, dt2)] returns for any two datetimes of the
    calendar. *)
Lemma between_total (fuel : nat) (dt1 dt2 : datetime) :
  (1 <= fuel)%nat → 1 <= month dt1 <= 12 → 1 <= month dt2 <= 12 →
  ∃ rd, between fuel dt1 dt2 = Some rd.
Proof.
  intros Hfuel H1 H2. unfold between.
  destruct (ltb dt1 dt2).
  - destruct (adjust_stops fuel dt1 dt2 (Relativedelta 0 0 0 0 0 0 0) false
                Hfuel H1 H2) as [k Hk].
    simpl in Hk. rewrite Hk. by eexists.
  - destruct (adjust_stops fuel dt1 dt2 (Relativedelta 0 0 0 0 0 0 0) true
                Hfuel H1 H2) as [k Hk].
    simpl in Hk. rewrite Hk. by eexists.
Qed.

(** A datetime in an earlier month compares lower. *)
Lemma month_count_ltb (a b : datetime) :
  year a * 12 + month a < year b * 12 + month b →
  1 <= month a <= 12 → 1 <= month b <= 12 → ltb a b = true.
Proof.
  intros Hlt Ha Hb. unfold ltb, fields. simpl.
  destruct (Z.ltb_spec (year a) (year b)) as [|Hy]; [done|]. simpl.
  destruct (Z.eqb_spec (year a) (year b)) as [Hy'|]; [|lia]. simpl.
  destruct (Z.ltb_spec (month a) (month b)); [done | lia].
Qed.

(** Moving a datetime of the calendar by no month at all leaves it
    where it is. *)
Lemma radd_nothing (dt : datetime) :
  valid dt → radd (Relativedelta 0 0 0 0 0 0 0) dt = dt.
Proof.
  intros (_ & _ & Hday & _). destruct dt as [y m d h mi s us].
  unfold radd. simpl in *. rewrite Z.add_0_r. f_equal; lia.
Qed.

(** A month count that is not negative splits into years and months. *)
Lemma set_months_nonneg (rd : relativedelta) (k : Z) :
  0 <= k →
  set_months rd k
  = Relativedelta (k / 12) (k mod 12) (days rd) (hours rd) (minutes rd)
                  (seconds rd) (microseconds rd).
Proof.
  intros Hk. unfold set_months, sign.
  destruct (Z.gtb_spec (Z.abs k) 11) as [Hbig|Hsmall].
  - destruct (Z.ltb_spec k 0); [lia|]. by rewrite !Z.mul_1_r.
  - f_equal; Z.div_mod_to_equations; lia.
Qed.

(** The carries between the units leave years and months alone when
    the months are fewer than twelve. *)
Lemma fix_units_months (y m d h mi s us : Z) :
  Z.abs m <= 11 →
  years (fix_units (Relativedelta y m d h mi s us)) = y ∧
  months (fix_units (Relativedelta y m d h mi s us)) = m.
Proof.
  intros Hm. unfold fix_units.
  cbn [years months days hours minutes seconds microseconds].
  repeat match goal with
         | |- context [if ?c then _ else _] => destruct c eqn:?
         end; simpl; try done.
  all: exfalso.
  all: match goal with
       | E : (Z.abs _ >? 11) = true |- _ => apply Z.gtb_lt in E; lia
       end.
Qed.

(** They turn seconds that are not negative into whole days and a
    rest. *)
Lemma fix_units_days (y m secs us : Z) :
  0 <= secs → 0 <= us < 1000000 →
  days (fix_units (Relativedelta y m 0 0 0 secs us)) = secs / 86400.
Proof.
  intros Hsecs Hus. unfold fix_units, sign.
  cbn [years months days hours minutes seconds microseconds].
  destruct (Z.gtb_spec (Z.abs us) 999999) as [Hbig|_]; [lia|].
  destruct (Z.ltb_spec secs 0) as [Hneg|_]; [lia|].
  destruct (Z.gtb_spec (Z.abs secs) 59) as [Hs|Hs].
  - rewrite !Z.mul_1_r, Z.add_0_l.
    destruct (Z.ltb_spec (secs / 60) 0) as [Hneg|_];
      [revert Hneg; Z.div_mod_to_equations; lia|].
    destruct (Z.gtb_spec (Z.abs (secs / 60)) 59) as [Hm|Hm].
    + rewrite !Z.mul_1_r, Z.add_0_l.
      destruct (Z.ltb_spec (secs / 60 / 60) 0) as [Hneg|_];
        [revert Hneg; Z.div_mod_to_equations; lia|].
      destruct (Z.gtb_spec (Z.abs (secs / 60 / 60)) 23) as [Hh|Hh].
      * rewrite !Z.mul_1_r, Z.add_0_l.
        destruct (Z.abs m >? 11); simpl; Z.div_mod_to_equations; lia.
      * destruct (Z.abs m >? 11); simpl;
          revert Hh; Z.div_mod_to_equations; lia.
    + destruct (Z.gtb_spec (Z.abs 0) 23) as [Hh|_]; [lia|].
      destruct (Z.abs m >? 11); simpl;
        revert Hm; Z.div_mod_to_equations; lia.
  - destruct (Z.gtb_spec (Z.abs 0) 59) as [Hm|_]; [lia|].
    destruct (Z.gtb_spec (Z.abs 0) 23) as [Hh|_]; [lia|].
    destruct (Z.abs m >? 11); simpl; revert Hs; Z.div_mod_to_equations; lia.
Qed.

(** Stepping back, the loop stops at the last month count whose date is
    not after the target. *)
Lemma adjust_back (fuel : nat) (dt1 dt2 : datetime) (rd : relativedelta) :
  (1 <= fuel)%nat → 1 <= month dt1 <= 12 → 1 <= month dt2 <= 12 →
  let m0 := (year dt1 - year dt2) * 12 + (month dt1 - month dt2) in
  ∃ k, adjust fuel ltb (-1) dt1 dt2 (set_months rd m0) m0 = Some k ∧
       (k = m0 ∨ k = m0 - 1) ∧
       ltb dt1 (radd (set_months rd k) dt2) = false ∧
       ltb dt1 (radd (set_months rd (k + 1)) dt2) = true.
Proof.
  intros Hfuel H1 H2 m0. destruct fuel as [|fuel]; [lia|].
  cbn [adjust].
  destruct (ltb dt1 (radd (set_months rd m0) dt2)) eqn:Hfirst.
  - rewrite set_months_again.
    destruct (radd_month_count rd dt2 (m0 + -1) H2) as [Hcount Hrange].
    assert (ltb dt1 (radd (set_months rd (m0 + -1)) dt2) = false) as Hstop.
    { apply not_true_is_false. intros Hcmp.
      apply ltb_month_count in Hcmp; [|done..]. subst m0. lia. }
    exists (m0 + -1). split; [|split; [lia|split; [done|]]].
    + destruct fuel as [|fuel]; cbn [adjust]; by rewrite Hstop.
    + by replace (m0 + -1 + 1) with m0 by lia.
  - exists m0. split; [done|]. split; [by left|]. split; [done|].
    destruct (radd_month_count rd dt2 (m0 + 1) H2) as [Hcount Hrange].
    apply month_count_ltb; [subst m0; lia | done..].
Qed.

Lemma days_before_year_next (y : Z) :
  days_before_year (y + 1)
  = days_before_year y + 365 + (if isleap y then 1 else 0).
Proof.
  unfold days_before_year, isleap. replace (y + 1 - 1) with y by lia.
  destruct (Z.eqb_spec (y mod 4) 0), (Z.eqb_spec (y mod 100) 0),
    (Z.eqb_spec (y mod 400) 0); simpl; Z.div_mod_to_equations; lia.
Qed.

Lemma days_before_year_mono (y1 y2 : Z) :
  y1 <= y2 → days_before_year y1 <= days_before_year y2.
Proof. intros Hy. unfold days_before_year. Z.div_mod_to_equations. lia. Qed.

(** The days before each month of a year, month by month. *)
Lemma days_before_month_table (y m : Z) :
  1 <= m <= 12 →
  days_before_month y m
  = let leap := if isleap y then 1 else 0 in
    if m =? 1 then 0 else if m =? 2 then 31 else if m =? 3 then 59 + leap
    else if m =? 4 then 90 + leap else if m =? 5 then 120 + leap
    else if m =? 6 then 151 + leap else if m =? 7 then 181 + leap
    else if m =? 8 then 212 + leap else if m =? 9 then 243 + leap
    else if m =? 10 then 273 + leap else if m =? 11 then 304 + leap
    else 334 + leap.
Proof.
  intros Hm.
  assert (m = 1 ∨ m = 2 ∨ m = 3 ∨ m = 4 ∨ m = 5 ∨ m = 6 ∨ m = 7 ∨ m = 8
          ∨ m = 9 ∨ m = 10 ∨ m = 11 ∨ m = 12) as Hcases by lia.
  unfold days_before_month.
  destruct Hcases as [->|[->|[->|[->|[->|[->|[->|[->|[->|[->|[->| ->]]]]]]]]]]];
    simpl; unfold monthrange; simpl; destruct (isleap y); reflexivity.
Qed.

(** A date of the calendar falls within its year. *)
Lemma day_of_year_bound (y m d : Z) :
  1 <= m <= 12 → d <= monthrange y m →
  days_before_month y m + d <= 365 + (if isleap y then 1 else 0).
Proof.
  intros Hm Hd. rewrite days_before_month_table by done.
  unfold monthrange in Hd. cbv zeta.
  assert (m = 1 ∨ m = 2 ∨ m = 3 ∨ m = 4 ∨ m = 5 ∨ m = 6 ∨ m = 7 ∨ m = 8
          ∨ m = 9 ∨ m = 10 ∨ m = 11 ∨ m = 12) as Hcases by lia.
  destruct Hcases as [->|[->|[->|[->|[->|[->|[->|[->|[->|[->|[->| ->]]]]]]]]]]];
    simpl in *; destruct (isleap y); lia.
Qed.

(** A date of the calendar falls before the dates of the later months
    of its year. *)
Lemma day_of_month_bound (y m m' d : Z) :
  1 <= m → m < m' → m' <= 12 → d <= monthrange y m →
  days_before_month y m + d <= days_before_month y m'.
Proof.
  intros Hm Hlt Hm' Hd. rewrite !days_before_month_table by lia.
  unfold monthrange in Hd. cbv zeta.
  assert (m = 1 ∨ m = 2 ∨ m = 3 ∨ m = 4 ∨ m = 5 ∨ m = 6 ∨ m = 7 ∨ m = 8
          ∨ m = 9 ∨ m = 10 ∨ m = 11) as Hcases by lia.
  assert (m' = 2 ∨ m' = 3 ∨ m' = 4 ∨ m' = 5 ∨ m' = 6 ∨ m' = 7 ∨ m' = 8
          ∨ m' = 9 ∨ m' = 10 ∨ m' = 11 ∨ m' = 12) as Hcases' by lia.
  destruct Hcases as [->|[->|[->|[->|[->|[->|[->|[->|[->|[->| ->]]]]]]]]]];
    simpl in Hd;
    destruct Hcases' as [->|[->|[->|[->|[->|[->|[->|[->|[->|[->| ->]]]]]]]]]];
    try lia; simpl; destruct (isleap y); lia.
Qed.

Lemma days_before_month_nonneg (y m : Z) :
  1 <= m <= 12 → 0 <= days_before_month y m.
Proof.
  intros Hm. rewrite days_before_month_table by done. cbv zeta.
  destruct (isleap y);
    repeat match goal with
           | |- context [if (?x =? ?y) then _ else _] =>
               destruct (Z.eqb_spec x y)
           end; lia.
Qed.

(** What it takes for a datetime not to compare lower than another. *)
Lemma ltb_false (a b : datetime) :
  ltb a b = false →
  year b < year a ∨ year a = year b ∧
  (month b < month a ∨ month a = month b ∧
   (day b < day a ∨ day a = day b ∧
    (hour b < hour a ∨ hour a = hour b ∧
     (minute b < minute a ∨ minute a = minute b ∧
      (second b < second a ∨ second a = second b ∧
       microsecond b <= microsecond a))))).
Proof.
  unfold ltb, fields. simpl.
  repeat match goal with
         | |- context [(?x <? ?y) || _] =>
             destruct (Z.ltb_spec x y); simpl; [discriminate|];
             destruct (Z.eqb_spec x y); simpl; [|intros _; lia]
         end.
  intros _. lia.
Qed.

(** Among datetimes of the calendar the one that does not compare lower
    is not earlier. *)
Lemma elapsed_nonneg (a b : datetime) :
  1 <= month a <= 12 → 1 <= day a →
  0 <= hour a → 0 <= minute a → 0 <= second a →
  1 <= month b <= 12 → day b <= monthrange (year b) (month b) →
  hour b < 24 → minute b < 60 → second b < 60 → microsecond b < 1000000 →
  0 <= microsecond a →
  ltb a b = false → 0 <= elapsed a b.
Proof.
  intros Hma Hda Hha Hmia Hsa Hmb Hdb Hhb Hmib Hsb Husb Husa Hge.
  apply ltb_false in Hge. unfold elapsed, toordinal.
  pose proof (days_before_month_nonneg (year a) (month a) Hma) as Hdma.
  pose proof (day_of_year_bound (year b) (month b) (day b) Hmb Hdb) as Hyear.
  destruct Hge as [Hy|[Hy Hge]].
  { pose proof (days_before_year_mono (year b + 1) (year a) ltac:(lia))
      as Hmono.
    rewrite days_before_year_next in Hmono. lia. }
  rewrite Hy in *. destruct Hge as [Hm|[Hm Hge]].
  { pose proof (day_of_month_bound (year b) (month b) (month a) (day b)
                  ltac:(lia) Hm ltac:(lia) Hdb). lia. }
  rewrite Hm in *. lia.
Qed.

(** From a birth date that is not after the clock's reading, the years
    and months of the difference count the whole months gone by ([k]
    months on the birth date is not after the reading, one month more
    is) and its days the whole days gone by since. *)
Lemma between_whole_months (fuel : nat) (dt1 dt2 : datetime) :
  (1 <= fuel)%nat → valid dt1 → valid dt2 → ltb dt1 dt2 = false →
  ∃ diff k,
    between fuel dt1 dt2 = Some diff ∧
    0 <= k ∧ years diff = k / 12 ∧ months diff = k mod 12 ∧
    ltb dt1 (months_on k dt2) = false ∧
    ltb dt1 (months_on (k + 1) dt2) = true ∧
    0 <= elapsed dt1 (months_on k dt2) ∧
    days diff = elapsed dt1 (months_on k dt2) / 86400000000.
Proof.
  intros Hfuel Hv1 Hv2 Hge.
  assert (1 <= month dt1 <= 12) as H1 by apply Hv1.
  assert (1 <= month dt2 <= 12) as H2 by apply Hv2.
  destruct (adjust_back fuel dt1 dt2 (Relativedelta 0 0 0 0 0 0 0)
              Hfuel H1 H2) as (k & Hk & Hwhich & Hnot & Hnext).
  cbv zeta in Hk, Hwhich.
  set (m0 := (year dt1 - year dt2) * 12 + (month dt1 - month dt2)) in *.
  assert (0 <= m0) as Hm0.
  { destruct (Z.le_gt_cases 0 m0) as [|Hneg]; [done|].
    rewrite month_count_ltb in Hge; [done | subst m0; lia | done..]. }
  assert (0 <= k) as Hk0.
  { destruct Hwhich as [-> | ->]; [done|].
    destruct (Z.eq_dec m0 0) as [Hz|]; [|lia].
    rewrite Hz in Hnext. simpl in Hnext.
    change (set_months _ 0) with (Relativedelta 0 0 0 0 0 0 0) in Hnext.
    rewrite radd_nothing in Hnext by done. congruence. }
  destruct (radd_month_count (Relativedelta 0 0 0 0 0 0 0) dt2 k H2)
    as [_ Hmonth].
  rewrite set_months_nonneg in Hnot, Hmonth by done.
  rewrite set_months_nonneg in Hnext by lia.
  cbn [days hours minutes seconds microseconds] in Hnot, Hnext, Hmonth.
  fold (months_on k dt2) in Hnot, Hmonth. fold (months_on (k + 1) dt2) in Hnext.
  assert (0 <= elapsed dt1 (months_on k dt2)) as Helapsed.
  { destruct Hv1 as (_ & _ & Hd1 & Hh1 & Hmi1 & Hs1 & Hus1).
    destruct Hv2 as (_ & _ & _ & Hh2 & Hmi2 & Hs2 & Hus2).
    destruct (radd_time (Relativedelta (k / 12) (k mod 12) 0 0 0 0 0) dt2)
      as (Hh & Hmi & Hs & Hus & Hday).
    fold (months_on k dt2) in Hh, Hmi, Hs, Hus, Hday.
    apply elapsed_nonneg; try done; lia. }
  unfold between. rewrite Hge.
  fold m0. rewrite Hk. unfold mbind, option_bind.
  rewrite set_months_nonneg by done.
  cbn [years months days hours minutes seconds microseconds].
  fold (months_on k dt2).
  eexists _, k. split; [reflexivity|]. split; [done|].
  split; [|split; [|split; [done|split; [done|split; [done|]]]]].
  - apply fix_units_months. pose proof (Z.mod_pos_bound k 12). lia.
  - apply fix_units_months. pose proof (Z.mod_pos_bound k 12). lia.
  - unfold sub. cbn [td_seconds td_days td_microseconds].
    set (e := elapsed dt1 (months_on k dt2)) in *.
    rewrite fix_units_days.
    + Z.div_mod_to_equations. lia.
    + Z.div_mod_to_equations. lia.
    + apply Z.mod_pos_bound. lia.
Qed.

(** Twelve months to the year. *)
Lemma set_months_years (rd : relativedelta) (n : Z) :
  set_months rd (n * 12)
  = Relativedelta n 0 (days rd) (hours rd) (minutes rd) (seconds rd)
                  (microseconds rd).
Proof.
  unfold set_months, sign.
  destruct (Z.gtb_spec (Z.abs (n * 12)) 11) as [Hk|Hk].
  - destruct (Z.ltb_spec (n * 12) 0); f_equal; Z.div_mod_to_equations; lia.
  - f_equal; lia.
Qed.

(** A whole number of years apart: the difference is those years and
    nothing else, whatever the fuel. *)
Lemma between_years (fuel : nat) (bday : datetime) (n : Z) :
  let now := Datetime (year bday + n) (month bday) (day bday) (hour bday)
               (minute bday) (second bday) (microsecond bday) in
  valid now →
  between fuel now bday = Some (Relativedelta n 0 0 0 0 0 0).
Proof.
  intros now (_ & _ & Hday & _).
  assert (radd (Relativedelta n 0 0 0 0 0 0) bday = now) as Hradd.
  { unfold radd, now. simpl. f_equal. simpl in Hday. lia. }
  unfold between.
  replace ((year now - year bday) * 12 + (month now - month bday))
    with (n * 12) by (simpl; lia).
  rewrite set_months_years. cbn [days hours minutes seconds microseconds].
  assert (∀ cmp inc, (cmp = ltb ∨ cmp = gtb) →
            adjust fuel cmp inc now bday (Relativedelta n 0 0 0 0 0 0)
                   (n * 12)
            = Some (n * 12)) as Hadj.
  { intros cmp inc Hcmp. destruct fuel; cbn [adjust]; rewrite Hradd;
      by destruct Hcmp as [-> | ->]; unfold gtb; rewrite ltb_irrefl. }
  destruct (ltb now bday); rewrite Hadj by auto;
    unfold mbind, option_bind;
    rewrite set_months_years;
    cbn [years months days hours minutes seconds microseconds];
    rewrite Hradd; unfold sub, elapsed; rewrite !Z.sub_diag; reflexivity.
Qed.

End DatesFacts.

(** ** Facts about the GraphQL helpers *)

Module FetchFacts.
Import Py Etree Render Dates Fetch Spec.

Lemma append_assoc (a b c : string) : (a +:+ b) +:+ c = a +:+ b +:+ c.
Proof.
  induction a as [|x a IH]; [done|].
  change (String x ((a +:+ b) +:+ c) = String x (a +:+ b +:+ c)).
  by f_equal.
Qed.

Lemma contains_here (a b c : string) : contains (a +:+ b +:+ c) b.
Proof. by exists a, c. Qed.

(** Each part of the failure message occurs in it. *)
Lemma failure_message_parts (fname : string) (r : response) :
  contains (failure_message fname r) fname ∧
  contains (failure_message fname r) (str_int (status_code r)) ∧
  contains (failure_message fname r) (text r).
Proof.
  unfold failure_message. split; [|split].
  - by exists "", (" failed → " +:+ str_int (status_code r) +:+ ": " +:+ text r).
  - exists (fname +:+ " failed → "), (": " +:+ text r).
    by rewrite append_assoc.
  - exists (fname +:+ " failed → " +:+ str_int (status_code r) +:+ ": "), "".
    rewrite !append_assoc. do 4 f_equal.
    by rewrite RenderFacts.append_empty_r.
Qed.

Lemma bind_inv {A B} (m : M A) (k : A → M B) (w w' : world) (b : B) :
  (m ≫= k) w = (Ok b, w') →
  ∃ a w1, m w = (Ok a, w1) ∧ k a w1 = (Ok b, w').
Proof.
  unfold mbind, M_bind. destruct (m w) as [[a|e] w1]; [|done].
  intros Hk. by exists a, w1.
Qed.

Lemma lift_inv {A} (o : outcome A) (w w' : world) (a : A) :
  lift o w = (Ok a, w') → o = Ok a ∧ w' = w.
Proof. unfold lift. by intros [= -> ->]. Qed.

(** The star counts of a page add up. *)
Lemma sum_stars_counts (acc : Z) (edges : list pyval) (counts : list Z) :
  Forall2 (λ e c, star_count e = Ok (VInt c)) edges counts →
  sum_stars acc edges = Ok (acc + total counts)%Z.
Proof.
  intros Hedges. revert acc.
  induction Hedges as [|e c edges counts He _ IH]; intros acc; simpl.
  - f_equal. lia.
  - rewrite He. simpl. rewrite IH. f_equal. lia.
Qed.

Lemma star_count_edges (counts : list Z) :
  Forall2 (λ e c, star_count e = Ok (VInt c)) (edge <$> counts) counts.
Proof. induction counts as [|c counts IH]; by constructor. Qed.

Section Script.
Variable post : list request → request → response.
Variable ACCESS_TOKEN : string.
Variable env_USER_NAME : option string.
Variable repr_str : string → string.
Variable find_spliced : element → string → outcome (option path).
Variable int_of_str : string → option Z.

Local Abbreviation USER_NAME := (Fetch.USER_NAME env_USER_NAME).
Local Abbreviation graphql_request := (Fetch.graphql_request ACCESS_TOKEN).
Local Abbreviation simple_request := (Fetch.simple_request post ACCESS_TOKEN).
Local Abbreviation user_getter := (Fetch.user_getter post ACCESS_TOKEN).
Local Abbreviation follower_getter :=
  (Fetch.follower_getter post ACCESS_TOKEN int_of_str).
Local Abbreviation graph_repos_stars :=
  (Fetch.graph_repos_stars post ACCESS_TOKEN env_USER_NAME).
Local Abbreviation gather :=
  (Fetch.gather post ACCESS_TOKEN env_USER_NAME int_of_str).
Local Abbreviation main :=
  (Fetch.main post ACCESS_TOKEN env_USER_NAME repr_str find_spliced
              int_of_str).

(** A helper made of a count, one request and a pure extraction raises
    the failure message when the response is not a success, after that
    one request. *)
Lemma call_fails {A} (fname q : string) (v : pyval) (k : response → outcome A)
      (w : world) (n : Z) :
  QUERY_COUNT w !! fname = Some n →
  status_code (post (posted w) (graphql_request q v)) ≠ 200%Z →
  (query_count fname;; r ← simple_request fname q v; lift (k r)) w
  = (Raise (RuntimeError
              (failure_message fname (post (posted w) (graphql_request q v)))),
     after_call w fname n (graphql_request q v)).
Proof.
  intros Hn Hstatus. unfold mbind, M_bind, query_count. rewrite Hn.
  unfold Fetch.simple_request. simpl.
  by destruct (Z.eqb_spec (status_code (post (posted w) (graphql_request q v)))
                          200).
Qed.

(** The same helper on a successful response. *)
Lemma call_succeeds {A} (fname q : string) (v : pyval)
      (k : response → outcome A) (w : world) (n : Z) :
  QUERY_COUNT w !! fname = Some n →
  status_code (post (posted w) (graphql_request q v)) = 200%Z →
  (query_count fname;; r ← simple_request fname q v; lift (k r)) w
  = (k (post (posted w) (graphql_request q v)),
     after_call w fname n (graphql_request q v)).
Proof.
  intros Hn Hstatus. unfold mbind, M_bind, query_count. rewrite Hn.
  unfold Fetch.simple_request. simpl. rewrite Hstatus. simpl.
  unfold lift. by destruct (k _).
Qed.

(** A helper that returns has posted exactly one request and touched
    no file. *)
Lemma call_returns {A} (fname q : string) (v : pyval)
      (k : response → outcome A) (w w' : world) (a : A) :
  (query_count fname;; r ← simple_request fname q v; lift (k r)) w
  = (Ok a, w') →
  k (post (posted w) (graphql_request q v)) = Ok a ∧
  posted w' = (posted w ++ [graphql_request q v])%list ∧ files w' = files w.
Proof.
  unfold mbind, M_bind, query_count.
  destruct (QUERY_COUNT w !! fname) as [n|]; [|done].
  unfold Fetch.simple_request. simpl.
  destruct (status_code _ =? 200)%Z; [|done].
  unfold lift. destruct (k _) as [a'|]; [|done].
  by intros [= -> <-].
Qed.

(** What [graph_repos_stars] returns: after one request to the API it
    has posted that request and nothing else. *)
Lemma graph_repos_stars_returns (kind : string) (aff : list string)
      (cursor x : pyval) (w w' : world) :
  graph_repos_stars kind aff cursor w = (Ok x, w') →
  posted w'
  = (posted w
     ++ [graphql_request repos_query
           (repos_variables USER_NAME aff cursor)])%list
  ∧ files w' = files w.
Proof.
  unfold Fetch.graph_repos_stars. intros Hcall.
  by apply call_returns in Hcall as (_ & ? & ?).
Qed.

Lemma follower_getter_returns (username : string) (x : Z) (w w' : world) :
  follower_getter username w = (Ok x, w') →
  posted w'
  = (posted w
     ++ [graphql_request follower_query (login_variables username)])%list
  ∧ files w' = files w.
Proof.
  unfold Fetch.follower_getter. intros Hcall.
  by apply call_returns in Hcall as (_ & ? & ?).
Qed.

Lemma user_getter_returns (username : string) (x : pyval * pyval)
      (w w' : world) :
  user_getter username w = (Ok x, w') →
  posted w'
  = (posted w
     ++ [graphql_request user_query (login_variables username)])%list
  ∧ files w' = files w.
Proof.
  unfold Fetch.user_getter. intros Hcall.
  by apply call_returns in Hcall as (_ & ? & ?).
Qed.

(** A run of [gather] that returns is four calls that returned, one
    after the other. *)
Lemma gather_returns (age : string) (v : vals) (w w' : world) :
  gather age w = (Ok v, w') →
  ∃ star repo count follower w1 w2 w3,
    graph_repos_stars "stars" ["OWNER"] VNone w = (Ok star, w1) ∧
    graph_repos_stars "repos" ["OWNER"] VNone w1 = (Ok repo, w2) ∧
    graph_repos_stars "repos"
      ["OWNER"; "COLLABORATOR"; "ORGANIZATION_MEMBER"] VNone w2
    = (Ok count, w3) ∧
    follower_getter USER_NAME w3 = (Ok follower, w') ∧
    v = Vals (VStr age) (VInt 0) star repo (VTuple [count; VInt 0])
             (VInt follower) (VList [VStr "0"; VStr "0"; VStr "0"]).
Proof.
  unfold Fetch.gather. intros Hrun.
  apply bind_inv in Hrun as (star & w1 & Hstar & Hrun).
  apply bind_inv in Hrun as (repo & w2 & Hrepo & Hrun).
  apply bind_inv in Hrun as (count & w3 & Hcount & Hrun).
  apply bind_inv in Hrun as (follower & w4 & Hfollower & Hrun).
  injection Hrun as <- <-.
  by exists star, repo, count, follower, w1, w2, w3.
Qed.

(** A file that [svg_overwrite] rewrote held a tree, and holds the tree
    the nine substitutions leave. *)
Lemma overwrite_file_returns (v : vals) (fname : string) (w w' : world) :
  overwrite_file repr_str find_spliced v fname w = (Ok (), w') →
  ∃ root root',
    files w !! fname = Some root ∧
    overwrite_tree repr_str find_spliced root v = Ok root' ∧
    w' = World (QUERY_COUNT w) (posted w)
               (<[fname:=reparsed root']> (files w)).
Proof.
  unfold overwrite_file, svg_overwrite.
  destruct (files w !! fname) as [root|] eqn:Hroot; [|done]. simpl.
  destruct (overwrite_tree repr_str find_spliced root v) as [root'|] eqn:Htree;
    [|done].
  simpl. intros [= <-]. by exists root, root'.
Qed.

(** The loop over the template files rewrites each of them from what
    it held at the start, posts nothing and leaves the other files
    alone. *)
Lemma overwrite_all_returns (v : vals) (names : list string) (w w' : world) :
  NoDup names →
  overwrite_all repr_str find_spliced v names w = (Ok (), w') →
  posted w' = posted w ∧
  (∀ fname, fname ∉ names → files w' !! fname = files w !! fname) ∧
  (∀ fname, fname ∈ names →
     ∃ root root',
       files w !! fname = Some root ∧
       overwrite_tree repr_str find_spliced root v = Ok root' ∧
       files w' !! fname = Some (reparsed root')).
Proof.
  intros Hnodup. revert w.
  induction Hnodup as [|name rest Hfresh _ IH]; intros w Hrun.
  { injection Hrun as <-. split; [done|]. split; [done|].
    intros fname Hin. by apply elem_of_nil in Hin. }
  cbn [overwrite_all] in Hrun.
  apply bind_inv in Hrun as ([] & w1 & Hfile & Hrest).
  apply overwrite_file_returns in Hfile as (root & root' & Hroot & Htree & ->).
  destruct (IH _ Hrest) as (Hposted & Hout & Hin).
  simpl in Hposted, Hout, Hin. split; [done|]. split.
  - intros fname Hfname. apply not_elem_of_cons in Hfname as [Hne Hfname].
    by rewrite (Hout fname Hfname), lookup_insert_ne.
  - intros fname Hfname. apply elem_of_cons in Hfname as [->|Hfname].
    + exists root, root'. split; [done|]. split; [done|].
      by rewrite (Hout name Hfresh), lookup_insert_eq.
    + destruct (Hin fname Hfname) as (r & r' & Hr & Hr' & Hfinal).
      exists r, r'. split; [|done].
      rewrite lookup_insert_ne in Hr; [done|]. by intros ->.
Qed.

(** A run of the main block that returns is a user query that returned,
    an age string, four statistics that returned and the two template
    files rewritten. *)
Lemma main_returns (fuel : nat) (utcnow : datetime) (w w' : world) :
  main fuel utcnow w = Some (Ok (), w') →
  ∃ user w1 age v w2,
    user_getter USER_NAME w = (Ok user, w1) ∧
    uptime_string fuel utcnow BIRTHDAY = Some age ∧
    gather age w1 = (Ok v, w2) ∧
    overwrite_all repr_str find_spliced v SVG_FILES w2 = (Ok (), w').
Proof.
  unfold Fetch.main.
  destruct (user_getter USER_NAME w) as [[user|e] w1] eqn:Huser; [|done].
  destruct (uptime_string fuel utcnow BIRTHDAY) as [age|]; [|done]. simpl.
  intros [= Hrun]. apply bind_inv in Hrun as (v & w2 & Hgather & Hfiles).
  by exists user, w1, age, v, w2.
Qed.

End Script.

End FetchFacts.

(** ** Further facts about the SVG helper *)

Module MoreRenderFacts.
Import Py Etree Render Spec Props EtreeFacts PyFacts XmlFacts RenderFacts.

Lemma skeleton_children (e : element) :
  children (skeleton e) = skeleton <$> children e.
Proof. by destruct e. Qed.

(** An update whose function keeps the skeleton keeps the skeleton of
    the tree. *)
Lemma skeleton_update (f : element → element) (e : element) (p : path) :
  (∀ el, skeleton (f el) = skeleton el) →
  skeleton (update_at f e p) = skeleton e.
Proof.
  intros Hf. revert e. induction p as [|i p IH]; intros e; [apply Hf|].
  destruct e as [t a x tl cs]. simpl. f_equal.
  revert i. induction cs as [|c cs IHcs]; intros i; [done|].
  destruct i as [|i].
  - simpl. by rewrite IH.
  - change (alter ?g (S i) (c :: cs)) with (c :: alter g i cs).
    simpl. f_equal. apply IHcs.
Qed.

Lemma skeleton_retouch (s : string) (px : option string) (el : element) :
  skeleton (retouch s px el) = skeleton el.
Proof.
  destruct el as [t a x tl cs], px as [[|c r]|]; simpl; try done.
  by rewrite delete_insert_eq.
Qed.

Lemma retouch_twice (s : string) (px : option string) (el : element) :
  retouch s px (retouch s px el) = retouch s px el.
Proof.
  destruct el as [t a x tl cs], px as [[|c r]|]; simpl; try done.
  by rewrite insert_insert_eq.
Qed.

Lemma before_refl (p : path) : before p p = true.
Proof.
  induction p as [|i p IH]; [done|]. simpl.
  by rewrite Nat.eqb_refl, IH, orb_true_r.
Qed.

(** What [first_descendant] returns comes first, in document order,
    among the proper descendants that satisfy the predicate. *)
Lemma first_descendant_first (wanted : element → bool) (e : element)
      (p q : path) (el : element) :
  first_descendant wanted e = Some p →
  q ≠ [] → get_at e q = Some el → wanted el = true →
  before p q = true.
Proof.
  revert p q el. induction e as [t a x tl cs IH] using element_rect_children.
  intros p q el Hp Hq Hel Hw.
  rewrite first_descendant_unfold in Hp. simpl in Hp.
  apply first_in_Some in Hp as (i & c & p' & -> & Hi & Hhere & Hearlier).
  destruct q as [|j q']; [done|]. simpl in Hel.
  destruct (cs !! j) as [cj|] eqn:Hj; [|done]. simpl.
  destruct (Nat.ltb_spec i j) as [Hlt|Hge]; [done|]. simpl.
  destruct (Nat.eqb_spec i j) as [<-|Hne]; simpl.
  - rewrite Hi in Hj. injection Hj as <-.
    destruct Hhere as [[-> _]|[Hnot Hbelow]]; [done|].
    destruct q' as [|k q'']; [simpl in Hel; congruence|].
    rewrite Forall_lookup in IH. by apply (IH i c Hi p' (k :: q'') el).
  - exfalso. destruct (Hearlier j cj ltac:(lia) Hj) as [Hnot Hnone].
    destruct q' as [|k q'']; [simpl in Hel; congruence|].
    pose proof (proj1 (first_descendant_None wanted cj) Hnone (k :: q'') el
                  ltac:(done) Hel).
    congruence.
Qed.

Lemma update_at_ext (f g : element → element) (e : element) (p : path) :
  (∀ el, f el = g el) → update_at f e p = update_at g e p.
Proof.
  intros Hfg. revert e. induction p as [|i p IH]; intros e; [apply Hfg|].
  destruct e as [t a x tl cs]. simpl. f_equal.
  apply list_alter_ext; [|done]. intros c _. apply IH.
Qed.

Lemma len_append (a b : string) : len (a +:+ b) = (len a + len b)%Z.
Proof.
  induction a as [|c a IH]; [done|].
  change (len (String c (a +:+ b)) = (len (String c a) + len b)%Z).
  simpl. rewrite IH. lia.
Qed.

Lemma len_str_mul_dot (n : Z) : (0 <= n)%Z → len (str_mul "." n) = n.
Proof.
  intros Hn. unfold str_mul. rewrite <- (Z2Nat.id n) at 2 by done.
  induction (Z.to_nat n) as [|k IH]; [done|].
  cbn [str_mul_nat]. rewrite len_append, IH. simpl. lia.
Qed.

(** The length of a dot leader: the padding figure itself up to 2, two
    more from 3 on. *)
Lemma len_dot_leader (n : Z) :
  (0 <= n)%Z →
  len (dot_leader n) = (if (n <=? 2)%Z then n else n + 2)%Z.
Proof.
  intros Hn. unfold dot_leader.
  destruct (Z.eqb_spec n 0) as [->|]; [done|].
  destruct (Z.eqb_spec n 1) as [->|]; [done|].
  destruct (Z.eqb_spec n 2) as [->|]; [done|].
  destruct (Z.leb_spec n 2); [lia|].
  rewrite !len_append, len_str_mul_dot by done. simpl. lia.
Qed.

(** Indexing a list from the front: past the end it raises
    [IndexError], within it gives the item. *)
Lemma index_past_end (items : list pyval) (i : nat) :
  (length items <= i)%nat → index (VList items) (Z.of_nat i) = Raise IndexError.
Proof.
  intros Hlen. unfold index.
  destruct (Z.ltb_spec (Z.of_nat i) 0); [lia|].
  destruct (Z.ltb_spec (Z.of_nat i) (Z.of_nat (length items))); [lia|].
  by rewrite andb_false_r.
Qed.

Lemma index_within (items : list pyval) (i : nat) (x : pyval) :
  items !! i = Some x → index (VList items) (Z.of_nat i) = Ok x.
Proof.
  intros Hx. pose proof (lookup_lt_Some _ _ _ Hx) as Hlen. unfold index.
  destruct (Z.ltb_spec (Z.of_nat i) 0); [lia|].
  destruct (Z.leb_spec 0 (Z.of_nat i)); [|lia].
  destruct (Z.ltb_spec (Z.of_nat i) (Z.of_nat (length items))); [|lia].
  cbn [andb]. by rewrite Nat2Z.id, Hx.
Qed.

(** Reading a file again keeps the skeleton of a tree whose own file
    was read so. *)
Lemma skeleton_reparsed (e : element) :
  skeleton (reparsed e) = reparsed (skeleton e).
Proof.
  induction e as [t a x tl cs IH] using element_rect_children.
  simpl. f_equal. rewrite <- !list_fmap_compose.
  apply Forall_fmap_ext_1. eapply Forall_impl; [exact IH|]. by intros c.
Qed.

Lemma own_reparsed (a b : element) :
  own a = own b → own (reparsed a) = own (reparsed b).
Proof. destruct a, b. unfold own. simpl. by intros [= -> -> -> ->]. Qed.

Lemma own_at_reparsed (a b : element) (q : path) :
  own <$> get_at a q = own <$> get_at b q →
  own <$> get_at (reparsed a) q = own <$> get_at (reparsed b) q.
Proof.
  rewrite !get_at_reparsed.
  destruct (get_at a q) as [x|], (get_at b q) as [y|]; try done.
  intros Hown. apply (f_equal Some), own_reparsed.
  by apply (inj Some).
Qed.

Section Renderer.
Variable repr_str : string → string.
Variable find_spliced : element → string → outcome (option path).
Local Abbreviation str := (Py.str repr_str).
Local Abbreviation find_and_replace :=
  (Render.find_and_replace repr_str find_spliced).
Local Abbreviation justify_format :=
  (Render.justify_format repr_str find_spliced).
Local Abbreviation run_steps := (Spec.run_steps repr_str find_spliced).
Local Abbreviation overwrite_tree :=
  (Render.overwrite_tree repr_str find_spliced).

Lemma find_and_replace_skeleton (root root' : element) (eid : string)
      (v : pyval) :
  quote_free eid = true →
  find_and_replace root eid v = Ok root' → skeleton root' = skeleton root.
Proof.
  intros Hq Hrun.
  rewrite (find_and_replace_Ok repr_str find_spliced _ _ _ _ Hq Hrun).
  destruct (find root eid) as [p|]; [|done].
  apply skeleton_update. intros el. apply skeleton_retouch.
Qed.

Lemma justify_format_skeleton (root root' : element) (eid : string)
      (v : pyval) (length : Z) :
  quote_free eid = true →
  justify_format root eid v length = Ok root' →
  skeleton root' = skeleton root.
Proof.
  intros Hq. rewrite justify_format_eq.
  destruct (find_and_replace root eid _) as [r1|] eqn:H1; [|done].
  cbn [mbind outcome_bind]. intros H2.
  apply find_and_replace_skeleton in H1; [|done].
  apply find_and_replace_skeleton in H2; [|by apply quote_free_dots].
  congruence.
Qed.

Lemma run_steps_skeleton (steps : list step) (root root' : element) :
  plain_ids steps →
  run_steps root steps = Ok root' → skeleton root' = skeleton root.
Proof.
  intros Hplain. revert root.
  induction Hplain as [|[[eid v] length] rest Hq _ IH]; intros root.
  { by intros [= <-]. }
  cbn [Spec.run_steps]. simpl in Hq.
  destruct (justify_format root eid v length) as [r1|] eqn:Hr1; [|done].
  cbn [mbind outcome_bind]. intros Hrest.
  apply justify_format_skeleton in Hr1; [|done]. apply IH in Hrest.
  congruence.
Qed.

(** The targets of the nine substitutions are the data identifiers and
    their companions. *)
Lemma targets_data_ids (v : vals) (loc0 loc1 loc2 : pyval) (t : string) :
  t ∈ targets (substitutions v loc0 loc1 loc2) →
  ∃ eid, eid ∈ data_ids ∧ (t = eid ∨ t = eid +:+ "_dots").
Proof.
  unfold targets, substitutions, data_ids. simpl.
  rewrite !elem_of_cons, elem_of_nil.
  intros Ht.
  repeat match goal with
         | H : _ ∨ _ |- _ => destruct H as [->|H]
         end; [..|done];
    eexists; (split; [|first [right; reflexivity | left; reflexivity]]);
    rewrite !elem_of_cons; repeat (first [by left | right]).
Qed.

(** With the three lines-of-code entries at hand and values lxml takes
    the substitutions all go through. *)
Lemma overwrite_tree_total (root : element) (v : vals)
      (loc0 loc1 loc2 : pyval) :
  index (loc v) 0 = Ok loc0 → index (loc v) 1 = Ok loc1 →
  index (loc v) 2 = Ok loc2 →
  all_writable repr_str (substitutions v loc0 loc1 loc2) →
  ∃ root', overwrite_tree root v = Ok root'.
Proof.
  intros H0 H1 H2 Hok.
  rewrite (overwrite_tree_run repr_str find_spliced root v loc0 loc1 loc2)
    by done.
  apply run_steps_returns; [apply substitutions_plain | done].
Qed.

(** Six substitutions are made before the lines-of-code value is
    looked into: when lxml takes their values, a value without an entry
    2 stops the run there. *)
Lemma overwrite_tree_stops (root : element) (v : vals) (e : exception) :
  Forall (writable repr_str)
         [age v; comm v; star v; repo v; contrib v; follow v] →
  index (loc v) 2 = Raise e →
  overwrite_tree root v = Raise e.
Proof.
  intros Hok Hloc. unfold Render.overwrite_tree.
  repeat match goal with
         | H : Forall _ (_ :: _) |- _ =>
             let Hv := fresh "Hv" in apply Forall_cons in H as [Hv H]
         end.
  repeat match goal with
         | |- context [Render.justify_format repr_str find_spliced ?r ?i ?x ?l] =>
             let r' := fresh "r" in
             let E := fresh "E" in
             destruct (justify_format_returns repr_str find_spliced r i x l)
               as [r' E]; [reflexivity | by right |];
             rewrite E; clear E; cbn [mbind outcome_bind]
         end.
  by rewrite Hloc.
Qed.
End Renderer.

End MoreRenderFacts.
(** ** More facts about the fetchers and the counters *)

Module MoreFetchFacts.
Import Py Etree Render Dates Fetch Spec Props.

(** One more call to a counter that exists is one more call in total. *)
Lemma total_calls_bump (m : gmap string Z) (k : string) (n : Z) :
  m !! k = Some n →
  total_calls (<[k:=(n + 1)%Z]> m) = (total_calls m + 1)%Z.
Proof.
  intros Hk. unfold total_calls.
  rewrite (map_fold_delete_L _ _ k n m); [|intros; lia|done].
  rewrite <- (insert_delete_eq m k (n + 1)%Z).
  rewrite map_fold_insert_L; [lia|intros; lia|apply lookup_delete_eq].
Qed.

Lemma accounted_refl (w : world) : accounted w w.
Proof. exists []. split; [by rewrite app_nil_r | simpl; lia]. Qed.

Lemma accounted_trans (w1 w2 w3 : world) :
  accounted w1 w2 → accounted w2 w3 → accounted w1 w3.
Proof.
  intros (r1 & Hp1 & Hc1) (r2 & Hp2 & Hc2). exists (r1 ++ r2)%list.
  split; [by rewrite Hp2, Hp1, app_assoc|].
  rewrite Hc2, Hc1, length_app. lia.
Qed.

Lemma accounted_after_call (w : world) (k : string) (n : Z) (req : request) :
  QUERY_COUNT w !! k = Some n → accounted w (after_call w k n req).
Proof.
  intros Hk. exists [req]. split; [done|]. simpl.
  rewrite (total_calls_bump _ _ _ Hk). lia.
Qed.

(** Sequencing keeps the account. *)
Lemma bind_accounted {A B} (m : M A) (k : A → M B) (w : world) :
  accounted w (m w).2 →
  (∀ a w1, accounted w1 (k a w1).2) →
  accounted w ((m ≫= k) w).2.
Proof.
  intros Hm Hk. unfold mbind, M_bind.
  destruct (m w) as [[a|e] w1]; simpl in *; [|done].
  eapply accounted_trans; [exact Hm | apply Hk].
Qed.

(** The sum of a page's star counts, from any running total. *)
Lemma sum_stars_app (acc : Z) (front back : list pyval) :
  sum_stars acc (front ++ back)
  = (acc' ← sum_stars acc front; sum_stars acc' back).
Proof.
  revert acc. induction front as [|e front IH]; intros acc; [done|].
  cbn [sum_stars app]. destruct (star_count e) as [x|err]; [|done].
  cbn [mbind outcome_bind]. destruct (add_int acc x) as [acc'|err]; [|done].
  cbn [mbind outcome_bind]. apply IH.
Qed.

Lemma overwrite_file_accounted (repr_str : string → string)
      (find_spliced : element → string → outcome (option path)) (v : vals)
      (fname : string) (w : world) :
  accounted w (overwrite_file repr_str find_spliced v fname w).2.
Proof.
  unfold overwrite_file.
  destruct (svg_overwrite repr_str find_spliced (files w) fname v) as [fs|e]; simpl.
  - exists []. simpl. split; [by rewrite app_nil_r | lia].
  - apply accounted_refl.
Qed.

Lemma overwrite_all_accounted (repr_str : string → string)
      (find_spliced : element → string → outcome (option path)) (v : vals)
      (names : list string) (w : world) :
  accounted w (overwrite_all repr_str find_spliced v names w).2.
Proof.
  revert w. induction names as [|name rest IH]; intros w.
  { apply accounted_refl. }
  cbn [overwrite_all]. apply bind_accounted;
    [apply overwrite_file_accounted | intros _ w1; apply IH].
Qed.

(** Rewriting files posts nothing and counts nothing, however it
    ends. *)
Lemma overwrite_file_keeps (repr_str : string → string)
      (find_spliced : element → string → outcome (option path)) (v : vals)
      (fname : string) (w : world) :
  QUERY_COUNT (overwrite_file repr_str find_spliced v fname w).2 = QUERY_COUNT w ∧
  posted (overwrite_file repr_str find_spliced v fname w).2 = posted w.
Proof.
  unfold overwrite_file.
  by destruct (svg_overwrite repr_str find_spliced (files w) fname v) as [fs|e].
Qed.

Lemma overwrite_all_keeps (repr_str : string → string)
      (find_spliced : element → string → outcome (option path)) (v : vals)
      (names : list string) (w : world) :
  QUERY_COUNT (overwrite_all repr_str find_spliced v names w).2 = QUERY_COUNT w ∧
  posted (overwrite_all repr_str find_spliced v names w).2 = posted w.
Proof.
  revert w. induction names as [|name rest IH]; intros w; [done|].
  cbn [overwrite_all]. unfold mbind, M_bind.
  pose proof (overwrite_file_keeps repr_str find_spliced v name w) as [HQ HP].
  destruct (overwrite_file repr_str find_spliced v name w) as [[[]|e] w1];
    simpl in HQ, HP; [|done].
  destruct (IH w1) as [HQ' HP']. by rewrite <- HQ, <- HP.
Qed.

Section Script.
Variable post : list request → request → response.
Variable ACCESS_TOKEN : string.
Variable env_USER_NAME : option string.
Variable repr_str : string → string.
Variable find_spliced : element → string → outcome (option path).
Variable int_of_str : string → option Z.

Local Abbreviation USER_NAME := (Fetch.USER_NAME env_USER_NAME).
Local Abbreviation graphql_request := (Fetch.graphql_request ACCESS_TOKEN).
Local Abbreviation simple_request := (Fetch.simple_request post ACCESS_TOKEN).
Local Abbreviation user_getter := (Fetch.user_getter post ACCESS_TOKEN).
Local Abbreviation follower_getter :=
  (Fetch.follower_getter post ACCESS_TOKEN int_of_str).
Local Abbreviation graph_repos_stars :=
  (Fetch.graph_repos_stars post ACCESS_TOKEN env_USER_NAME).
Local Abbreviation gather :=
  (Fetch.gather post ACCESS_TOKEN env_USER_NAME int_of_str).
Local Abbreviation main :=
  (Fetch.main post ACCESS_TOKEN env_USER_NAME repr_str find_spliced
              int_of_str).

(** A helper made of a count, one request and a pure extraction: without
    its counter it stops before anything is posted. *)
Lemma call_uncounted {A} (fname q : string) (v : pyval)
      (k : response → outcome A) (w : world) :
  QUERY_COUNT w !! fname = None →
  (query_count fname;; r ← simple_request fname q v; lift (k r)) w
  = (Raise (KeyError fname), w).
Proof.
  intros Hnone. unfold mbind, M_bind, query_count. by rewrite Hnone.
Qed.

(** With its counter, it ends in the same world whether it returns or
    raises. *)
Lemma call_counted {A} (fname q : string) (v : pyval)
      (k : response → outcome A) (w : world) (n : Z) :
  QUERY_COUNT w !! fname = Some n →
  ∃ o, (query_count fname;; r ← simple_request fname q v; lift (k r)) w
       = (o, after_call w fname n (graphql_request q v)).
Proof.
  intros Hn.
  destruct (Z.eq_dec (status_code (post (posted w) (graphql_request q v)))
                     200%Z) as [Hok|Hbad].
  - eexists. by apply FetchFacts.call_succeeds.
  - eexists. by apply FetchFacts.call_fails.
Qed.

Lemma call_accounted {A} (fname q : string) (v : pyval)
      (k : response → outcome A) (w : world) :
  accounted w
    ((query_count fname;; r ← simple_request fname q v; lift (k r)) w).2.
Proof.
  destruct (QUERY_COUNT w !! fname) as [n|] eqn:Hn.
  - destruct (call_counted fname q v k w n Hn) as [o ->].
    by apply accounted_after_call.
  - rewrite call_uncounted by done. apply accounted_refl.
Qed.

(** A helper that returns had its counter. *)
Lemma call_returned {A} (fname q : string) (v : pyval)
      (k : response → outcome A) (w w' : world) (a : A) :
  (query_count fname;; r ← simple_request fname q v; lift (k r)) w
  = (Ok a, w') →
  ∃ n, QUERY_COUNT w !! fname = Some n ∧
       w' = after_call w fname n (graphql_request q v).
Proof.
  intros Hrun. destruct (QUERY_COUNT w !! fname) as [n|] eqn:Hn.
  - destruct (call_counted fname q v k w n Hn) as [o Ho].
    rewrite Ho in Hrun. injection Hrun as _ <-. by exists n.
  - by rewrite call_uncounted in Hrun.
Qed.

Lemma gather_accounted (age : string) (w : world) :
  accounted w (gather age w).2.
Proof.
  unfold Fetch.gather.
  apply bind_accounted; [apply call_accounted|]. intros star w1.
  apply bind_accounted; [apply call_accounted|]. intros repo w2.
  apply bind_accounted; [apply call_accounted|]. intros count w3.
  apply bind_accounted; [apply call_accounted|]. intros follower w4.
  apply accounted_refl.
Qed.


(** The fetchers leave the files alone, however they end. *)
Lemma bind_files {A B} (m : M A) (k : A → M B) (w : world) :
  files (m w).2 = files w →
  (∀ a w1, files (k a w1).2 = files w1) →
  files ((m ≫= k) w).2 = files w.
Proof.
  intros Hm Hk. unfold mbind, M_bind.
  destruct (m w) as [[a|e] w1]; simpl in *; [|done].
  by rewrite Hk.
Qed.

Lemma call_files {A} (fname q : string) (v : pyval)
      (k : response → outcome A) (w : world) :
  files ((query_count fname;; r ← simple_request fname q v; lift (k r)) w).2
  = files w.
Proof.
  destruct (QUERY_COUNT w !! fname) as [n|] eqn:Hn.
  - by destruct (call_counted fname q v k w n Hn) as [o ->].
  - by rewrite call_uncounted.
Qed.

Lemma gather_files (age : string) (w : world) :
  files (gather age w).2 = files w.
Proof.
  unfold Fetch.gather.
  apply bind_files; [apply call_files|]. intros star w1.
  apply bind_files; [apply call_files|]. intros repo w2.
  apply bind_files; [apply call_files|]. intros count w3.
  apply bind_files; [apply call_files|]. by intros follower w4.
Qed.

End Script.

End MoreFetchFacts.
(** ** More facts about the calendar *)

Module MoreDatesFacts.
Import Py Dates Spec DatesFacts.
Local Open Scope Z_scope.

(** What it takes for a datetime to compare lower than another. *)
Lemma ltb_true (a b : datetime) :
  ltb a b = true →
  year a < year b ∨ year a = year b ∧
  (month a < month b ∨ month a = month b ∧
   (day a < day b ∨ day a = day b ∧
    (hour a < hour b ∨ hour a = hour b ∧
     (minute a < minute b ∨ minute a = minute b ∧
      (second a < second b ∨ second a = second b ∧
       microsecond a < microsecond b))))).
Proof.
  unfold ltb, fields. simpl.
  repeat match goal with
         | |- context [(?x <? ?y) || _] =>
             destruct (Z.ltb_spec x y); simpl; [intros _; lia|];
             destruct (Z.eqb_spec x y); simpl; [|discriminate]
         end.
  discriminate.
Qed.

(** Among datetimes of the calendar the one that compares lower is
    earlier. *)
Lemma elapsed_neg (a b : datetime) :
  1 <= month a <= 12 → day a <= monthrange (year a) (month a) →
  hour a < 24 → minute a < 60 → second a < 60 → microsecond a < 1000000 →
  1 <= month b <= 12 → 1 <= day b →
  0 <= hour b → 0 <= minute b → 0 <= second b → 0 <= microsecond b →
  ltb a b = true → elapsed a b < 0.
Proof.
  intros Hma Hda Hha Hmia Hsa Husa Hmb Hdb Hhb Hmib Hsb Husb Hlt.
  apply ltb_true in Hlt. unfold elapsed, toordinal.
  pose proof (days_before_month_nonneg (year b) (month b) Hmb) as Hdmb.
  pose proof (day_of_year_bound (year a) (month a) (day a) Hma Hda) as Hyear.
  destruct Hlt as [Hy|[Hy Hlt]].
  { pose proof (days_before_year_mono (year a + 1) (year b) ltac:(lia))
      as Hmono.
    rewrite days_before_year_next in Hmono. lia. }
  rewrite Hy in *. destruct Hlt as [Hm|[Hm Hlt]].
  { pose proof (day_of_month_bound (year b) (month a) (month b) (day a)
                  ltac:(lia) Hm ltac:(lia) Hda). lia. }
  rewrite Hm in *. lia.
Qed.

Lemma monthrange_bounds (y m : Z) : 28 <= monthrange y m <= 31.
Proof.
  unfold monthrange.
  destruct (m =? 2); [destruct (isleap y); lia|].
  destruct ((m =? 4) || (m =? 6) || (m =? 9) || (m =? 11)); lia.
Qed.

(** The days before a month are those before the month that precedes
    it and the days of that month. *)
Lemma days_before_month_next (y m : Z) :
  1 <= m <= 11 →
  days_before_month y (m + 1) = days_before_month y m + monthrange y m.
Proof.
  intros Hm. unfold days_before_month.
  replace (Z.to_nat (m + 1 - 1)) with (S (Z.to_nat (m - 1))) by lia.
  cbn [days_before_month_nat]. do 2 f_equal. lia.
Qed.

(** December has 31 days and ends the year. *)
Lemma days_before_december (y : Z) :
  days_before_month y 12 + 31
  = 365 + (if isleap y then 1 else 0).
Proof. rewrite days_before_month_table by lia. simpl. lia. Qed.

(** The fields of a datetime moved on by a number of months. *)
Lemma months_on_fields (k : Z) (d : datetime) :
  0 <= k → 1 <= month d <= 12 →
  let moved := months_on k d in
  year moved * 12 + month moved = year d * 12 + month d + k ∧
  1 <= month moved <= 12 ∧
  day moved = Z.min (monthrange (year moved) (month moved)) (day d) ∧
  hour moved = hour d ∧ minute moved = minute d ∧
  second moved = second d ∧ microsecond moved = microsecond d.
Proof.
  intros Hk Hm moved.
  destruct (radd_month_count (Relativedelta 0 0 0 0 0 0 0) d k Hm)
    as [Hcount Hmonth].
  rewrite set_months_nonneg in Hcount, Hmonth by done.
  cbn [days hours minutes seconds microseconds] in Hcount, Hmonth.
  fold (months_on k d) in Hcount, Hmonth. fold moved in Hcount, Hmonth.
  split; [done|]. split; [done|].
  subst moved. unfold months_on, radd.
  cbn [years months].
  by destruct (k mod 12 =? 0);
    [|destruct (month d + k mod 12 >? 12);
      [|destruct (month d + k mod 12 <? 1)]].
Qed.

(** One month more moves a datetime on by 31 days at most. *)
Lemma months_on_step (k : Z) (d : datetime) :
  0 <= k → 1 <= month d <= 12 → 1 <= day d →
  elapsed (months_on (k + 1) d) (months_on k d) <= 31 * 86400000000.
Proof.
  intros Hk Hm Hd.
  destruct (months_on_fields k d Hk Hm)
    as (Hc & Hmo & Hday & Hh & Hmi & Hs & Hus).
  destruct (months_on_fields (k + 1) d ltac:(lia) Hm)
    as (Hc' & Hmo' & Hday' & Hh' & Hmi' & Hs' & Hus').
  cbv zeta in *.
  set (M := months_on k d) in *. set (N := months_on (k + 1) d) in *.
  unfold elapsed, toordinal.
  rewrite Hh, Hmi, Hs, Hus, Hh', Hmi', Hs', Hus', Hday, Hday'.
  pose proof (monthrange_bounds (year M) (month M)) as HrM.
  pose proof (monthrange_bounds (year N) (month N)) as HrN.
  destruct (Z.eq_dec (month M) 12) as [Hdec|Hnot].
  - assert (year N = year M + 1 ∧ month N = 1) as [HyN HmN] by lia.
    rewrite HyN, HmN, Hdec in *.
    rewrite days_before_year_next.
    pose proof (days_before_december (year M)) as Hdecember.
    change (days_before_month (year M + 1) 1) with 0.
    change (monthrange (year M) 12) with 31 in *.
    change (monthrange (year M + 1) 1) with 31 in *.
    lia.
  - assert (year N = year M ∧ month N = month M + 1) as [HyN HmN] by lia.
    rewrite HyN, HmN in *.
    rewrite days_before_month_next by lia. lia.
Qed.

(** Between two whole months gone by there are fewer than 31 days. *)
Lemma elapsed_within_month (k : Z) (now d : datetime) :
  0 <= k → valid now → valid d →
  ltb now (months_on (k + 1) d) = true →
  elapsed now (months_on k d) < 31 * 86400000000.
Proof.
  intros Hk Hnow Hd Hlt.
  destruct Hnow as (_ & Hmn & Hdn & Hhn & Hmin & Hsn & Husn).
  destruct Hd as (_ & Hmd & Hdd & Hhd & Hmid & Hsd & Husd).
  destruct (months_on_fields (k + 1) d ltac:(lia) Hmd)
    as (_ & Hmo' & Hday' & Hh' & Hmi' & Hs' & Hus').
  cbv zeta in *.
  pose proof (monthrange_bounds (year (months_on (k + 1) d))
                (month (months_on (k + 1) d))) as Hr.
  pose proof (elapsed_neg now (months_on (k + 1) d)) as Hneg.
  pose proof (months_on_step k d Hk Hmd ltac:(lia)) as Hstep.
  assert (elapsed now (months_on k d)
          = elapsed now (months_on (k + 1) d)
            + elapsed (months_on (k + 1) d) (months_on k d)) as ->
    by (unfold elapsed; lia).
  assert (elapsed now (months_on (k + 1) d) < 0); [|lia].
  apply Hneg; try lia; done.
Qed.

(** Stepping forward, the loop stops at the first month count whose
    date is not before the target. *)
Lemma adjust_forward (fuel : nat) (dt1 dt2 : datetime) (rd : relativedelta) :
  (1 <= fuel)%nat → 1 <= month dt1 <= 12 → 1 <= month dt2 <= 12 →
  let m0 := (year dt1 - year dt2) * 12 + (month dt1 - month dt2) in
  ∃ k, adjust fuel gtb 1 dt1 dt2 (set_months rd m0) m0 = Some k ∧
       (k = m0 ∨ k = m0 + 1) ∧
       ltb (radd (set_months rd k) dt2) dt1 = false ∧
       ltb (radd (set_months rd (k - 1)) dt2) dt1 = true.
Proof.
  intros Hfuel H1 H2 m0. destruct fuel as [|fuel]; [lia|].
  cbn [adjust]. unfold gtb.
  destruct (ltb (radd (set_months rd m0) dt2) dt1) eqn:Hfirst.
  - rewrite set_months_again.
    destruct (radd_month_count rd dt2 (m0 + 1) H2) as [Hcount Hrange].
    assert (ltb (radd (set_months rd (m0 + 1)) dt2) dt1 = false) as Hstop.
    { apply not_true_is_false. intros Hcmp.
      apply ltb_month_count in Hcmp; [|done..]. subst m0. lia. }
    exists (m0 + 1). split; [|split; [lia|split; [done|]]].
    + destruct fuel as [|fuel]; cbn [adjust]; by rewrite Hstop.
    + by replace (m0 + 1 - 1) with m0 by lia.
  - exists m0. split; [done|]. split; [by left|]. split; [done|].
    destruct (radd_month_count rd dt2 (m0 - 1) H2) as [Hcount Hrange].
    apply month_count_ltb; [subst m0; lia | done..].
Qed.

(** A month count that is not positive splits into years and months
    that are not positive either. *)
Lemma set_months_nonpos (rd : relativedelta) (k : Z) :
  k <= 0 →
  set_months rd k
  = Relativedelta (Z.quot k 12) (Z.rem k 12) (days rd) (hours rd)
                  (minutes rd) (seconds rd) (microseconds rd).
Proof.
  intros Hk. unfold set_months, sign.
  assert (Z.quot k 12 = - (- k / 12)) as Hquot.
  { rewrite <- (Z.opp_involutive k) at 1.
    rewrite Z.quot_opp_l, Z.quot_div_nonneg by lia. done. }
  assert (Z.rem k 12 = - (- k mod 12)) as Hrem.
  { rewrite <- (Z.opp_involutive k) at 1.
    rewrite Z.rem_opp_l, Z.rem_mod_nonneg by lia. done. }
  rewrite Hquot, Hrem.
  destruct (Z.gtb_spec (Z.abs k) 11) as [Hbig|Hsmall].
  - destruct (Z.ltb_spec k 0); [|lia].
    f_equal; Z.div_mod_to_equations; lia.
  - f_equal; Z.div_mod_to_equations; lia.
Qed.

(** The carries turn seconds that are not positive into whole days,
    counted towards zero, and a rest. *)
Lemma fix_units_days_nonpos (y m secs us : Z) :
  secs <= 0 → 0 <= us < 1000000 →
  days (fix_units (Relativedelta y m 0 0 0 secs us)) = Z.quot secs 86400.
Proof.
  intros Hsecs Hus.
  assert (Z.quot secs 86400 = - (- secs / 86400)) as ->.
  { rewrite <- (Z.opp_involutive secs) at 1.
    rewrite Z.quot_opp_l, Z.quot_div_nonneg by lia. done. }
  unfold fix_units, sign.
  cbn [years months days hours minutes seconds microseconds].
  destruct (Z.gtb_spec (Z.abs us) 999999) as [Hbig|_]; [lia|].
  destruct (Z.gtb_spec (Z.abs secs) 59) as [Hs|Hs].
  - destruct (Z.ltb_spec secs 0) as [_|Hpos]; [|lia].
    rewrite Z.add_0_l.
    set (mins := secs * -1 / 60 * -1).
    assert (mins = - (- secs / 60)) as Hmins
      by (subst mins; replace (secs * -1) with (- secs) by lia; lia).
    destruct (Z.gtb_spec (Z.abs mins) 59) as [Hm|Hm].
    + destruct (Z.ltb_spec mins 0) as [_|Hpos];
        [|revert Hm; rewrite Hmins; Z.div_mod_to_equations; lia].
      rewrite Z.add_0_l.
      set (hrs := mins * -1 / 60 * -1).
      assert (hrs = - (- secs / 3600)) as Hhrs.
      { subst hrs. rewrite Hmins.
        replace (- (- secs / 60) * -1) with (- secs / 60) by lia.
        rewrite Z.div_div by lia. simpl. lia. }
      destruct (Z.gtb_spec (Z.abs hrs) 23) as [Hh|Hh].
      * destruct (Z.ltb_spec hrs 0) as [_|Hpos];
          [|revert Hh; rewrite Hhrs; Z.div_mod_to_equations; lia].
        rewrite Z.add_0_l.
        assert (hrs * -1 / 24 * -1 = - (- secs / 86400)) as Hdays.
        { rewrite Hhrs.
          replace (- (- secs / 3600) * -1) with (- secs / 3600) by lia.
          rewrite Z.div_div by lia. simpl. lia. }
        destruct (Z.abs m >? 11); simpl; exact Hdays.
      * assert (0 = - (- secs / 86400)) as Hdays
          by (revert Hh; rewrite Hhrs; Z.div_mod_to_equations; lia).
        destruct (Z.abs m >? 11); simpl; exact Hdays.
    + destruct (Z.gtb_spec (Z.abs 0) 23) as [Hh|_]; [lia|].
      assert (0 = - (- secs / 86400)) as Hdays
        by (revert Hm; rewrite Hmins; Z.div_mod_to_equations; lia).
      destruct (Z.abs m >? 11); simpl; exact Hdays.
  - destruct (Z.gtb_spec (Z.abs 0) 59) as [Hm|_]; [lia|].
    destruct (Z.gtb_spec (Z.abs 0) 23) as [Hh|_]; [lia|].
    assert (0 = - (- secs / 86400)) as Hdays
      by (revert Hs; Z.div_mod_to_equations; lia).
    destruct (Z.abs m >? 11); simpl; exact Hdays.
Qed.

(** The month count and the fields of a datetime moved by any number
    of months, forward or back. *)
Lemma months_on_count (k : Z) (d : datetime) :
  1 <= month d <= 12 →
  let moved := months_on k d in
  year moved * 12 + month moved = year d * 12 + month d + k ∧
  1 <= month moved <= 12 ∧
  day moved = Z.min (monthrange (year moved) (month moved)) (day d) ∧
  hour moved = hour d ∧ minute moved = minute d ∧
  second moved = second d ∧ microsecond moved = microsecond d.
Proof.
  intros Hm moved. subst moved. unfold months_on, radd. cbn [years months].
  pose proof (Z.mod_pos_bound k 12 ltac:(lia)) as Hmod.
  pose proof (Z.div_mod k 12 ltac:(lia)) as Hdiv.
  destruct (Z.eqb_spec (k mod 12) 0) as [H0|H0]; [simpl; lia|].
  destruct (Z.gtb_spec (month d + k mod 12) 12); [simpl; lia|].
  destruct (Z.ltb_spec (month d + k mod 12) 1); simpl; lia.
Qed.

(** What [radd] computes from the years and months of a month count is
    the datetime that many months on. *)
Lemma radd_months_on (rd : relativedelta) (k : Z) (d : datetime) :
  1 <= month d <= 12 → radd (set_months rd k) d = months_on k d.
Proof.
  intros Hm.
  destruct (radd_month_count rd d k Hm) as [Hc Hr].
  destruct (months_on_count k d Hm) as (Hc' & Hr' & Hd' & Hh' & Hmi' & Hs' & Hu').
  cbv zeta in *.
  assert (day (radd (set_months rd k) d)
          = Z.min (monthrange (year (radd (set_months rd k) d))
                     (month (radd (set_months rd k) d))) (day d) ∧
          hour (radd (set_months rd k) d) = hour d ∧
          minute (radd (set_months rd k) d) = minute d ∧
          second (radd (set_months rd k) d) = second d ∧
          microsecond (radd (set_months rd k) d) = microsecond d)
    as (Hd & Hh & Hmi & Hs & Hu).
  { unfold radd.
    by destruct (months (set_months rd k) =? 0);
      [|destruct (month d + months (set_months rd k) >? 12);
        [|destruct (month d + months (set_months rd k) <? 1)]]. }
  destruct (radd (set_months rd k) d) as [y1 m1 d1 h1 mi1 s1 u1],
    (months_on k d) as [y2 m2 d2 h2 mi2 s2 u2].
  cbn [year month day hour minute second microsecond] in *.
  assert (y1 = y2 ∧ m1 = m2) as [-> ->] by lia.
  f_equal; congruence.
Qed.

Lemma elapsed_opp (a b : datetime) : elapsed a b = - elapsed b a.
Proof. unfold elapsed. lia. Qed.

(** From a birth date that is after the clock's reading, the years and
    months of the difference count, below zero, the whole months still
    to go ([k] months on the birth date is not before the reading, one
    month less is) and its days the whole days still to go from
    there. *)
Lemma between_whole_months_ahead (fuel : nat) (dt1 dt2 : datetime) :
  (1 <= fuel)%nat → valid dt1 → valid dt2 → ltb dt1 dt2 = true →
  ∃ diff k,
    between fuel dt1 dt2 = Some diff ∧
    k <= 0 ∧ years diff = Z.quot k 12 ∧ months diff = Z.rem k 12 ∧
    ltb (months_on k dt2) dt1 = false ∧
    ltb (months_on (k - 1) dt2) dt1 = true ∧
    elapsed dt1 (months_on k dt2) <= 0 ∧
    days diff = Z.quot (elapsed dt1 (months_on k dt2) / 1000000) 86400.
Proof.
  intros Hfuel Hv1 Hv2 Hlt.
  assert (1 <= month dt1 <= 12) as H1 by apply Hv1.
  assert (1 <= month dt2 <= 12) as H2 by apply Hv2.
  destruct (adjust_forward fuel dt1 dt2 (Relativedelta 0 0 0 0 0 0 0)
              Hfuel H1 H2) as (k & Hk & Hwhich & Hnot & Hprev).
  cbv zeta in Hk, Hwhich.
  set (m0 := (year dt1 - year dt2) * 12 + (month dt1 - month dt2)) in *.
  pose proof (ltb_month_count dt1 dt2 H1 H2 Hlt) as Hcount.
  assert (m0 <= 0) as Hm0 by (subst m0; lia).
  rewrite !radd_months_on in Hnot, Hprev by done.
  assert (k <= 0) as Hk0.
  { destruct Hwhich as [-> | ->]; [done|].
    destruct (Z.eq_dec m0 0) as [Hz|]; [|lia].
    rewrite Hz in Hprev. replace (0 + 1 - 1) with 0 in Hprev by lia.
    rewrite <- (radd_months_on (Relativedelta 0 0 0 0 0 0 0)) in Hprev
      by done.
    change (set_months _ 0) with (Relativedelta 0 0 0 0 0 0 0) in Hprev.
    rewrite radd_nothing in Hprev by done.
    pose proof (ltb_month_count dt2 dt1 H2 H1 Hprev).
    pose proof (ltb_true _ _ Hlt). pose proof (ltb_true _ _ Hprev). lia. }
  assert (elapsed dt1 (months_on k dt2) <= 0) as Helapsed.
  { rewrite elapsed_opp.
    destruct Hv1 as (_ & _ & Hd1 & Hh1 & Hmi1 & Hs1 & Hus1).
    destruct Hv2 as (_ & _ & Hd2 & Hh2 & Hmi2 & Hs2 & Hus2).
    destruct (months_on_count k dt2 H2)
      as (_ & Hmo & Hday & Hh & Hmi & Hs & Hus).
    cbv zeta in *.
    pose proof (monthrange_bounds (year (months_on k dt2))
                  (month (months_on k dt2))).
    assert (0 <= elapsed (months_on k dt2) dt1); [|lia].
    apply elapsed_nonneg; try done; lia. }
  unfold between. rewrite Hlt. fold m0. rewrite Hk.
  unfold mbind, option_bind.
  rewrite radd_months_on by done. rewrite set_months_nonpos by done.
  cbn [years months days hours minutes seconds microseconds].
  eexists _, k. split; [reflexivity|]. split; [done|].
  assert (Z.abs (Z.rem k 12) <= 11) as Hrem.
  { pose proof (Z.rem_bound_abs k 12 ltac:(lia)). lia. }
  split; [|split; [|split; [done|split; [done|split; [done|]]]]].
  - by apply fix_units_months.
  - by apply fix_units_months.
  - unfold sub. cbn [td_seconds td_days td_microseconds].
    set (e := elapsed dt1 (months_on k dt2)) in *.
    rewrite fix_units_days_nonpos.
    + f_equal. Z.div_mod_to_equations. lia.
    + Z.div_mod_to_equations. lia.
    + apply Z.mod_pos_bound. lia.
Qed.

(** The age string is never empty. *)
Lemma uptime_string_nonempty (fuel : nat) (utcnow bday : datetime)
      (text : string) :
  uptime_string fuel utcnow bday = Some text → text ≠ "".
Proof.
  unfold uptime_string. destruct (between fuel utcnow bday) as [diff|];
    [|done].
  intros [= <-].
  pose proof (XmlFacts.str_int_nonempty (years diff)) as Hyears.
  by destruct (str_int (years diff)).
Qed.

End MoreDatesFacts.
(** ** The renderer's properties *)

Import Py Etree Render Dates Fetch Spec.



(** C7, as stated, fails: a parent that declares an empty [x] hands
    nothing down.  In the sample the line's [x] is empty and the field
    has the offset 5; after the call the field still has 5, not the
    parent's empty value. *)
Lemma parent_x_empty_not_copied :
  find Samples.unpinned "age_data" = Some [0; 0]%nat ∧
  (getparent Samples.unpinned [0; 0]%nat ≫= λ parent, get parent "x")
  = Some "" ∧
  (∃ root',
     find_and_replace Samples.quote Samples.strict Samples.unpinned
                      "age_data" (VStr "1 year")
     = Ok root' ∧
     text_at root' [0; 0]%nat = Some "1 year" ∧
     attr_at root' [0; 0]%nat "x" = Some "5") ∧
  ¬ parent_x_always_copied Samples.quote Samples.strict.
Proof.
  split; [reflexivity|]. split; [reflexivity|]. split.
  - eexists. split; [reflexivity|]. split; reflexivity.
  - intros Hclaim.
    destruct (Hclaim Samples.unpinned "age_data" (VStr "1 year") [0; 0]%nat
                (Element "text" {[ "x" := "" ]} None None
                   [Element "tspan" {[ "id" := "age_data"; "x" := "5" ]}
                            None None []])
                "" eq_refl eq_refl eq_refl eq_refl eq_refl)
      as (root' & Hrun & _ & Hx).
    vm_compute in Hrun. injection Hrun as <-. by vm_compute in Hx.
Qed.

(** C7, amended.  For every document, every identifier without a quote
    character that finds an element and every new value whose string
    form is XML-compatible text, [find_and_replace] returns, the
    element's text is then the stringified new value, and the element
    has a parent; when the parent declares a non-empty [x], the
    element's [x] is then that value, and when the parent's [x] is
    absent or empty the element's [x] is what it was. *)
Theorem find_and_replace_found (repr_str : string → string)
        (find_spliced : element → string → outcome (option path))
        (root : element) (eid : string) (v : pyval) (p : path) :
  quote_free eid = true →
  xml_compatible (str repr_str v) = true →
  find root eid = Some p →
  ∃ root' parent,
    find_and_replace repr_str find_spliced root eid v = Ok root' ∧
    getparent root p = Some parent ∧
    text_at root' p = Some (str repr_str v) ∧
    (∀ px, get parent "x" = Some px → px ≠ "" →
           attr_at root' p "x" = Some px) ∧
    (get parent "x" = None ∨ get parent "x" = Some "" →
     attr_at root' p "x" = attr_at root p "x").
Proof.
  intros Hplain Htakes Hp.
  pose proof (RenderFacts.find_and_replace_eq repr_str find_spliced
                root eid v Hplain) as Hrun.
  rewrite Hp, Htakes in Hrun.
  pose proof (RenderFacts.find_and_replace_text repr_str find_spliced
                _ _ _ _ _ Hplain Hrun Hp) as Htext.
  pose proof Hp as Hfound.
  apply EtreeFacts.first_descendant_Some in Hfound as (Hne & el & Hel & _).
  destruct (EtreeFacts.getparent_Some root el p Hne Hel) as [parent Hparent].
  exists (update_at (retouch (str repr_str v)
                       (getparent root p ≫= λ par, get par "x")) root p),
         parent.
  split; [done|]. split; [done|]. split; [done|].
  unfold attr_at. rewrite EtreeFacts.get_at_update_same, Hel, Hparent.
  simpl. split.
  - intros px -> Hpx. destruct px as [|c px]; [done|].
    destruct el. unfold get. simpl. apply lookup_insert_eq.
  - intros [-> | ->]; by destruct el.
Qed.

Lemma find_and_replace_found_witness :
  quote_free "star_data" = true ∧
  xml_compatible (str Samples.quote (VInt 7)) = true ∧
  find Samples.template "star_data" = Some [1; 5]%nat ∧
  ∃ root' parent,
    find_and_replace Samples.quote Samples.strict Samples.template
                     "star_data" (VInt 7)
    = Ok root' ∧
    getparent Samples.template [1; 5]%nat = Some parent ∧
    text_at root' [1; 5]%nat = Some "7" ∧
    (∀ px, get parent "x" = Some px → px ≠ "" →
           attr_at root' [1; 5]%nat "x" = Some px) ∧
    (get parent "x" = None ∨ get parent "x" = Some "" →
     attr_at root' [1; 5]%nat "x"
     = attr_at Samples.template [1; 5]%nat "x").
Proof.
  split; [reflexivity|]. split; [reflexivity|]. split; [reflexivity|].
  exact (find_and_replace_found Samples.quote Samples.strict Samples.template
           "star_data" (VInt 7) [1; 5]%nat eq_refl eq_refl eq_refl).
Defined.





(** C8.  For every int handed to [justify_format] with an identifier
    without a quote character, the call returns and the text written
    for the identifier is the int with thousands separators: the sign,
    then the digits of its absolute value with a comma at every fourth
    place from the right and nowhere else, one for each full group of
    three digits after the leading one; without the commas it is the
    plain decimal form.  12345 is written as "12,345". *)
Theorem justify_format_int_grouped (repr_str : string → string)
        (find_spliced : element → string → outcome (option path))
        (root : element) (eid : string) (n : Z) (length : Z) (p : path) :
  quote_free eid = true →
  find root eid = Some p →
  ∃ root',
    justify_format repr_str find_spliced root eid (VInt n) length
    = Ok root' ∧
    text_at root' p = Some (format_comma n) ∧
    format_comma n
    = (if n <? 0 then "-" else "")%Z +:+ format_comma (Z.abs n) ∧
    strip_commas (format_comma n) = str_int n ∧
    (let digits := list_ascii_of_string (str_int (Z.abs n)) in
     let grouped := list_ascii_of_string (format_comma (Z.abs n)) in
     List.length grouped
     = (List.length digits + (List.length digits - 1) / 3)%nat ∧
     ∀ i, (i < List.length grouped)%nat →
          reverse grouped !! i = Some ","%char ↔ (i mod 4 = 3)%nat) ∧
    format_comma 12345 = "12,345".
Proof.
  intros Hplain Hp.
  destruct (RenderFacts.justify_format_spec repr_str find_spliced
              root eid (VInt n) length Hplain)
    as (root' & Hrun & _ & Htext & _).
  { right. apply XmlFacts.xml_compatible_format_comma. }
  exists root'. split; [done|]. split; [by apply Htext|].
  assert (format_comma (Z.abs n) = group_thousands (str_int (Z.abs n)))
    as Habs.
  { unfold format_comma. rewrite Z.abs_idemp.
    by destruct (Z.ltb_spec (Z.abs n) 0); [lia|]. }
  split; [by rewrite Habs|].
  split; [apply PyFacts.strip_commas_format|].
  split; [|reflexivity].
  rewrite Habs. apply PyFacts.group_thousands_places. lia.
Qed.

Lemma justify_format_int_grouped_witness :
  quote_free "follower_data" = true ∧
  find Samples.template "follower_data" = Some [2; 3]%nat ∧
  ∃ root',
    justify_format Samples.quote Samples.strict Samples.template
                   "follower_data" (VInt (-1234567)) 10
    = Ok root' ∧
    text_at root' [2; 3]%nat = Some "-1,234,567".
Proof.
  split; [reflexivity|]. split; [reflexivity|].
  destruct (justify_format_int_grouped Samples.quote Samples.strict
              Samples.template "follower_data" (-1234567) 10 [2; 3]%nat
              eq_refl eq_refl)
    as (root' & Hrun & Htext & _).
  exists root'. split; [exact Hrun | exact Htext].
Defined.

(** C2.  For a document with elements [star_data] and
    [star_data_dots], rendering the star statistic 1234 at width 14 sets
    the text of the first to "1,234" and of the second to one space, nine
    dots and one space.  The single call of [justify_format] returns and
    does so; [svg_overwrite] on a file that holds the document returns
    when lxml takes the texts of the other statistics, and whenever it
    returns the file it wrote shows these two texts. *)
Theorem star_statistic_rendered (repr_str : string → string)
        (find_spliced : element → string → outcome (option path))
        (root : element) (p q : path) :
  find root "star_data" = Some p →
  find root "star_data_dots" = Some q →
  (∃ root',
     justify_format repr_str find_spliced root "star_data" (VInt 1234) 14
     = Ok root' ∧
     text_at root' p = Some "1,234" ∧
     text_at root' q = Some " ......... ") ∧
  (∀ (fs : gmap string element) (fname : string) (v : vals)
     (loc0 loc1 loc2 : pyval),
     fs !! fname = Some root →
     star v = VInt 1234 →
     loc v = VList [loc0; loc1; loc2] →
     (all_writable repr_str (substitutions v loc0 loc1 loc2) →
      ∃ fs', svg_overwrite repr_str find_spliced fs fname v = Ok fs') ∧
     (∀ fs',
        svg_overwrite repr_str find_spliced fs fname v = Ok fs' →
        ∃ root',
          fs' !! fname = Some root' ∧
          text_at root' p = Some "1,234" ∧
          text_at root' q = Some " ......... ")).
Proof.
  intros Hp Hq. split.
  - destruct (RenderFacts.justify_format_spec repr_str find_spliced
                root "star_data" (VInt 1234) 14 eq_refl (or_intror eq_refl))
      as (root' & Hrun & _ & Htext & Hdots & _).
    exists root'. split; [done|]. split; [by apply Htext | by apply Hdots].
  - intros fs fname v loc0 loc1 loc2 Hfile Hstar Hloc.
    unfold svg_overwrite. rewrite Hfile.
    rewrite (RenderFacts.overwrite_tree_run repr_str find_spliced
               root v loc0 loc1 loc2) by by rewrite Hloc.
    split.
    + intros Htakes.
      destruct (RenderFacts.run_steps_returns repr_str find_spliced
                  (substitutions v loc0 loc1 loc2) root
                  (RenderFacts.substitutions_plain v loc0 loc1 loc2) Htakes)
        as [root' ->].
      by eexists.
    + intros fs'.
      destruct (run_steps repr_str find_spliced root
                  (substitutions v loc0 loc1 loc2)) as [root'|] eqn:Hrun;
        [|done].
      cbn [mbind outcome_bind]. intros [= <-].
      exists (reparsed root'). split; [apply lookup_insert_eq|].
      destruct (RenderFacts.run_steps_effect repr_str find_spliced
                  (substitutions v loc0 loc1 loc2) root root'
                  "star_data" (star v) 14
                  (RenderFacts.substitutions_targets v loc0 loc1 loc2)
                  (RenderFacts.substitutions_plain v loc0 loc1 loc2) Hrun)
        as [Htext Hdots].
      { unfold substitutions. rewrite !elem_of_cons. auto. }
      rewrite Hstar in Htext, Hdots.
      rewrite !XmlFacts.text_at_reparsed, (Htext p Hp), (Hdots q Hq).
      by split.
Qed.

Lemma star_statistic_rendered_witness :
  find Samples.template "star_data" = Some [1; 5]%nat ∧
  find Samples.template "star_data_dots" = Some [1; 4]%nat ∧
  all_writable Samples.quote
    (substitutions Samples.values (VStr "0") (VStr "0") (VStr "0")) ∧
  ∃ fs' root',
    svg_overwrite Samples.quote Samples.strict Samples.disk "dark_mode.svg"
                  Samples.values
    = Ok fs' ∧
    fs' !! "dark_mode.svg" = Some root' ∧
    text_at root' [1; 5]%nat = Some "1,234" ∧
    text_at root' [1; 4]%nat = Some " ......... ".
Proof.
  assert (all_writable Samples.quote
            (substitutions Samples.values (VStr "0") (VStr "0") (VStr "0")))
    as Htakes by (repeat constructor).
  split; [reflexivity|]. split; [reflexivity|]. split; [exact Htakes|].
  destruct (proj2 (star_statistic_rendered Samples.quote Samples.strict
                     Samples.template [1; 5]%nat [1; 4]%nat eq_refl eq_refl)
              Samples.disk "dark_mode.svg" Samples.values
              (VStr "0") (VStr "0") (VStr "0") eq_refl eq_refl eq_refl)
    as [Hreturns Hshows].
  destruct (Hreturns Htakes) as [fs' Hrun].
  destruct (Hshows fs' Hrun) as (root' & Hfile & Htext & Hdots).
  by exists fs', root'.
Defined.

(** ** The age string *)

(** C5.  For every birth date and every reading of the clock, the age
    string is the calendar difference in years, months and days, each
    count followed by its unit with an "s" exactly when the count is
    not 1; the computation returns as soon as it has fuel for one step.
    When the birth date is not after the reading, the years and months
    count the whole months gone by and the days the whole days since
    the birth date moved on by those months.  When the birth date is
    after the reading, the counts are those still to go and none is
    above zero: the years and months count the whole months from the
    reading to the birth date, and the days the whole days from the
    reading to the birth date moved back by those months.  When the
    birth date lies exactly [n] full years before the reading, the
    string counts [n] years (plural unless [n] is 1), 0 months and 0
    days. *)
Theorem uptime_string_plural (fuel : nat) (utcnow bday : datetime) :
  (1 <= fuel)%nat → Dates.valid utcnow → Dates.valid bday →
  (∃ diff,
     between fuel utcnow bday = Some diff ∧
     uptime_string fuel utcnow bday
     = Some (unit_text (years diff) "year" +:+ ", "
             +:+ unit_text (months diff) "month" +:+ ", "
             +:+ unit_text (days diff) "day") ∧
     (Dates.ltb utcnow bday = false →
      ∃ k, (0 <= k)%Z ∧
           years diff = (k / 12)%Z ∧ months diff = (k mod 12)%Z ∧
           Dates.ltb utcnow (months_on k bday) = false ∧
           Dates.ltb utcnow (months_on (k + 1) bday) = true ∧
           (0 <= days diff)%Z ∧
           days diff
           = (elapsed utcnow (months_on k bday) / 86400000000)%Z) ∧
     (Dates.ltb utcnow bday = true →
      ∃ k, (k <= 0)%Z ∧
           years diff = Z.quot k 12 ∧ months diff = Z.rem k 12 ∧
           Dates.ltb (months_on k bday) utcnow = false ∧
           Dates.ltb (months_on (k - 1) bday) utcnow = true ∧
           (days diff <= 0)%Z ∧
           days diff
           = Z.quot (elapsed utcnow (months_on k bday) / 1000000) 86400)) ∧
  (∀ n, (0 <= n)%Z →
        utcnow = Datetime (year bday + n) (month bday) (day bday) (hour bday)
                   (minute bday) (second bday) (microsecond bday) →
        uptime_string fuel utcnow bday
        = Some (str_int n +:+ " year" +:+ (if (n =? 1)%Z then "" else "s")
                +:+ ", 0 months, 0 days")).
Proof.
  intros Hfuel Hnow Hbday.
  assert (∀ n w, str_int n +:+ " " +:+ w
                 +:+ str_mul "s" (Z.b2z (negb (n =? 1)%Z))
                 = unit_text n w) as Hunit.
  { intros n w. unfold unit_text. by destruct (n =? 1)%Z. }
  split.
  - destruct (DatesFacts.between_total fuel utcnow bday Hfuel) as [diff Hdiff];
      [apply Hnow | apply Hbday|].
    exists diff. split; [done|]. split.
    + unfold uptime_string. rewrite Hdiff. simpl. f_equal.
      rewrite <- !Hunit.
      by rewrite !FetchFacts.append_assoc.
    + split.
      * intros Hge.
        destruct (DatesFacts.between_whole_months fuel utcnow bday
                    Hfuel Hnow Hbday Hge)
          as (diff' & k & Hdiff' & Hk & Hy & Hm & Hnot & Hnext & He & Hd).
        rewrite Hdiff in Hdiff'. injection Hdiff' as <-.
        exists k. repeat (split; [done|]). split; [|done].
        rewrite Hd. apply Z.div_pos; lia.
      * intros Hlt.
        destruct (MoreDatesFacts.between_whole_months_ahead fuel utcnow bday
                    Hfuel Hnow Hbday Hlt)
          as (diff' & k & Hdiff' & Hk & Hy & Hm & Hnot & Hprev & He & Hd).
        rewrite Hdiff in Hdiff'. injection Hdiff' as <-.
        exists k. repeat (split; [done|]). split; [|done].
        rewrite Hd. apply Z.quot_le_upper_bound; [lia|].
        assert (elapsed utcnow (months_on k bday) / 1000000 <= 0)%Z
          by (apply Z.div_le_upper_bound; lia).
        lia.
  - intros n Hn ->. unfold uptime_string.
    rewrite DatesFacts.between_years by done.
    simpl. by destruct (n =? 1)%Z.
Qed.

Lemma uptime_string_plural_witness :
  (1 <= 1)%nat ∧ Dates.valid Samples.noon ∧ Dates.valid BIRTHDAY ∧
  uptime_string 1 Samples.noon BIRTHDAY = Some "22 years, 6 months, 30 days".
Proof.
  assert (Dates.valid Samples.noon) as Hnow by (vm_compute; intuition congruence).
  assert (Dates.valid BIRTHDAY) as Hbday by (vm_compute; intuition congruence).
  split; [lia|]. split; [exact Hnow|]. split; [exact Hbday|].
  destruct (proj1 (uptime_string_plural 1 Samples.noon BIRTHDAY
                     (le_n 1) Hnow Hbday)) as (diff & Hdiff & Hstring & _).
  rewrite Hstring. vm_compute in Hdiff. injection Hdiff as <-. reflexivity.
Defined.

(** ** The fetchers and the main block *)

Section FetchClaims.
Variable post : list request → request → response.
Variable ACCESS_TOKEN : string.
Variable env_USER_NAME : option string.
Variable repr_str : string → string.
Variable find_spliced : element → string → outcome (option path).
Variable int_of_str : string → option Z.

(** C4.  For each of the three fetch calls, when the response to its
    request is not a 200 the call raises a [RuntimeError] whose message
    holds the call's name, the status code and the response body, and
    returns nothing; it has then posted that one request and no other,
    and whatever the run would do with the result is skipped.  When the
    first call of the main block fails so, the run ends with that
    error. *)
Theorem fetch_failure_raises (w : world) (n : Z) :
  (∀ username,
     let req := graphql_request ACCESS_TOKEN user_query
                  (login_variables username) in
     let resp := post (posted w) req in
     let msg := failure_message "user_getter" resp in
     QUERY_COUNT w !! "user_getter" = Some n →
     status_code resp ≠ 200%Z →
     user_getter post ACCESS_TOKEN username w
     = (Raise (RuntimeError msg), after_call w "user_getter" n req) ∧
     tells msg "user_getter" resp ∧
     (∀ B (rest : pyval * pyval → M B),
        (user_getter post ACCESS_TOKEN username ≫= rest) w
        = (Raise (RuntimeError msg), after_call w "user_getter" n req)) ∧
     (username = USER_NAME env_USER_NAME →
      ∀ fuel utcnow,
        main post ACCESS_TOKEN env_USER_NAME repr_str find_spliced int_of_str
       fuel utcnow w
        = Some (Raise (RuntimeError msg),
                after_call w "user_getter" n req))) ∧
  (∀ username,
     let req := graphql_request ACCESS_TOKEN follower_query
                  (login_variables username) in
     let resp := post (posted w) req in
     let msg := failure_message "follower_getter" resp in
     QUERY_COUNT w !! "follower_getter" = Some n →
     status_code resp ≠ 200%Z →
     follower_getter post ACCESS_TOKEN int_of_str username w
     = (Raise (RuntimeError msg), after_call w "follower_getter" n req) ∧
     tells msg "follower_getter" resp ∧
     (∀ B (rest : Z → M B),
        (follower_getter post ACCESS_TOKEN int_of_str username ≫= rest) w
        = (Raise (RuntimeError msg),
           after_call w "follower_getter" n req))) ∧
  (∀ kind aff cursor,
     let req := graphql_request ACCESS_TOKEN repos_query
                  (repos_variables (USER_NAME env_USER_NAME) aff cursor) in
     let resp := post (posted w) req in
     let msg := failure_message "graph_repos_stars" resp in
     QUERY_COUNT w !! "graph_repos_stars" = Some n →
     status_code resp ≠ 200%Z →
     graph_repos_stars post ACCESS_TOKEN env_USER_NAME kind aff cursor w
     = (Raise (RuntimeError msg), after_call w "graph_repos_stars" n req) ∧
     tells msg "graph_repos_stars" resp ∧
     (∀ B (rest : pyval → M B),
        (graph_repos_stars post ACCESS_TOKEN env_USER_NAME kind aff cursor
         ≫= rest) w
        = (Raise (RuntimeError msg),
           after_call w "graph_repos_stars" n req))).
Proof.
  split; [|split].
  - intros username req resp msg Hcount Hstatus.
    assert (user_getter post ACCESS_TOKEN username w
            = (Raise (RuntimeError msg), after_call w "user_getter" n req))
      as Hcall by by apply FetchFacts.call_fails.
    split; [exact Hcall|].
    split; [apply FetchFacts.failure_message_parts|].
    split; [intros B rest; unfold mbind at 1, M_bind; by rewrite Hcall|].
    intros -> fuel utcnow. unfold main. by rewrite Hcall.
  - intros username req resp msg Hcount Hstatus.
    assert (follower_getter post ACCESS_TOKEN int_of_str username w
            = (Raise (RuntimeError msg),
               after_call w "follower_getter" n req))
      as Hcall by by apply FetchFacts.call_fails.
    split; [exact Hcall|].
    split; [apply FetchFacts.failure_message_parts|].
    intros B rest. unfold mbind at 1, M_bind. by rewrite Hcall.
  - intros kind aff cursor req resp msg Hcount Hstatus.
    assert (graph_repos_stars post ACCESS_TOKEN env_USER_NAME kind aff cursor
              w
            = (Raise (RuntimeError msg),
               after_call w "graph_repos_stars" n req))
      as Hcall by by apply FetchFacts.call_fails.
    split; [exact Hcall|].
    split; [apply FetchFacts.failure_message_parts|].
    intros B rest. unfold mbind at 1, M_bind. by rewrite Hcall.
Qed.

(** C6.  For every repositories page that comes back with status 200,
    [graph_repos_stars] in 'stars' mode returns the sum of the star
    counts of the edges of that page, after the one request it posts;
    what the page says about further pages plays no part.  The main
    block asks for the stars once, with no cursor: the star value it
    gathers is what that one call returns, and the requests of a whole
    run are the user query, three repositories queries with a null
    cursor and the follower query. *)
Theorem stars_single_page (w : world) :
  (∀ n aff cursor body data user r edges counts,
     let req := graphql_request ACCESS_TOKEN repos_query
                  (repos_variables (USER_NAME env_USER_NAME) aff cursor) in
     let resp := post (posted w) req in
     QUERY_COUNT w !! "graph_repos_stars" = Some n →
     status_code resp = 200%Z →
     decoded resp = Some body →
     subscript body "data" = Ok data →
     subscript data "user" = Ok user →
     subscript user "repositories" = Ok r →
     subscript r "edges" = Ok (VList edges) →
     Forall2 (λ e c, star_count e = Ok (VInt c)) edges counts →
     graph_repos_stars post ACCESS_TOKEN env_USER_NAME "stars" aff cursor w
     = (Ok (VInt (total counts)),
        after_call w "graph_repos_stars" n req)) ∧
  (∀ age v w',
     gather post ACCESS_TOKEN env_USER_NAME int_of_str age w = (Ok v, w') →
     (∃ w1, graph_repos_stars post ACCESS_TOKEN env_USER_NAME
              "stars" ["OWNER"] VNone w = (Ok (star v), w1)) ∧
     posted w'
     = (posted w
        ++ [graphql_request ACCESS_TOKEN repos_query
              (repos_variables (USER_NAME env_USER_NAME) ["OWNER"] VNone);
            graphql_request ACCESS_TOKEN repos_query
              (repos_variables (USER_NAME env_USER_NAME) ["OWNER"] VNone);
            graphql_request ACCESS_TOKEN repos_query
              (repos_variables (USER_NAME env_USER_NAME)
                 ["OWNER"; "COLLABORATOR"; "ORGANIZATION_MEMBER"] VNone);
            graphql_request ACCESS_TOKEN follower_query
              (login_variables (USER_NAME env_USER_NAME))])%list) ∧
  (∀ fuel utcnow w',
     main post ACCESS_TOKEN env_USER_NAME repr_str find_spliced int_of_str
       fuel utcnow w
     = Some (Ok (), w') →
     posted w'
     = (posted w
        ++ [graphql_request ACCESS_TOKEN user_query
              (login_variables (USER_NAME env_USER_NAME));
            graphql_request ACCESS_TOKEN repos_query
              (repos_variables (USER_NAME env_USER_NAME) ["OWNER"] VNone);
            graphql_request ACCESS_TOKEN repos_query
              (repos_variables (USER_NAME env_USER_NAME) ["OWNER"] VNone);
            graphql_request ACCESS_TOKEN repos_query
              (repos_variables (USER_NAME env_USER_NAME)
                 ["OWNER"; "COLLABORATOR"; "ORGANIZATION_MEMBER"] VNone);
            graphql_request ACCESS_TOKEN follower_query
              (login_variables (USER_NAME env_USER_NAME))])%list).
Proof.
  assert (∀ age v w0 w',
            gather post ACCESS_TOKEN env_USER_NAME int_of_str age w0
            = (Ok v, w') →
            (∃ w1, graph_repos_stars post ACCESS_TOKEN env_USER_NAME
                     "stars" ["OWNER"] VNone w0 = (Ok (star v), w1)) ∧
            posted w'
            = (posted w0
               ++ [graphql_request ACCESS_TOKEN repos_query
                     (repos_variables (USER_NAME env_USER_NAME)
                        ["OWNER"] VNone);
                   graphql_request ACCESS_TOKEN repos_query
                     (repos_variables (USER_NAME env_USER_NAME)
                        ["OWNER"] VNone);
                   graphql_request ACCESS_TOKEN repos_query
                     (repos_variables (USER_NAME env_USER_NAME)
                        ["OWNER"; "COLLABORATOR"; "ORGANIZATION_MEMBER"]
                        VNone);
                   graphql_request ACCESS_TOKEN follower_query
                     (login_variables (USER_NAME env_USER_NAME))])%list)
    as Hgather.
  { intros age v w0 w' Hrun.
    apply FetchFacts.gather_returns in Hrun
      as (star & repo & count & follower & w1 & w2 & w3
          & Hstar & Hrepo & Hcount & Hfollower & ->).
    split; [by exists w1|].
    apply FetchFacts.graph_repos_stars_returns in Hstar as [Hstar _].
    apply FetchFacts.graph_repos_stars_returns in Hrepo as [Hrepo _].
    apply FetchFacts.graph_repos_stars_returns in Hcount as [Hcount _].
    apply FetchFacts.follower_getter_returns in Hfollower as [Hfollower _].
    rewrite Hfollower, Hcount, Hrepo, Hstar.
    by rewrite <- !(assoc_L (++)%list). }
  split; [|split].
  - intros n aff cursor body data user r edges counts req resp
           Hcount Hstatus Hbody Hdata Huser Hrepos Hedges Hstars.
    unfold graph_repos_stars.
    etransitivity;
      [exact (FetchFacts.call_succeeds post ACCESS_TOKEN "graph_repos_stars"
                repos_query _ _ w n Hcount Hstatus)|].
    f_equal. fold req resp. unfold json_of. rewrite Hbody. simpl.
    rewrite Hdata. simpl. rewrite Huser. simpl. rewrite Hrepos. simpl.
    rewrite Hedges. simpl.
    by rewrite (FetchFacts.sum_stars_counts 0 edges counts Hstars).
  - intros age v w'. apply Hgather.
  - intros fuel utcnow w' Hrun.
    apply FetchFacts.main_returns in Hrun
      as (user & w1 & age & v & w2 & Huser & _ & Hstats & Hfiles).
    apply FetchFacts.user_getter_returns in Huser as [Huser _].
    apply Hgather in Hstats as [_ Hstats].
    apply FetchFacts.overwrite_all_returns in Hfiles as [Hfiles _];
      [|compute_done].
    rewrite Hfiles, Hstats, Huser. by rewrite <- (assoc_L (++)%list).
Qed.

(** C9.  In a run of the main block that returns, the value gathered
    for the contributed repositories and handed to [svg_overwrite] is
    the pair of the count that [graph_repos_stars] returned and 0; in
    each template file the text of the element [contrib_data] is then
    the string form of that pair, which for an int count [n] reads
    [(n, 0)] and is not the formatted count. *)
Theorem contrib_data_pair (fuel : nat) (utcnow : datetime) (w w' : world) :
  main post ACCESS_TOKEN env_USER_NAME repr_str find_spliced int_of_str
       fuel utcnow w
  = Some (Ok (), w') →
  ∃ count w2 w3 age v w4 w5,
    graph_repos_stars post ACCESS_TOKEN env_USER_NAME "repos"
      ["OWNER"; "COLLABORATOR"; "ORGANIZATION_MEMBER"] VNone w2
    = (Ok count, w3) ∧
    gather post ACCESS_TOKEN env_USER_NAME int_of_str age w4 = (Ok v, w5) ∧
    contrib v = VTuple [count; VInt 0] ∧
    overwrite_all repr_str find_spliced v SVG_FILES w5 = (Ok (), w') ∧
    ∀ fname root p,
      fname ∈ SVG_FILES →
      files w !! fname = Some root →
      find root "contrib_data" = Some p →
      ∃ root',
        files w' !! fname = Some root' ∧
        text_at root' p = Some (str repr_str (VTuple [count; VInt 0])) ∧
        ∀ n, count = VInt n →
             text_at root' p = Some ("(" +:+ str_int n +:+ ", 0)") ∧
             text_at root' p ≠ Some (format_comma n).
Proof.
  intros Hrun.
  apply FetchFacts.main_returns in Hrun
    as (user & w1 & age & v & w4 & Huser & _ & Hstats & Hfiles).
  pose proof Hstats as Hgather.
  apply FetchFacts.gather_returns in Hstats
    as (star & repo & count & follower & w2 & w3 & w5
        & Hstar & Hrepo & Hcount & Hfollower & ->).
  eexists count, w3, w5, age, _, w1, w4.
  split; [exact Hcount|]. split; [exact Hgather|]. split; [reflexivity|].
  split; [exact Hfiles|].
  intros fname root p Hname Hroot Hp.
  apply FetchFacts.user_getter_returns in Huser as [_ Hf1].
  apply FetchFacts.graph_repos_stars_returns in Hstar as [_ Hf2].
  apply FetchFacts.graph_repos_stars_returns in Hrepo as [_ Hf3].
  apply FetchFacts.graph_repos_stars_returns in Hcount as [_ Hf4].
  apply FetchFacts.follower_getter_returns in Hfollower as [_ Hf5].
  apply FetchFacts.overwrite_all_returns in Hfiles as (_ & _ & Hfiles);
    [|compute_done].
  destruct (Hfiles fname Hname) as (r & root' & Hr & Htree & Hfinal).
  rewrite Hf5, Hf4, Hf3, Hf2, Hf1, Hroot in Hr. injection Hr as <-.
  exists (reparsed root'). split; [exact Hfinal|].
  rewrite (RenderFacts.overwrite_tree_run repr_str find_spliced root _
             (VStr "0") (VStr "0") (VStr "0")) in Htree by done.
  destruct (RenderFacts.run_steps_effect repr_str find_spliced _ root root'
              "contrib_data" (VTuple [count; VInt 0]) 0
              (RenderFacts.substitutions_targets _ _ _ _)
              (RenderFacts.substitutions_plain _ _ _ _) Htree)
    as [Htext _].
  { unfold substitutions. simpl. rewrite !elem_of_cons. auto 10. }
  rewrite XmlFacts.text_at_reparsed, (Htext p Hp).
  assert (nonempty (Some (written repr_str (VTuple [count; VInt 0])))
          = Some (written repr_str (VTuple [count; VInt 0]))) as ->
    by reflexivity.
  split; [done|].
  intros n ->. split.
  - simpl. unfold join. simpl. by rewrite FetchFacts.append_assoc.
  - simpl. intros [= Heq]. by apply PyFacts.format_comma_no_paren in Heq.
Qed.

End FetchClaims.

Lemma fetch_failure_raises_witness :
  QUERY_COUNT Samples.start !! "graph_repos_stars" = Some 0%Z ∧
  status_code
    (Samples.down (posted Samples.start)
       (graphql_request "secret" repos_query
          (repos_variables "Alans44" ["OWNER"] VNone))) ≠ 200%Z ∧
  graph_repos_stars Samples.down "secret" None "stars" ["OWNER"] VNone
                    Samples.start
  = (Raise (RuntimeError "graph_repos_stars failed → 502: Bad Gateway"),
     after_call Samples.start "graph_repos_stars" 0
       (graphql_request "secret" repos_query
          (repos_variables "Alans44" ["OWNER"] VNone))).
Proof.
  assert (status_code
            (Samples.down (posted Samples.start)
               (graphql_request "secret" repos_query
                  (repos_variables "Alans44" ["OWNER"] VNone))) ≠ 200%Z)
    as Hstatus by (vm_compute; discriminate).
  split; [reflexivity|]. split; [exact Hstatus|].
  exact (proj1 (proj2 (proj2
           (fetch_failure_raises Samples.down "secret" None Samples.quote
              Samples.strict Samples.no_int Samples.start 0))
           "stars" ["OWNER"] VNone eq_refl Hstatus)).
Defined.

Lemma stars_single_page_witness :
  let req := graphql_request "secret" repos_query
               (repos_variables "Alans44" ["OWNER"] VNone) in
  let resp := Samples.api (posted Samples.asked) req in
  QUERY_COUNT Samples.asked !! "graph_repos_stars" = Some 0%Z ∧
  status_code resp = 200%Z ∧
  decoded resp
  = Some (repos_page (VInt 17) [1000; 200; 34]%Z (VStr "Y3Vyc29y") true) ∧
  graph_repos_stars Samples.api "secret" None "stars" ["OWNER"] VNone
                    Samples.asked
  = (Ok (VInt 1234), after_call Samples.asked "graph_repos_stars" 0 req).
Proof.
  intros req resp.
  split; [reflexivity|]. split; [reflexivity|]. split; [reflexivity|].
  exact (proj1 (stars_single_page Samples.api "secret" None Samples.quote
                  Samples.strict Samples.no_int Samples.asked)
           0%Z ["OWNER"] VNone _ _ _ _
           (edge <$> [1000; 200; 34]%Z) [1000; 200; 34]%Z
           eq_refl eq_refl eq_refl eq_refl eq_refl eq_refl eq_refl
           (FetchFacts.star_count_edges [1000; 200; 34]%Z)).
Defined.

Lemma contrib_data_pair_witness :
  ∃ w' count root',
    main Samples.api "secret" None Samples.quote Samples.strict
         Samples.no_int 1 Samples.noon Samples.start
    = Some (Ok (), w') ∧
    "dark_mode.svg" ∈ SVG_FILES ∧
    files Samples.start !! "dark_mode.svg" = Some Samples.template ∧
    find Samples.template "contrib_data" = Some [1; 3]%nat ∧
    files w' !! "dark_mode.svg" = Some root' ∧
    text_at root' [1; 3]%nat
    = Some (str Samples.quote (VTuple [count; VInt 0])).
Proof.
  assert (∃ w', main Samples.api "secret" None Samples.quote Samples.strict
                     Samples.no_int 1 Samples.noon Samples.start
                = Some (Ok (), w'))
    as [w' Hrun] by (vm_compute; eexists; reflexivity).
  assert ("dark_mode.svg" ∈ SVG_FILES) as Hname by (by left).
  destruct (contrib_data_pair Samples.api "secret" None Samples.quote
              Samples.strict Samples.no_int 1 Samples.noon Samples.start w'
              Hrun)
    as (count & _ & _ & _ & _ & _ & _ & _ & _ & _ & _ & Hfiles).
  destruct (Hfiles "dark_mode.svg" Samples.template [1; 3]%nat Hname
              eq_refl eq_refl) as (root' & Hroot' & Htext & _).
  exists w', count, root'. repeat split; assumption || reflexivity.
Defined.

(** A whole run against the sample API: the star count is the sum of
    the one page fetched although the page announces more, the
    contributed repositories read as a pair, and their empty dot
    leader leaves no text in the file. *)
Example sample_run :
  ∃ w' root',
    main Samples.api "secret" None Samples.quote Samples.strict
         Samples.no_int 1 Samples.noon Samples.start
    = Some (Ok (), w') ∧
    length (posted w') = 5%nat ∧
    files w' !! "light_mode.svg" = Some root' ∧
    text_at root' [0; 1]%nat = Some "22 years, 6 months, 30 days" ∧
    text_at root' [1; 5]%nat = Some "1,234" ∧
    text_at root' [1; 4]%nat = Some " ......... " ∧
    text_at root' [1; 3]%nat = Some "(23, 0)" ∧
    text_at root' [1; 2]%nat = None.
Proof. vm_compute. do 2 eexists. repeat split; reflexivity. Qed.
(** ** Further properties of the renderer *)

Import Props.

(** X1.  The element [find_and_replace] rewrites lies below the root
    and is the first of the elements below the root, in document order,
    to carry the identifier: every other element below the root that
    carries it comes later, and every other carrier, the root included
    when it carries the identifier too, is left as it was.  The
    identifier has no quote character and lxml takes the new text. *)
Theorem find_and_replace_first_match (repr_str : string → string)
        (find_spliced : element → string → outcome (option path))
        (root : element) (eid : string) (v : pyval) (p : path) :
  quote_free eid = true →
  xml_compatible (str repr_str v) = true →
  find root eid = Some p →
  ∃ root',
    find_and_replace repr_str find_spliced root eid v = Ok root' ∧
    p ≠ [] ∧
    ∀ q el,
      get_at root q = Some el → get el "id" = Some eid →
      (q ≠ [] → before p q = true) ∧
      (q ≠ p → own <$> get_at root' q = Some (own el)).
Proof.
  intros Hplain Htakes Hp.
  destruct (RenderFacts.find_and_replace_returns repr_str find_spliced
              root eid v Hplain (or_intror Htakes)) as [root' Hrun].
  exists root'. split; [done|].
  pose proof Hp as Hfound.
  apply EtreeFacts.first_descendant_Some in Hfound as (Hne & _).
  split; [done|]. intros q el Hel Hid. split.
  - intros Hq.
    apply (MoreRenderFacts.first_descendant_first (has_id eid) root p q el);
      try done.
    by apply bool_decide_eq_true.
  - intros Hqp.
    rewrite (RenderFacts.find_and_replace_other repr_str find_spliced
               root root' eid v q Hplain Hrun) by congruence.
    by rewrite Hel.
Qed.

Lemma find_and_replace_first_match_witness :
  quote_free "star_data" = true ∧
  xml_compatible (str Samples.quote (VInt 7)) = true ∧
  find Samples.template "star_data" = Some [1; 5]%nat ∧
  ∃ root',
    find_and_replace Samples.quote Samples.strict Samples.template
                     "star_data" (VInt 7)
    = Ok root' ∧
    [1; 5]%nat ≠ [] ∧
    ∀ q el,
      get_at Samples.template q = Some el →
      get el "id" = Some "star_data" →
      (q ≠ [] → before [1; 5]%nat q = true) ∧
      (q ≠ [1; 5]%nat → own <$> get_at root' q = Some (own el)).
Proof.
  split; [reflexivity|]. split; [reflexivity|]. split; [reflexivity|].
  exact (find_and_replace_first_match Samples.quote Samples.strict
           Samples.template "star_data" (VInt 7) [1; 5]%nat
           eq_refl eq_refl eq_refl).
Defined.

(** X2.  For an identifier without a quote character, a call of
    [find_and_replace] or of [justify_format] that returns has touched
    texts and [x] attributes only: tags, tails, the other attributes
    and the shape of the tree stay, and so does the element every
    identifier finds.  [justify_format] returns when no element carries
    the identifier or lxml takes the text written for the value, and
    raises [ValueError] when an element carries the identifier and lxml
    refuses the text. *)
Theorem helper_keeps_skeleton (repr_str : string → string)
        (find_spliced : element → string → outcome (option path))
        (root : element) (eid : string) (v : pyval) (length : Z) :
  quote_free eid = true →
  (∀ root',
     find_and_replace repr_str find_spliced root eid v = Ok root' →
     skeleton root' = skeleton root ∧
     ∀ e, find root' e = find root e) ∧
  (∀ root',
     justify_format repr_str find_spliced root eid v length = Ok root' →
     skeleton root' = skeleton root ∧
     ∀ e, find root' e = find root e) ∧
  (find root eid = None ∨ writable repr_str v →
   ∃ root', justify_format repr_str find_spliced root eid v length
            = Ok root') ∧
  (∀ p, find root eid = Some p →
        xml_compatible (written repr_str v) = false →
        justify_format repr_str find_spliced root eid v length
        = Raise ValueError).
Proof.
  intros Hplain. split; [|split; [|split]].
  - intros root' Hrun. split.
    + by eapply MoreRenderFacts.find_and_replace_skeleton.
    + intros e.
      exact (RenderFacts.find_and_replace_find repr_str find_spliced
               root root' eid v e Hplain Hrun).
  - intros root' Hrun. split.
    + by eapply MoreRenderFacts.justify_format_skeleton.
    + by destruct (RenderFacts.justify_format_effect repr_str find_spliced
                     root root' eid v length Hplain Hrun) as [Hfind _].
  - by apply RenderFacts.justify_format_returns.
  - intros p Hp Hbad.
    by apply (RenderFacts.justify_format_refused repr_str find_spliced
                root eid v length p).
Qed.

Lemma helper_keeps_skeleton_witness :
  quote_free "age_data" = true ∧
  find Samples.template "age_data" = Some [0; 1]%nat ∧
  xml_compatible (written Samples.quote (VStr (String "000" "1 year")))
  = false ∧
  justify_format Samples.quote Samples.strict Samples.template "age_data"
                 (VStr (String "000" "1 year")) 0
  = Raise ValueError.
Proof.
  split; [reflexivity|]. split; [reflexivity|]. split; [reflexivity|].
  exact (proj2 (proj2 (proj2
           (helper_keeps_skeleton Samples.quote Samples.strict
              Samples.template "age_data" (VStr (String "000" "1 year")) 0
              eq_refl)))
           [0; 1]%nat eq_refl eq_refl).
Defined.

(** X3.  [find_and_replace] is idempotent: for an identifier without a
    quote character, after a call that returned a second call with the
    same identifier and value returns the tree the first call left. *)
Theorem find_and_replace_idempotent (repr_str : string → string)
        (find_spliced : element → string → outcome (option path))
        (root root' : element) (eid : string) (v : pyval) :
  quote_free eid = true →
  find_and_replace repr_str find_spliced root eid v = Ok root' →
  find_and_replace repr_str find_spliced root' eid v = Ok root'.
Proof.
  intros Hplain Hrun.
  pose proof (RenderFacts.find_and_replace_find repr_str find_spliced
                root root' eid v eid Hplain Hrun) as Hfind.
  pose proof (RenderFacts.find_and_replace_Ok repr_str find_spliced
                root root' eid v Hplain Hrun) as Hroot'.
  rewrite RenderFacts.find_and_replace_eq in Hrun by done.
  rewrite RenderFacts.find_and_replace_eq, Hfind by done.
  destruct (find root eid) as [p|]; [|by subst].
  destruct (xml_compatible (str repr_str v)); [|done]. f_equal.
  set (px := getparent root p ≫= λ par, get par "x") in *.
  assert (getparent root' p ≫= (λ par, get par "x") = px) as ->.
  { pose proof (EtreeFacts.getparent_update
                  (retouch (str repr_str v) px) root p
                  (RenderFacts.children_retouch _ _)) as Hown.
    rewrite <- Hroot' in Hown. unfold px.
    destruct (getparent root' p) as [a|], (getparent root p) as [b|];
      simpl in *; try done.
    unfold get. by injection Hown as _ -> _ _. }
  rewrite Hroot' at 1. rewrite EtreeFacts.update_at_compose.
  rewrite Hroot'. apply MoreRenderFacts.update_at_ext.
  intros el. apply MoreRenderFacts.retouch_twice.
Qed.

Lemma find_and_replace_idempotent_witness :
  ∃ root',
    quote_free "star_data" = true ∧
    find_and_replace Samples.quote Samples.strict Samples.template
                     "star_data" (VInt 7)
    = Ok root' ∧
    find_and_replace Samples.quote Samples.strict root' "star_data" (VInt 7)
    = Ok root'.
Proof.
  assert (∃ root', find_and_replace Samples.quote Samples.strict
                     Samples.template "star_data" (VInt 7) = Ok root')
    as [root' Hrun] by (eexists; reflexivity).
  exists root'. split; [reflexivity|]. split; [exact Hrun|].
  exact (find_and_replace_idempotent Samples.quote Samples.strict
           Samples.template root' "star_data" (VInt 7) eq_refl Hrun).
Defined.

(** X4.  The value and its dot leader fill the padding width exactly
    when one or two characters are missing, but run two characters over
    it when three or more are: with [t] the text written and [d] the dot
    leader, [len t + len d] is the width in the first case and the
    width plus 2 in the second; no leader is written when nothing is
    missing.  The identifier has no quote character and lxml takes the
    text written. *)
Theorem justify_format_widths (repr_str : string → string)
        (find_spliced : element → string → outcome (option path))
        (root : element) (eid : string) (v : pyval) (width : Z)
        (p q : path) :
  quote_free eid = true →
  writable repr_str v →
  find root eid = Some p →
  find root (eid +:+ "_dots") = Some q →
  ∃ root' t d,
    justify_format repr_str find_spliced root eid v width = Ok root' ∧
    text_at root' p = Some t ∧ text_at root' q = Some d ∧
    ((width <= len t)%Z → d = "") ∧
    ((1 <= width - len t <= 2)%Z → (len t + len d = width)%Z) ∧
    ((3 <= width - len t)%Z → (len t + len d = width + 2)%Z).
Proof.
  intros Hplain Htakes Hp Hq.
  destruct (RenderFacts.justify_format_spec repr_str find_spliced
              root eid v width Hplain (or_intror Htakes))
    as (root' & Hrun & _ & Htext & Hdots & _).
  eexists root', (written repr_str v), _.
  split; [done|]. split; [by apply Htext|]. split; [by apply Hdots|].
  set (t := written repr_str v).
  split; [|split].
  - intros Hfull. by replace (Z.max 0 (width - len t)) with 0%Z by lia.
  - intros Hshort. rewrite MoreRenderFacts.len_dot_leader by lia.
    destruct (Z.leb_spec (Z.max 0 (width - len t)) 2); lia.
  - intros Hlong. rewrite MoreRenderFacts.len_dot_leader by lia.
    destruct (Z.leb_spec (Z.max 0 (width - len t)) 2); lia.
Qed.

Lemma justify_format_widths_witness :
  quote_free "star_data" = true ∧
  writable Samples.quote (VInt 1234) ∧
  find Samples.template "star_data" = Some [1; 5]%nat ∧
  find Samples.template ("star_data" +:+ "_dots") = Some [1; 4]%nat ∧
  ∃ root' t d,
    justify_format Samples.quote Samples.strict Samples.template
                   "star_data" (VInt 1234) 14
    = Ok root' ∧
    text_at root' [1; 5]%nat = Some t ∧ text_at root' [1; 4]%nat = Some d ∧
    ((14 <= len t)%Z → d = "") ∧
    ((1 <= 14 - len t <= 2)%Z → (len t + len d = 14)%Z) ∧
    ((3 <= 14 - len t)%Z → (len t + len d = 14 + 2)%Z).
Proof.
  split; [reflexivity|]. split; [reflexivity|]. split; [reflexivity|].
  split; [reflexivity|].
  exact (justify_format_widths Samples.quote Samples.strict Samples.template
           "star_data" (VInt 1234) 14 [1; 5]%nat [1; 4]%nat
           eq_refl eq_refl eq_refl eq_refl).
Defined.

(** X5.  On a file that parses, a lines-of-code value with entries 0, 1
    and 2 and values of which lxml takes every text, [svg_overwrite]
    returns and every one of the nine fields shows its value in the
    file written: the element of each identifier has the text written
    for its value, and its [_dots] companion the dot leader for the
    field's own width, an empty text being no text at all once the file
    is read again; the lines-of-code fields take entry 2 (total), 0
    (added) and 1 (deleted). *)
Theorem svg_overwrite_fields (repr_str : string → string)
        (find_spliced : element → string → outcome (option path))
        (fs : gmap string element) (fname : string) (root : element)
        (v : vals) (loc0 loc1 loc2 : pyval) :
  fs !! fname = Some root →
  index (loc v) 0 = Ok loc0 → index (loc v) 1 = Ok loc1 →
  index (loc v) 2 = Ok loc2 →
  all_writable repr_str (substitutions v loc0 loc1 loc2) →
  ∃ root',
    svg_overwrite repr_str find_spliced fs fname v
    = Ok (<[fname:=root']> fs) ∧
    ∀ eid x width,
      (eid, x, width)
      ∈ [("age_data", age v, 0%Z); ("commit_data", comm v, 22%Z);
         ("star_data", star v, 14%Z); ("repo_data", repo v, 6%Z);
         ("contrib_data", contrib v, 0%Z); ("follower_data", follow v, 10%Z);
         ("loc_data", loc2, 9%Z); ("loc_add", loc0, 0%Z);
         ("loc_del", loc1, 7%Z)] →
      (∀ p, find root eid = Some p →
            text_at root' p = nonempty (Some (written repr_str x))) ∧
      (∀ q, find root (eid +:+ "_dots") = Some q →
            text_at root' q
            = nonempty
                (Some (dot_leader
                         (Z.max 0 (width - len (written repr_str x)))))).
Proof.
  intros Hfile H0 H1 H2 Htakes. unfold svg_overwrite. rewrite Hfile.
  rewrite (RenderFacts.overwrite_tree_run repr_str find_spliced
             root v loc0 loc1 loc2) by done.
  destruct (RenderFacts.run_steps_returns repr_str find_spliced
              (substitutions v loc0 loc1 loc2) root
              (RenderFacts.substitutions_plain v loc0 loc1 loc2) Htakes)
    as [root' Hrun].
  rewrite Hrun. cbn [mbind outcome_bind]. exists (reparsed root').
  split; [done|].
  intros eid x width Hin.
  destruct (RenderFacts.run_steps_effect repr_str find_spliced
              _ root root' eid x width
              (RenderFacts.substitutions_targets v loc0 loc1 loc2)
              (RenderFacts.substitutions_plain v loc0 loc1 loc2) Hrun Hin)
    as [Htext Hdots].
  split.
  - intros p Hp. by rewrite XmlFacts.text_at_reparsed, (Htext p Hp).
  - intros q Hq. by rewrite XmlFacts.text_at_reparsed, (Hdots q Hq).
Qed.

Lemma svg_overwrite_fields_witness :
  Samples.disk !! "light_mode.svg" = Some Samples.template ∧
  index (loc Samples.values) 0 = Ok (VStr "0") ∧
  index (loc Samples.values) 1 = Ok (VStr "0") ∧
  index (loc Samples.values) 2 = Ok (VStr "0") ∧
  all_writable Samples.quote
    (substitutions Samples.values (VStr "0") (VStr "0") (VStr "0")) ∧
  ∃ root',
    svg_overwrite Samples.quote Samples.strict Samples.disk "light_mode.svg"
                  Samples.values
    = Ok (<["light_mode.svg":=root']> Samples.disk) ∧
    text_at root' [3; 1]%nat = Some "0" ∧
    text_at root' [3; 0]%nat = Some " ........ " ∧
    text_at root' [3; 3]%nat = None.
Proof.
  assert (all_writable Samples.quote
            (substitutions Samples.values (VStr "0") (VStr "0") (VStr "0")))
    as Htakes by (repeat constructor).
  do 4 (split; [reflexivity|]). split; [exact Htakes|].
  destruct (svg_overwrite_fields Samples.quote Samples.strict Samples.disk
              "light_mode.svg" Samples.template Samples.values
              (VStr "0") (VStr "0") (VStr "0")
              eq_refl eq_refl eq_refl eq_refl Htakes)
    as (root' & Hrun & Hfields).
  exists root'. split; [exact Hrun|].
  destruct (Hfields "loc_data" (VStr "0") 9%Z) as [Htext Hdots].
  { rewrite !elem_of_cons. auto 10. }
  destruct (Hfields "loc_add" (VStr "0") 0%Z) as [_ Hnone].
  { rewrite !elem_of_cons. auto 10. }
  split; [exact (Htext [3; 1]%nat eq_refl)|].
  split; [exact (Hdots [3; 0]%nat eq_refl) | exact (Hnone [3; 3]%nat eq_refl)].
Defined.

(** X6.  What [svg_overwrite] leaves alone when it returns: the other
    files; in the file it rewrites, everything but texts and [x]
    attributes, the element each identifier finds, and the whole content
    of every element that is not the first carrier of a data identifier
    or of its [_dots] companion.  The file is compared with what it
    held as a parser gives it, that is with no empty text or tail. *)
Theorem svg_overwrite_frame (repr_str : string → string)
        (find_spliced : element → string → outcome (option path))
        (fs fs' : gmap string element) (fname : string) (v : vals) :
  svg_overwrite repr_str find_spliced fs fname v = Ok fs' →
  ∃ root root',
    fs !! fname = Some root ∧ fs' = <[fname:=root']> fs ∧
    (∀ other, other ≠ fname → fs' !! other = fs !! other) ∧
    skeleton root' = skeleton (reparsed root) ∧
    (∀ e, find root' e = find root e) ∧
    (∀ q, (∀ eid, eid ∈ data_ids →
                  find root eid ≠ Some q ∧
                  find root (eid +:+ "_dots") ≠ Some q) →
          own <$> get_at root' q = own <$> get_at (reparsed root) q).
Proof.
  unfold svg_overwrite. destruct (fs !! fname) as [root|] eqn:Hfile; [|done].
  destruct (overwrite_tree repr_str find_spliced root v) as [r|] eqn:Htree;
    [|done].
  cbn [mbind outcome_bind]. intros [= <-].
  apply RenderFacts.overwrite_tree_Ok in Htree
    as (l0 & l1 & l2 & _ & _ & _ & Hrun).
  pose proof (RenderFacts.substitutions_plain v l0 l1 l2) as Hplain.
  destruct (RenderFacts.run_steps_frame repr_str find_spliced
              (substitutions v l0 l1 l2) root r Hplain Hrun)
    as (Hfind & Hother).
  exists root, (reparsed r).
  split; [done|]. split; [done|].
  split; [intros other Hne; by rewrite lookup_insert_ne|].
  split.
  { rewrite !MoreRenderFacts.skeleton_reparsed. f_equal.
    by eapply MoreRenderFacts.run_steps_skeleton. }
  split; [intros e; by rewrite XmlFacts.find_reparsed|].
  intros q Hq. apply MoreRenderFacts.own_at_reparsed, Hother. intros t Ht.
  apply MoreRenderFacts.targets_data_ids in Ht as (eid & Heid & [-> | ->]);
    by apply Hq.
Qed.

Lemma svg_overwrite_frame_witness :
  ∃ fs' root root',
    svg_overwrite Samples.quote Samples.strict Samples.disk "dark_mode.svg"
                  Samples.values
    = Ok fs' ∧
    Samples.disk !! "dark_mode.svg" = Some root ∧
    fs' !! "light_mode.svg" = Samples.disk !! "light_mode.svg" ∧
    fs' = <["dark_mode.svg":=root']> Samples.disk ∧
    skeleton root' = skeleton (reparsed root).
Proof.
  assert (∃ fs', svg_overwrite Samples.quote Samples.strict Samples.disk
                   "dark_mode.svg" Samples.values = Ok fs') as [fs' Hrun]
    by (vm_compute; eexists; reflexivity).
  destruct (svg_overwrite_frame Samples.quote Samples.strict Samples.disk fs'
              "dark_mode.svg" Samples.values Hrun)
    as (root & root' & Hroot & Hfs' & Hothers & Hskel & _).
  exists fs', root, root'. split; [exact Hrun|]. split; [exact Hroot|].
  split; [apply Hothers; discriminate|]. split; [exact Hfs' | exact Hskel].
Defined.

(** X7.  When [svg_overwrite] returns and when it raises: a file that
    does not parse makes it raise.  On a file that parses, six fields
    are written before the lines-of-code value is looked into: when
    lxml takes the texts of their values, a lines-of-code list or tuple
    with fewer than three entries makes the call raise [IndexError],
    and with three or more entries and texts that lxml takes
    throughout, the call returns the disk with that one file
    rewritten. *)
Theorem svg_overwrite_returns (repr_str : string → string)
        (find_spliced : element → string → outcome (option path))
        (fs : gmap string element) (fname : string) (v : vals) :
  (fs !! fname = None →
   ∃ e, svg_overwrite repr_str find_spliced fs fname v = Raise e) ∧
  (∀ root items,
     fs !! fname = Some root →
     loc v = VList items ∨ loc v = VTuple items →
     (length items < 3)%nat →
     Forall (writable repr_str)
            [age v; comm v; star v; repo v; contrib v; follow v] →
     svg_overwrite repr_str find_spliced fs fname v = Raise IndexError) ∧
  (∀ root loc0 loc1 loc2 rest,
     fs !! fname = Some root →
     loc v = VList (loc0 :: loc1 :: loc2 :: rest)
     ∨ loc v = VTuple (loc0 :: loc1 :: loc2 :: rest) →
     all_writable repr_str (substitutions v loc0 loc1 loc2) →
     ∃ root', svg_overwrite repr_str find_spliced fs fname v
              = Ok (<[fname:=root']> fs)).
Proof.
  split; [|split].
  - intros Hfile. unfold svg_overwrite. rewrite Hfile. by eexists.
  - intros root items Hfile Hloc Hshort Htakes.
    unfold svg_overwrite. rewrite Hfile.
    rewrite (MoreRenderFacts.overwrite_tree_stops repr_str find_spliced
               root v IndexError Htakes); [done|].
    pose proof (MoreRenderFacts.index_past_end items 2) as Hend.
    change (Z.of_nat 2) with 2%Z in Hend.
    destruct Hloc as [-> | ->]; apply Hend; lia.
  - intros root loc0 loc1 loc2 rest Hfile Hloc Htakes.
    unfold svg_overwrite. rewrite Hfile.
    pose proof (MoreRenderFacts.index_within (loc0 :: loc1 :: loc2 :: rest)
                  0 loc0 eq_refl) as H0.
    pose proof (MoreRenderFacts.index_within (loc0 :: loc1 :: loc2 :: rest)
                  1 loc1 eq_refl) as H1.
    pose proof (MoreRenderFacts.index_within (loc0 :: loc1 :: loc2 :: rest)
                  2 loc2 eq_refl) as H2.
    change (Z.of_nat 0) with 0%Z in H0. change (Z.of_nat 1) with 1%Z in H1.
    change (Z.of_nat 2) with 2%Z in H2.
    destruct (MoreRenderFacts.overwrite_tree_total repr_str find_spliced
                root v loc0 loc1 loc2) as [root' Hrun]; try done;
      try (by destruct Hloc as [-> | ->]).
    rewrite Hrun. cbn [mbind outcome_bind]. by eexists.
Qed.

Lemma svg_overwrite_returns_witness :
  Samples.disk !! "dark_mode.svg" = Some Samples.template ∧
  (length [VStr "0"; VStr "0"] < 3)%nat ∧
  Forall (writable Samples.quote)
         [VStr "1 day"; VInt 0; VInt 0; VInt 0; VInt 0; VInt 0] ∧
  svg_overwrite Samples.quote Samples.strict Samples.disk "dark_mode.svg"
    (Vals (VStr "1 day") (VInt 0) (VInt 0) (VInt 0) (VInt 0) (VInt 0)
          (VList [VStr "0"; VStr "0"]))
  = Raise IndexError.
Proof.
  assert (Forall (writable Samples.quote)
            [VStr "1 day"; VInt 0; VInt 0; VInt 0; VInt 0; VInt 0])
    as Htakes by (repeat constructor).
  split; [reflexivity|]. split; [simpl; lia|]. split; [exact Htakes|].
  refine (proj1 (proj2 (svg_overwrite_returns Samples.quote Samples.strict
                          Samples.disk "dark_mode.svg"
                          (Vals (VStr "1 day") (VInt 0) (VInt 0) (VInt 0)
                                (VInt 0) (VInt 0)
                                (VList [VStr "0"; VStr "0"]))))
                Samples.template [VStr "0"; VStr "0"] eq_refl
                (or_introl eq_refl) _ Htakes).
  simpl. lia.
Defined.

(** ** Further properties of the fetchers and the main block *)

Section FetchProps.
Variable post : list request → request → response.
Variable ACCESS_TOKEN : string.
Variable env_USER_NAME : option string.
Variable repr_str : string → string.
Variable find_spliced : element → string → outcome (option path).
Variable int_of_str : string → option Z.

(** X8.  Each of the three fetch calls, whether it returns or raises,
    leaves the same trace when its counter exists: the counter is one
    higher, exactly one request has been posted after the earlier ones,
    and no file is touched.  Without its counter the call raises
    [KeyError] before anything is posted. *)
Theorem fetcher_counts_its_request (w : world) :
  (∀ username,
     (QUERY_COUNT w !! "user_getter" = None →
      user_getter post ACCESS_TOKEN username w
      = (Raise (KeyError "user_getter"), w)) ∧
     (∀ n, QUERY_COUNT w !! "user_getter" = Some n →
           ∃ o, user_getter post ACCESS_TOKEN username w
                = (o, after_call w "user_getter" n
                        (graphql_request ACCESS_TOKEN user_query
                           (login_variables username))))) ∧
  (∀ username,
     (QUERY_COUNT w !! "follower_getter" = None →
      follower_getter post ACCESS_TOKEN int_of_str username w
      = (Raise (KeyError "follower_getter"), w)) ∧
     (∀ n, QUERY_COUNT w !! "follower_getter" = Some n →
           ∃ o, follower_getter post ACCESS_TOKEN int_of_str username w
                = (o, after_call w "follower_getter" n
                        (graphql_request ACCESS_TOKEN follower_query
                           (login_variables username))))) ∧
  (∀ kind aff cursor,
     (QUERY_COUNT w !! "graph_repos_stars" = None →
      graph_repos_stars post ACCESS_TOKEN env_USER_NAME kind aff cursor w
      = (Raise (KeyError "graph_repos_stars"), w)) ∧
     (∀ n, QUERY_COUNT w !! "graph_repos_stars" = Some n →
           ∃ o, graph_repos_stars post ACCESS_TOKEN env_USER_NAME
                  kind aff cursor w
                = (o, after_call w "graph_repos_stars" n
                        (graphql_request ACCESS_TOKEN repos_query
                           (repos_variables (USER_NAME env_USER_NAME)
                              aff cursor))))).
Proof.
  split; [|split].
  - intros username. split.
    + intros Hnone. by apply MoreFetchFacts.call_uncounted.
    + intros n Hn. by apply MoreFetchFacts.call_counted.
  - intros username. split.
    + intros Hnone. by apply MoreFetchFacts.call_uncounted.
    + intros n Hn. by apply MoreFetchFacts.call_counted.
  - intros kind aff cursor. split.
    + intros Hnone. by apply MoreFetchFacts.call_uncounted.
    + intros n Hn. by apply MoreFetchFacts.call_counted.
Qed.

(** X9.  However a run of the main block ends, the requests posted
    before it are still there, in order, and the total of the counters
    has grown by the number of requests the run added; from fresh
    counters and no request the total is the number of requests
    posted.  A run that returns has added five: one to the counter of
    [user_getter], three to that of [graph_repos_stars] and one to
    that of [follower_getter], the other counters being left as they
    were. *)
Theorem main_counts_requests (fuel : nat) (utcnow : datetime)
        (w w' : world) (o : outcome unit) :
  main post ACCESS_TOKEN env_USER_NAME repr_str find_spliced int_of_str
       fuel utcnow w
  = Some (o, w') →
  (∃ reqs,
     posted w' = (posted w ++ reqs)%list ∧
     total_calls (QUERY_COUNT w')
     = (total_calls (QUERY_COUNT w) + Z.of_nat (length reqs))%Z ∧
     (o = Ok () → length reqs = 5%nat)) ∧
  (QUERY_COUNT w = initial_QUERY_COUNT → posted w = [] →
   total_calls (QUERY_COUNT w') = Z.of_nat (length (posted w'))) ∧
  (o = Ok () →
   ∃ u g f,
     QUERY_COUNT w !! "user_getter" = Some u ∧
     QUERY_COUNT w !! "graph_repos_stars" = Some g ∧
     QUERY_COUNT w !! "follower_getter" = Some f ∧
     QUERY_COUNT w'
     = <["follower_getter":=(f + 1)%Z]>
         (<["graph_repos_stars":=(g + 3)%Z]>
            (<["user_getter":=(u + 1)%Z]> (QUERY_COUNT w)))).
Proof.
  intros Hrun.
  assert (accounted w w') as Hacc.
  { unfold main in Hrun.
    pose proof (MoreFetchFacts.call_accounted post ACCESS_TOKEN
                  "user_getter" user_query
                  (VDict [("login", VStr (USER_NAME env_USER_NAME))])
                  (λ r, body ← json_of r;
                        data ← subscript body "data";
                        data ← subscript data "user";
                        uid ← subscript data "id";
                        created ← subscript data "createdAt";
                        Ok (VDict [("id", uid)], created)) w) as Huser.
    change (accounted w
              (user_getter post ACCESS_TOKEN (USER_NAME env_USER_NAME) w).2)
      in Huser.
    destruct (user_getter post ACCESS_TOKEN (USER_NAME env_USER_NAME) w)
      as [[user|e] w1]; simpl in Huser.
    - destruct (uptime_string fuel utcnow BIRTHDAY) as [age|]; [|done].
      injection Hrun as Hrun.
      eapply MoreFetchFacts.accounted_trans; [exact Huser|].
      replace w' with (((gather post ACCESS_TOKEN env_USER_NAME int_of_str age
                         ≫= λ v, overwrite_all repr_str find_spliced v SVG_FILES) w1).2)
        by (transitivity ((o, w').2); [by rewrite <- Hrun | done]).
      apply MoreFetchFacts.bind_accounted.
      + apply MoreFetchFacts.gather_accounted.
      + intros v w2. apply MoreFetchFacts.overwrite_all_accounted.
    - by injection Hrun as _ <-. }
  assert (o = Ok () →
          ∃ u g f,
            QUERY_COUNT w !! "user_getter" = Some u ∧
            QUERY_COUNT w !! "graph_repos_stars" = Some g ∧
            QUERY_COUNT w !! "follower_getter" = Some f ∧
            QUERY_COUNT w'
            = <["follower_getter":=(f + 1)%Z]>
                (<["graph_repos_stars":=(g + 3)%Z]>
                   (<["user_getter":=(u + 1)%Z]> (QUERY_COUNT w))) ∧
            length (posted w') = (length (posted w) + 5)%nat) as Hfive.
  { intros ->.
    apply FetchFacts.main_returns in Hrun
      as (user & w1 & age & v & w2 & Huser & _ & Hstats & Hfiles).
    apply FetchFacts.gather_returns in Hstats
      as (star & repo & count & follower & w3 & w4 & w5
          & Hstar & Hrepo & Hcount & Hfollower & _).
    pose proof (MoreFetchFacts.overwrite_all_keeps repr_str find_spliced v
                    SVG_FILES w2)
      as [HQ HP].
    rewrite Hfiles in HQ, HP. simpl in HQ, HP.
    apply MoreFetchFacts.call_returned in Huser as (u & Hu & ->).
    apply MoreFetchFacts.call_returned in Hstar as (g & Hg & ->).
    apply MoreFetchFacts.call_returned in Hrepo as (g1 & Hg1 & ->).
    apply MoreFetchFacts.call_returned in Hcount as (g2 & Hg2 & ->).
    apply MoreFetchFacts.call_returned in Hfollower as (f & Hf & ->).
    cbn [after_call QUERY_COUNT posted] in *.
    rewrite lookup_insert_ne in Hg by done.
    rewrite lookup_insert_eq in Hg1. injection Hg1 as <-.
    rewrite lookup_insert_eq in Hg2. injection Hg2 as <-.
    rewrite !lookup_insert_ne in Hf by done.
    exists u, g, f. repeat (split; [done|]). split.
    - rewrite HQ, !insert_insert_eq. do 2 f_equal. lia.
    - rewrite HP, !length_app. simpl. lia. }
  destruct Hacc as (reqs & Hposted & Htotal).
  split; [|split].
  - exists reqs. repeat (split; [done|]). intros Hok.
    destruct (Hfive Hok) as (_ & _ & _ & _ & _ & _ & _ & Hlen).
    rewrite Hposted, length_app in Hlen. lia.
  - intros HQ HP. rewrite Htotal, Hposted, HQ, HP. simpl.
    change (total_calls initial_QUERY_COUNT) with 0%Z.
    lia.
  - intros Hok. destruct (Hfive Hok) as (u & g & f & Hu & Hg & Hf & HQ & _).
    by exists u, g, f.
Qed.

(** X10.  A 200 response is no guarantee: when its body does not decode
    each fetch call raises [JSONDecodeError], and when it decodes to a
    page whose [user] is null, as for a login GitHub does not know,
    each raises [TypeError]; in both cases the request has been posted
    and counted. *)
Theorem unknown_user_raises (w : world) (n : Z) :
  (∀ username,
     let req := graphql_request ACCESS_TOKEN user_query
                  (login_variables username) in
     let resp := post (posted w) req in
     QUERY_COUNT w !! "user_getter" = Some n →
     status_code resp = 200%Z →
     (decoded resp = None →
      user_getter post ACCESS_TOKEN username w
      = (Raise JSONDecodeError, after_call w "user_getter" n req)) ∧
     (∀ body data,
        decoded resp = Some body →
        subscript body "data" = Ok data →
        subscript data "user" = Ok VNone →
        user_getter post ACCESS_TOKEN username w
        = (Raise TypeError, after_call w "user_getter" n req))) ∧
  (∀ username,
     let req := graphql_request ACCESS_TOKEN follower_query
                  (login_variables username) in
     let resp := post (posted w) req in
     QUERY_COUNT w !! "follower_getter" = Some n →
     status_code resp = 200%Z →
     (decoded resp = None →
      follower_getter post ACCESS_TOKEN int_of_str username w
      = (Raise JSONDecodeError, after_call w "follower_getter" n req)) ∧
     (∀ body data,
        decoded resp = Some body →
        subscript body "data" = Ok data →
        subscript data "user" = Ok VNone →
        follower_getter post ACCESS_TOKEN int_of_str username w
        = (Raise TypeError, after_call w "follower_getter" n req))) ∧
  (∀ kind aff cursor,
     let req := graphql_request ACCESS_TOKEN repos_query
                  (repos_variables (USER_NAME env_USER_NAME) aff cursor) in
     let resp := post (posted w) req in
     QUERY_COUNT w !! "graph_repos_stars" = Some n →
     status_code resp = 200%Z →
     (decoded resp = None →
      graph_repos_stars post ACCESS_TOKEN env_USER_NAME kind aff cursor w
      = (Raise JSONDecodeError, after_call w "graph_repos_stars" n req)) ∧
     (∀ body data,
        decoded resp = Some body →
        subscript body "data" = Ok data →
        subscript data "user" = Ok VNone →
        graph_repos_stars post ACCESS_TOKEN env_USER_NAME kind aff cursor w
        = (Raise TypeError, after_call w "graph_repos_stars" n req))).
Proof.
  split; [|split].
  - intros username req resp Hn Hstatus. split.
    + intros Hbody. unfold user_getter.
      rewrite (FetchFacts.call_succeeds post ACCESS_TOKEN _ _ _ _ w n Hn
                 Hstatus).
      f_equal. unfold json_of. fold req resp. by rewrite Hbody.
    + intros body data Hbody Hdata Huser. unfold user_getter.
      rewrite (FetchFacts.call_succeeds post ACCESS_TOKEN _ _ _ _ w n Hn
                 Hstatus).
      f_equal. unfold json_of. fold req resp. rewrite Hbody. simpl.
      rewrite Hdata. simpl. by rewrite Huser.
  - intros username req resp Hn Hstatus. split.
    + intros Hbody. unfold follower_getter.
      rewrite (FetchFacts.call_succeeds post ACCESS_TOKEN _ _ _ _ w n Hn
                 Hstatus).
      f_equal. unfold json_of. fold req resp. by rewrite Hbody.
    + intros body data Hbody Hdata Huser. unfold follower_getter.
      rewrite (FetchFacts.call_succeeds post ACCESS_TOKEN _ _ _ _ w n Hn
                 Hstatus).
      f_equal. unfold json_of. fold req resp. rewrite Hbody. simpl.
      rewrite Hdata. simpl. by rewrite Huser.
  - intros kind aff cursor req resp Hn Hstatus. split.
    + intros Hbody. unfold graph_repos_stars.
      rewrite (FetchFacts.call_succeeds post ACCESS_TOKEN _ _ _ _ w n Hn
                 Hstatus).
      f_equal. unfold json_of. fold req resp. by rewrite Hbody.
    + intros body data Hbody Hdata Huser. unfold graph_repos_stars.
      rewrite (FetchFacts.call_succeeds post ACCESS_TOKEN _ _ _ _ w n Hn
                 Hstatus).
      f_equal. unfold json_of. fold req resp. rewrite Hbody. simpl.
      rewrite Hdata. simpl. by rewrite Huser.
Qed.

(** X11.  In 'repos' mode [graph_repos_stars] returns the [totalCount]
    of the page as it came, without looking at the edges; every other
    mode string is a star count. *)
Theorem repos_mode_total_count (w : world) (aff : list string)
        (cursor : pyval) :
  (∀ n body data user r x,
     let req := graphql_request ACCESS_TOKEN repos_query
                  (repos_variables (USER_NAME env_USER_NAME) aff cursor) in
     let resp := post (posted w) req in
     QUERY_COUNT w !! "graph_repos_stars" = Some n →
     status_code resp = 200%Z →
     decoded resp = Some body →
     subscript body "data" = Ok data →
     subscript data "user" = Ok user →
     subscript user "repositories" = Ok r →
     subscript r "totalCount" = Ok x →
     graph_repos_stars post ACCESS_TOKEN env_USER_NAME "repos" aff cursor w
     = (Ok x, after_call w "graph_repos_stars" n req)) ∧
  (∀ kind,
     kind ≠ "repos" →
     graph_repos_stars post ACCESS_TOKEN env_USER_NAME kind aff cursor w
     = graph_repos_stars post ACCESS_TOKEN env_USER_NAME "stars" aff cursor w).
Proof.
  split.
  - intros n body data user r x req resp Hn Hstatus Hbody Hdata Huser Hr Hx.
    unfold graph_repos_stars.
    rewrite (FetchFacts.call_succeeds post ACCESS_TOKEN _ _ _ _ w n Hn
               Hstatus).
    f_equal. unfold json_of. fold req resp. rewrite Hbody. simpl.
    rewrite Hdata. simpl. rewrite Huser. simpl. by rewrite Hr.
  - intros kind Hkind. unfold graph_repos_stars.
    by destruct (String.eqb_spec kind "repos").
Qed.

(** X12.  What the two user queries give back on a page of the
    expected shape: [user_getter] the pair of a one-entry dict holding
    the id and the creation date, both as they came; [follower_getter]
    the follower total converted by [int], or the error of that
    conversion. *)
Theorem getters_return (w : world) (n : Z) (username : string) :
  (∀ body data user uid created,
     let req := graphql_request ACCESS_TOKEN user_query
                  (login_variables username) in
     let resp := post (posted w) req in
     QUERY_COUNT w !! "user_getter" = Some n →
     status_code resp = 200%Z →
     decoded resp = Some body →
     subscript body "data" = Ok data →
     subscript data "user" = Ok user →
     subscript user "id" = Ok uid →
     subscript user "createdAt" = Ok created →
     user_getter post ACCESS_TOKEN username w
     = (Ok (VDict [("id", uid)], created),
        after_call w "user_getter" n req)) ∧
  (∀ body data user followers total,
     let req := graphql_request ACCESS_TOKEN follower_query
                  (login_variables username) in
     let resp := post (posted w) req in
     QUERY_COUNT w !! "follower_getter" = Some n →
     status_code resp = 200%Z →
     decoded resp = Some body →
     subscript body "data" = Ok data →
     subscript data "user" = Ok user →
     subscript user "followers" = Ok followers →
     subscript followers "totalCount" = Ok total →
     follower_getter post ACCESS_TOKEN int_of_str username w
     = (int_of int_of_str total, after_call w "follower_getter" n req) ∧
     (∀ k, total = VInt k →
           follower_getter post ACCESS_TOKEN int_of_str username w
           = (Ok k, after_call w "follower_getter" n req)) ∧
     (total = VNone →
      follower_getter post ACCESS_TOKEN int_of_str username w
      = (Raise TypeError, after_call w "follower_getter" n req))).
Proof.
  split.
  - intros body data user uid created req resp Hn Hstatus Hbody Hdata Huser
           Hid Hcreated.
    unfold user_getter.
    rewrite (FetchFacts.call_succeeds post ACCESS_TOKEN _ _ _ _ w n Hn
               Hstatus).
    f_equal. unfold json_of. fold req resp. rewrite Hbody. simpl.
    rewrite Hdata. simpl. rewrite Huser. simpl. rewrite Hid. simpl.
    by rewrite Hcreated.
  - intros body data user followers total req resp Hn Hstatus Hbody Hdata
           Huser Hfollowers Htotal.
    assert (follower_getter post ACCESS_TOKEN int_of_str username w
            = (int_of int_of_str total,
               after_call w "follower_getter" n req)) as Hrun.
    { unfold follower_getter.
      rewrite (FetchFacts.call_succeeds post ACCESS_TOKEN _ _ _ _ w n Hn
                 Hstatus).
      f_equal. unfold json_of. fold req resp. rewrite Hbody. simpl.
      rewrite Hdata. simpl. rewrite Huser. simpl. rewrite Hfollowers. simpl.
      by rewrite Htotal. }
    split; [exact Hrun|]. split.
    + intros k ->. exact Hrun.
    + intros ->. exact Hrun.
Qed.

(** X13.  What a run of the main block that returns leaves in each
    template file, whatever the API answered: the age string in the
    age field, the follower count with its thousands separators, and
    the placeholders: commits and the three lines-of-code figures all
    read 0, with the dot leaders that go with a one-character text.  A
    leader that is empty leaves its element without text in the
    file. *)
Theorem main_writes_placeholders (fuel : nat) (utcnow : datetime)
        (w w' : world) :
  main post ACCESS_TOKEN env_USER_NAME repr_str find_spliced int_of_str
       fuel utcnow w
  = Some (Ok (), w') →
  ∃ age_text follower,
    uptime_string fuel utcnow BIRTHDAY = Some age_text ∧
    (∃ w1 w2, follower_getter post ACCESS_TOKEN int_of_str
                (USER_NAME env_USER_NAME) w1 = (Ok follower, w2)) ∧
    ∀ fname,
      fname ∈ SVG_FILES →
      ∃ root root',
        files w !! fname = Some root ∧
        files w' !! fname = Some root' ∧
        ∀ eid shown dots,
          (eid, shown, dots)
          ∈ [("age_data", Some age_text, None);
             ("commit_data", Some "0", Some " ..................... ");
             ("follower_data", Some (format_comma follower),
              nonempty
                (Some (dot_leader
                         (Z.max 0 (10 - len (format_comma follower))))));
             ("loc_data", Some "0", Some " ........ ");
             ("loc_add", Some "0", None);
             ("loc_del", Some "0", Some " ...... ")] →
          (∀ p, find root eid = Some p → text_at root' p = shown) ∧
          (∀ q, find root (eid +:+ "_dots") = Some q →
                text_at root' q = dots).
Proof.
  intros Hrun.
  apply FetchFacts.main_returns in Hrun
    as (user & w1 & age_text & v & w2 & Huser & Hage & Hstats & Hfiles).
  apply FetchFacts.gather_returns in Hstats
    as (star & repo & count & follower & w3 & w4 & w5
        & Hstar & Hrepo & Hcount & Hfollower & ->).
  exists age_text, follower. split; [exact Hage|].
  split; [by exists w5, w2|].
  intros fname Hname.
  apply FetchFacts.user_getter_returns in Huser as [_ Hf1].
  apply FetchFacts.graph_repos_stars_returns in Hstar as [_ Hf2].
  apply FetchFacts.graph_repos_stars_returns in Hrepo as [_ Hf3].
  apply FetchFacts.graph_repos_stars_returns in Hcount as [_ Hf4].
  apply FetchFacts.follower_getter_returns in Hfollower as [_ Hf5].
  apply FetchFacts.overwrite_all_returns in Hfiles as (_ & _ & Hfiles);
    [|compute_done].
  destruct (Hfiles fname Hname) as (root & root' & Hroot & Htree & Hfinal).
  rewrite Hf5, Hf4, Hf3, Hf2, Hf1 in Hroot.
  exists root, (reparsed root').
  split; [exact Hroot|]. split; [exact Hfinal|].
  rewrite (RenderFacts.overwrite_tree_run repr_str find_spliced root _
             (VStr "0") (VStr "0") (VStr "0")) in Htree by done.
  match type of Htree with
  | run_steps _ _ _ ?steps = _ =>
      pose proof (λ eid x width,
                    RenderFacts.run_steps_effect repr_str find_spliced
                      steps root root' eid x width
                      (RenderFacts.substitutions_targets _ _ _ _)
                      (RenderFacts.substitutions_plain _ _ _ _) Htree)
        as Heffect
  end.
  assert (∀ eid x width shown dots,
            (eid, x, width)
            ∈ substitutions
                (Vals (VStr age_text) (VInt 0) star repo
                      (VTuple [count; VInt 0]) (VInt follower)
                      (VList [VStr "0"; VStr "0"; VStr "0"]))
                (VStr "0") (VStr "0") (VStr "0") →
            nonempty (Some (written repr_str x)) = shown →
            nonempty (Some (dot_leader
                              (Z.max 0 (width - len (written repr_str x)))))
            = dots →
            (∀ p, find root eid = Some p →
                  text_at (reparsed root') p = shown) ∧
            (∀ q, find root (eid +:+ "_dots") = Some q →
                  text_at (reparsed root') q = dots)) as Hshown.
  { intros eid x width shown dots Hin <- <-.
    destruct (Heffect eid x width Hin) as [Htext Hdots]. split.
    - intros p Hp. by rewrite XmlFacts.text_at_reparsed, (Htext p Hp).
    - intros q Hq. by rewrite XmlFacts.text_at_reparsed, (Hdots q Hq). }
  intros eid shown dots Hin.
  rewrite !elem_of_cons, elem_of_nil in Hin.
  destruct Hin as [Hin|[Hin|[Hin|[Hin|[Hin|[Hin|[]]]]]]];
    injection Hin as -> -> ->.
  - apply (Hshown "age_data" (VStr age_text) 0%Z);
      [ unfold substitutions; rewrite !elem_of_cons; auto 10
      | by eapply XmlFacts.nonempty_Some,
                  MoreDatesFacts.uptime_string_nonempty |].
    pose proof (PyFacts.len_nonneg (written repr_str (VStr age_text))).
    by replace (Z.max 0 (0 - len (written repr_str (VStr age_text))))
      with 0%Z by lia.
  - apply (Hshown "commit_data" (VInt 0) 22%Z);
      [unfold substitutions; rewrite !elem_of_cons; auto 10 | done..].
  - apply (Hshown "follower_data" (VInt follower) 10%Z);
      [unfold substitutions; rewrite !elem_of_cons; auto 10 | | done].
    apply XmlFacts.nonempty_Some, XmlFacts.format_comma_nonempty.
  - apply (Hshown "loc_data" (VStr "0") 9%Z);
      [unfold substitutions; rewrite !elem_of_cons; auto 10 | done..].
  - apply (Hshown "loc_add" (VStr "0") 0%Z);
      [unfold substitutions; rewrite !elem_of_cons; auto 10 | done..].
  - apply (Hshown "loc_del" (VStr "0") 7%Z);
      [unfold substitutions; rewrite !elem_of_cons; auto 10 | done..].
Qed.

(** X14.  The main block fetches everything before it writes
    anything: whatever the outcome of a run, either the template files
    are as they were, or all five requests have been posted. *)
Theorem main_fetches_before_writing (fuel : nat) (utcnow : datetime)
        (w w' : world) (o : outcome unit) :
  main post ACCESS_TOKEN env_USER_NAME repr_str find_spliced int_of_str
       fuel utcnow w
  = Some (o, w') →
  files w' = files w ∨
  length (posted w') = (length (posted w) + 5)%nat.
Proof.
  unfold main. intros Hrun.
  pose proof (MoreFetchFacts.call_files post ACCESS_TOKEN
                "user_getter" user_query
                (VDict [("login", VStr (USER_NAME env_USER_NAME))])
                (λ r, body ← json_of r;
                      data ← subscript body "data";
                      data ← subscript data "user";
                      uid ← subscript data "id";
                      created ← subscript data "createdAt";
                      Ok (VDict [("id", uid)], created)) w) as Hfiles.
  change (files (user_getter post ACCESS_TOKEN (USER_NAME env_USER_NAME) w).2
          = files w) in Hfiles.
  destruct (user_getter post ACCESS_TOKEN (USER_NAME env_USER_NAME) w)
    as [[user|e] w1] eqn:Huser; simpl in Hfiles.
  - destruct (uptime_string fuel utcnow BIRTHDAY) as [age|]; [|done].
    injection Hrun as Hrun.
    change ((gather post ACCESS_TOKEN env_USER_NAME int_of_str age
             ≫= λ v, overwrite_all repr_str find_spliced v SVG_FILES) w1 = (o, w'))
      in Hrun.
    unfold mbind at 1, M_bind at 1 in Hrun.
    pose proof (MoreFetchFacts.gather_files post ACCESS_TOKEN env_USER_NAME
                  int_of_str age w1) as Hgather.
    destruct (gather post ACCESS_TOKEN env_USER_NAME int_of_str age w1)
      as [[v|e] w2] eqn:Hstats; simpl in Hgather.
    + right.
      pose proof (MoreFetchFacts.overwrite_all_keeps repr_str find_spliced v
                    SVG_FILES w2)
        as [_ HP].
      rewrite Hrun in HP. simpl in HP. rewrite HP.
      apply FetchFacts.gather_returns in Hstats
        as (star & repo & count & follower & w3 & w4 & w5
            & Hstar & Hrepo & Hcount & Hfollower & _).
      apply FetchFacts.follower_getter_returns in Hfollower as [-> _].
      apply FetchFacts.graph_repos_stars_returns in Hcount as [-> _].
      apply FetchFacts.graph_repos_stars_returns in Hrepo as [-> _].
      apply FetchFacts.graph_repos_stars_returns in Hstar as [-> _].
      apply FetchFacts.user_getter_returns in Huser as [-> _].
      rewrite !length_app. simpl. lia.
    + left. injection Hrun as _ <-. by rewrite Hgather.
  - left. by injection Hrun as _ <-.
Qed.
End FetchProps.

Lemma fetcher_counts_its_request_witness :
  QUERY_COUNT Samples.start !! "follower_getter" = Some 0%Z ∧
  ∃ o, follower_getter Samples.down "secret" Samples.no_int "Alans44"
         Samples.start
       = (o, after_call Samples.start "follower_getter" 0
               (graphql_request "secret" follower_query
                  (login_variables "Alans44"))).
Proof.
  split; [reflexivity|].
  exact (proj2 (proj1 (proj2
           (fetcher_counts_its_request Samples.down "secret" None
              Samples.no_int Samples.start)) "Alans44") 0%Z eq_refl).
Defined.

Lemma main_counts_requests_witness :
  ∃ w',
    main Samples.api "secret" None Samples.quote Samples.strict
         Samples.no_int 1 Samples.noon Samples.start
    = Some (Ok (), w') ∧
    QUERY_COUNT Samples.start = initial_QUERY_COUNT ∧
    posted Samples.start = [] ∧
    total_calls (QUERY_COUNT w') = Z.of_nat (length (posted w')).
Proof.
  assert (∃ w', main Samples.api "secret" None Samples.quote Samples.strict
                     Samples.no_int 1 Samples.noon Samples.start
                = Some (Ok (), w'))
    as [w' Hrun] by (vm_compute; eexists; reflexivity).
  exists w'. split; [exact Hrun|]. split; [reflexivity|].
  split; [reflexivity|].
  exact (proj1 (proj2 (main_counts_requests Samples.api "secret" None
                         Samples.quote Samples.strict Samples.no_int 1
                         Samples.noon Samples.start w' (Ok ()) Hrun))
           eq_refl eq_refl).
Defined.

Lemma unknown_user_raises_witness :
  let req := graphql_request "secret" user_query (login_variables "nobody") in
  let resp := stranger (posted Samples.start) req in
  QUERY_COUNT Samples.start !! "user_getter" = Some 0%Z ∧
  status_code resp = 200%Z ∧
  decoded resp = Some unknown_user_page ∧
  subscript unknown_user_page "data" = Ok (VDict [("user", VNone)]) ∧
  subscript (VDict [("user", VNone)]) "user" = Ok VNone ∧
  user_getter stranger "secret" "nobody" Samples.start
  = (Raise TypeError, after_call Samples.start "user_getter" 0 req).
Proof.
  intros req resp. do 5 (split; [reflexivity|]).
  exact (proj2 (proj1 (unknown_user_raises stranger "secret" None
                         Samples.no_int Samples.start 0)
                  "nobody" eq_refl eq_refl)
           unknown_user_page (VDict [("user", VNone)])
           eq_refl eq_refl eq_refl).
Defined.

Lemma repos_mode_total_count_witness :
  let req := graphql_request "secret" repos_query
               (repos_variables "Alans44" ["OWNER"] VNone) in
  let resp := Samples.api (posted Samples.asked) req in
  QUERY_COUNT Samples.asked !! "graph_repos_stars" = Some 0%Z ∧
  status_code resp = 200%Z ∧
  decoded resp
  = Some (repos_page (VInt 17) [1000; 200; 34]%Z (VStr "Y3Vyc29y") true) ∧
  graph_repos_stars Samples.api "secret" None "repos" ["OWNER"] VNone
                    Samples.asked
  = (Ok (VInt 17), after_call Samples.asked "graph_repos_stars" 0 req).
Proof.
  intros req resp. do 3 (split; [reflexivity|]).
  exact (proj1 (repos_mode_total_count Samples.api "secret" None
                  Samples.asked ["OWNER"] VNone)
           0%Z _ _ _ _ (VInt 17)
           eq_refl eq_refl eq_refl eq_refl eq_refl eq_refl eq_refl).
Defined.

Lemma getters_return_witness :
  let req := graphql_request "secret" user_query
               (login_variables "Alans44") in
  let resp := Samples.api (posted Samples.start) req in
  QUERY_COUNT Samples.start !! "user_getter" = Some 0%Z ∧
  status_code resp = 200%Z ∧
  decoded resp = Some Samples.user_page ∧
  user_getter Samples.api "secret" "Alans44" Samples.start
  = (Ok (VDict [("id", VStr "U_1")], VStr "2020-01-01T00:00:00Z"),
     after_call Samples.start "user_getter" 0 req).
Proof.
  intros req resp. do 3 (split; [reflexivity|]).
  exact (proj1 (getters_return Samples.api "secret" Samples.no_int
                  Samples.start 0 "Alans44")
           _ _ _ (VStr "U_1") (VStr "2020-01-01T00:00:00Z")
           eq_refl eq_refl eq_refl eq_refl eq_refl eq_refl eq_refl).
Defined.

Lemma main_writes_placeholders_witness :
  ∃ w' root',
    main Samples.api "secret" None Samples.quote Samples.strict
         Samples.no_int 1 Samples.noon Samples.start
    = Some (Ok (), w') ∧
    files w' !! "dark_mode.svg" = Some root' ∧
    text_at root' [2; 1]%nat = Some "0" ∧
    text_at root' [2; 0]%nat = Some " ..................... ".
Proof.
  assert (∃ w', main Samples.api "secret" None Samples.quote Samples.strict
                     Samples.no_int 1 Samples.noon Samples.start
                = Some (Ok (), w'))
    as [w' Hrun] by (vm_compute; eexists; reflexivity).
  destruct (main_writes_placeholders Samples.api "secret" None Samples.quote Samples.strict
              Samples.no_int 1 Samples.noon Samples.start w' Hrun)
    as (age_text & follower & _ & _ & Hfiles).
  destruct (Hfiles "dark_mode.svg") as (root & root' & Hroot & Hfinal & Hshown);
    [by left|].
  injection Hroot as <-.
  destruct (Hshown "commit_data" (Some "0") (Some " ..................... "))
    as [Htext Hdots]; [rewrite !elem_of_cons; auto|].
  exists w', root'. split; [exact Hrun|]. split; [exact Hfinal|].
  split; [exact (Htext [2; 1]%nat eq_refl) | exact (Hdots [2; 0]%nat eq_refl)].
Defined.

Lemma main_fetches_before_writing_witness :
  ∃ o w',
    main Samples.down "secret" None Samples.quote Samples.strict
         Samples.no_int 1 Samples.noon Samples.start
    = Some (o, w') ∧
    length (posted w') = 1%nat ∧
    files w' = files Samples.start.
Proof.
  assert (∃ o w', main Samples.down "secret" None Samples.quote Samples.strict
                    Samples.no_int 1 Samples.noon Samples.start
                  = Some (o, w') ∧ length (posted w') = 1%nat)
    as (o & w' & Hrun & Hposted)
    by (vm_compute; do 2 eexists; split; reflexivity).
  exists o, w'. split; [exact Hrun|]. split; [exact Hposted|].
  destruct (main_fetches_before_writing Samples.down "secret" None
              Samples.quote Samples.strict Samples.no_int 1 Samples.noon
              Samples.start w' o Hrun) as [Hfiles|Hfive]; [exact Hfiles|].
  rewrite Hposted in Hfive. simpl in Hfive. discriminate.
Defined.

(** X15.  The star total of a page is built edge by edge.  While the
    counts are ints (or bools) they add up; the first edge that lacks a
    count decides the error, the one the lookup raised, and the first
    count that is null, a string, a list, a tuple or a dict makes the
    sum raise [TypeError]; the edges after it are not looked at. *)
Theorem sum_stars_first_failure (acc : Z) (front : list pyval)
        (counts : list pyval) :
  Forall2 (λ e x, star_count e = Ok x ∧ isinstance_int x = true)
          front counts →
  sum_stars acc front = Ok (acc + total (int_value <$> counts))%Z ∧
  (∀ bad rest err,
     star_count bad = Raise err →
     sum_stars acc (front ++ bad :: rest)%list = Raise err) ∧
  (∀ bad rest x,
     star_count bad = Ok x →
     x = VNone ∨ (∃ s, x = VStr s) ∨ (∃ items, x = VList items)
     ∨ (∃ items, x = VTuple items) ∨ (∃ entries, x = VDict entries) →
     sum_stars acc (front ++ bad :: rest)%list = Raise TypeError).
Proof.
  intros Hall.
  assert (sum_stars acc front = Ok (acc + total (int_value <$> counts))%Z)
    as Hgood.
  { revert acc. induction Hall as [|e x es xs [He Hx] _ IH]; intros acc.
    - unfold total. simpl. apply (f_equal Ok). lia.
    - cbn [sum_stars]. rewrite He. cbn [mbind outcome_bind].
      unfold add_int. rewrite Hx. cbn [mbind outcome_bind]. rewrite IH.
      unfold total. rewrite fmap_cons. cbn [foldr].
      apply (f_equal Ok). lia. }
  split; [exact Hgood|]. split.
  - intros bad rest err Hbad.
    rewrite MoreFetchFacts.sum_stars_app, Hgood.
    cbn [mbind outcome_bind sum_stars]. by rewrite Hbad.
  - intros bad rest x Hbad Hx.
    rewrite MoreFetchFacts.sum_stars_app, Hgood.
    cbn [mbind outcome_bind sum_stars]. rewrite Hbad.
    cbn [mbind outcome_bind]. unfold add_int.
    by destruct Hx as [->|[[s ->]|[[l ->]|[[l ->]|[d ->]]]]].
Qed.

Lemma sum_stars_first_failure_witness :
  Forall2 (λ e x, star_count e = Ok x ∧ isinstance_int x = true)
          [edge 3; edge 4] [VInt 3; VInt 4] ∧
  star_count (VDict [("node", VNone)]) = Raise TypeError ∧
  sum_stars 0 [edge 3; edge 4; VDict [("node", VNone)]; edge 5]
  = Raise TypeError.
Proof.
  assert (Forall2 (λ e x, star_count e = Ok x ∧ isinstance_int x = true)
                  [edge 3; edge 4] [VInt 3; VInt 4]) as Hfront
    by (repeat constructor).
  split; [exact Hfront|]. split; [reflexivity|].
  exact (proj1 (proj2 (sum_stars_first_failure 0 [edge 3; edge 4]
                         [VInt 3; VInt 4] Hfront))
           (VDict [("node", VNone)]) [edge 5] TypeError eq_refl).
Defined.

(** X16.  The loop over the template files is not all-or-nothing: when
    a file of the list is missing, the run of [svg_overwrite] calls
    raises there, the files before it stay rewritten, and the missing
    file and every file after it in the list are left as they were;
    nothing is posted or counted.  The lines-of-code value has its
    three entries and lxml takes the texts of all values. *)
Theorem overwrite_all_stops_at_missing (repr_str : string → string)
        (find_spliced : element → string → outcome (option path))
        (v : vals) (loc0 loc1 loc2 : pyval)
        (front : list string) (missing : string) (rest : list string)
        (w : world) :
  NoDup front →
  (∀ fname, fname ∈ front → is_Some (files w !! fname)) →
  files w !! missing = None →
  index (loc v) 0 = Ok loc0 → index (loc v) 1 = Ok loc1 →
  index (loc v) 2 = Ok loc2 →
  all_writable repr_str (substitutions v loc0 loc1 loc2) →
  ∃ e w',
    overwrite_all repr_str find_spliced v (front ++ missing :: rest)%list w
    = (Raise e, w') ∧
    QUERY_COUNT w' = QUERY_COUNT w ∧ posted w' = posted w ∧
    (∀ fname, fname ∈ front →
       ∃ root root',
         files w !! fname = Some root ∧
         overwrite_tree repr_str find_spliced root v = Ok root' ∧
         files w' !! fname = Some (reparsed root')) ∧
    (∀ fname, fname ∉ front → files w' !! fname = files w !! fname).
Proof.
  intros Hnodup. revert w.
  induction Hnodup as [|name front Hfresh _ IH];
    intros w Hfront Hmissing H0 H1 H2 Htakes.
  - exists OSError, w. cbn [app overwrite_all]. unfold mbind, M_bind.
    unfold overwrite_file, svg_overwrite. rewrite Hmissing.
    repeat (split; [done|]). split; [|done].
    intros fname Hin. by apply elem_of_nil in Hin.
  - destruct (Hfront name) as [root Hroot]; [by left|].
    destruct (MoreRenderFacts.overwrite_tree_total repr_str find_spliced
                root v loc0 loc1 loc2 H0 H1 H2 Htakes) as [root' Htree].
    set (w1 := World (QUERY_COUNT w) (posted w)
                     (<[name:=reparsed root']> (files w))).
    assert (overwrite_file repr_str find_spliced v name w = (Ok (), w1))
      as Hfile.
    { unfold overwrite_file, svg_overwrite. rewrite Hroot.
      by rewrite Htree. }
    assert (name ≠ missing) as Hne by (intros ->; congruence).
    destruct (IH w1) as (e & w' & Hrun & HQ & HP & Hin & Hout); try done.
    { intros fname Hfname. simpl.
      destruct (decide (fname = name)) as [->|Hother].
      - by rewrite lookup_insert_eq.
      - rewrite lookup_insert_ne by done. apply Hfront. by right. }
    { simpl. by rewrite lookup_insert_ne. }
    exists e, w'. split.
    { change ((name :: front) ++ missing :: rest)%list
        with (name :: (front ++ missing :: rest))%list.
      cbn [overwrite_all]. unfold mbind at 1, M_bind at 1.
      by rewrite Hfile. }
    split; [done|]. split; [done|]. split.
    + intros fname Hfname. apply elem_of_cons in Hfname as [->|Hfname].
      * exists root, root'. split; [done|]. split; [done|].
        rewrite (Hout name Hfresh). simpl. by rewrite lookup_insert_eq.
      * destruct (Hin fname Hfname) as (r & r' & Hr & Hr' & Hfinal).
        exists r, r'. split; [|done]. simpl in Hr.
        rewrite lookup_insert_ne in Hr; [done|]. by intros ->.
    + intros fname Hfname. apply not_elem_of_cons in Hfname as [Hne' Hfname].
      rewrite (Hout fname Hfname). simpl. by rewrite lookup_insert_ne.
Qed.

Lemma overwrite_all_stops_at_missing_witness :
  NoDup ["dark_mode.svg"] ∧
  dark_only !! "light_mode.svg" = None ∧
  all_writable Samples.quote
    (substitutions Samples.values (VStr "0") (VStr "0") (VStr "0")) ∧
  ∃ e w' root',
    overwrite_all Samples.quote Samples.strict Samples.values SVG_FILES
      (World initial_QUERY_COUNT [] dark_only)
    = (Raise e, w') ∧
    overwrite_tree Samples.quote Samples.strict Samples.template
                   Samples.values
    = Ok root' ∧
    files w' !! "dark_mode.svg" = Some (reparsed root') ∧
    files w' !! "light_mode.svg" = None.
Proof.
  assert (NoDup ["dark_mode.svg"]) as Hnodup by compute_done.
  assert (all_writable Samples.quote
            (substitutions Samples.values (VStr "0") (VStr "0") (VStr "0")))
    as Htakes by (repeat constructor).
  split; [exact Hnodup|]. split; [reflexivity|]. split; [exact Htakes|].
  destruct (overwrite_all_stops_at_missing Samples.quote Samples.strict
              Samples.values (VStr "0") (VStr "0") (VStr "0")
              ["dark_mode.svg"] "light_mode.svg" []
              (World initial_QUERY_COUNT [] dark_only) Hnodup)
    as (e & w' & Hrun & _ & _ & Hin & Hout);
    [ intros fname Hfname; apply list_elem_of_singleton in Hfname as ->;
      by exists Samples.template
    | reflexivity | reflexivity | reflexivity | reflexivity | exact Htakes |].
  destruct (Hin "dark_mode.svg") as (root & root' & Hroot & Htree & Hfinal);
    [by left|].
  injection Hroot as <-.
  exists e, w', root'. split; [exact Hrun|]. split; [exact Htree|].
  split; [exact Hfinal|].
  rewrite (Hout "light_mode.svg"); [reflexivity|].
  intros Hfname. apply list_elem_of_singleton in Hfname. discriminate.
Defined.

(** X17.  For a birth date that is not after the clock's reading the
    age string never shows a negative count, twelve months or more, or
    more than thirty days, and its years are the difference of the
    calendar years or one less. *)
Theorem age_within_bounds (fuel : nat) (utcnow bday : datetime) :
  (1 <= fuel)%nat → Dates.valid utcnow → Dates.valid bday →
  Dates.ltb utcnow bday = false →
  ∃ y m d,
    uptime_string fuel utcnow bday
    = Some (unit_text y "year" +:+ ", " +:+ unit_text m "month" +:+ ", "
            +:+ unit_text d "day") ∧
    (0 <= y)%Z ∧
    (year utcnow - year bday - 1 <= y <= year utcnow - year bday)%Z ∧
    (0 <= m <= 11)%Z ∧ (0 <= d <= 30)%Z.
Proof.
  intros Hfuel Hnow Hbday Hge.
  destruct (DatesFacts.between_whole_months fuel utcnow bday
              Hfuel Hnow Hbday Hge)
    as (diff & k & Hdiff & Hk & Hy & Hm & Hnot & Hnext & He & Hd).
  exists (years diff), (months diff), (days diff). split.
  { unfold uptime_string. rewrite Hdiff. simpl. f_equal.
    unfold unit_text. rewrite !FetchFacts.append_assoc.
    by destruct (years diff =? 1)%Z, (months diff =? 1)%Z,
      (days diff =? 1)%Z. }
  assert (1 <= month utcnow <= 12)%Z as Hmn by apply Hnow.
  assert (1 <= month bday <= 12)%Z as Hmb by apply Hbday.
  destruct (MoreDatesFacts.months_on_fields k bday Hk Hmb)
    as (Hc & Hmo & _).
  destruct (MoreDatesFacts.months_on_fields (k + 1) bday ltac:(lia) Hmb)
    as (Hc' & Hmo' & _).
  cbv zeta in Hc, Hmo, Hc', Hmo'.
  pose proof (DatesFacts.ltb_month_count _ _ Hmn Hmo' Hnext) as Hupper.
  assert (year (months_on k bday) * 12 + month (months_on k bday)
          <= year utcnow * 12 + month utcnow)%Z as Hlower.
  { destruct (Z.le_gt_cases
                (year (months_on k bday) * 12 + month (months_on k bday))
                (year utcnow * 12 + month utcnow)) as [|Hlt]; [done|].
    rewrite (DatesFacts.month_count_ltb utcnow (months_on k bday)) in Hnot;
      [done | lia | done | done]. }
  pose proof (MoreDatesFacts.elapsed_within_month k utcnow bday Hk Hnow
                Hbday Hnext) as Hmonth.
  rewrite Hy, Hm, Hd.
  split; [apply Z.div_pos; lia|].
  split; [Z.div_mod_to_equations; lia|].
  split; [pose proof (Z.mod_pos_bound k 12); lia|].
  split; [apply Z.div_pos; lia|].
  apply Z.lt_succ_r. apply Z.div_lt_upper_bound; lia.
Qed.

Lemma age_within_bounds_witness :
  (1 <= 1)%nat ∧ Dates.valid Samples.noon ∧ Dates.valid BIRTHDAY ∧
  Dates.ltb Samples.noon BIRTHDAY = false ∧
  ∃ y m d,
    uptime_string 1 Samples.noon BIRTHDAY
    = Some (unit_text y "year" +:+ ", " +:+ unit_text m "month" +:+ ", "
            +:+ unit_text d "day") ∧
    (0 <= m <= 11)%Z ∧ (0 <= d <= 30)%Z.
Proof.
  assert (Dates.valid Samples.noon) as Hnow by (vm_compute; intuition congruence).
  assert (Dates.valid BIRTHDAY) as Hbday by (vm_compute; intuition congruence).
  split; [lia|]. split; [exact Hnow|]. split; [exact Hbday|].
  split; [reflexivity|].
  destruct (age_within_bounds 1 Samples.noon BIRTHDAY (le_n 1) Hnow Hbday
              eq_refl) as (y & m & d & Hstring & _ & _ & Hm & Hd).
  by exists y, m, d.
Defined.
